(** * Trust files of fapolicyd: a model of [src/library/trust-file.c]

    The development follows the C file top-down: the pieces of libc the
    file calls ([fgets], [sscanf], [strncmp], [snprintf]), the record list
    of [llist.h], then every function of [trust-file.c] in source order,
    and finally the properties of the trust store. *)

From Stdlib Require Import String Ascii List Bool Arith NArith ZArith Lia.
From Stdlib Require Import Decimal DecimalString DecimalN DecimalPos.
From Stdlib Require Import Permutation.
Import ListNotations.

Local Open Scope string_scope.
Local Open Scope list_scope.
Local Open Scope nat_scope.

Infix "+++" := String.append (right associativity, at level 60).

(** ** C library *)

Module CLib.

(** Characters are bytes; the classification is the one of the C locale. *)
Definition code (c : ascii) : nat := nat_of_ascii c.

Definition isspace (c : ascii) : bool :=
  (code c =? 32) || ((9 <=? code c) && (code c <=? 13)).

Definition iscntrl (c : ascii) : bool :=
  (code c <? 32) || (code c =? 127).

Definition NUL : ascii := Ascii.zero.
Definition LF : ascii := ascii_of_nat 10.

(** A byte array read as a C string ends at its first NUL. *)
Fixpoint cstr (s : string) : string :=
  match s with
  | EmptyString => EmptyString
  | String c r => if Ascii.eqb c NUL then EmptyString else String c (cstr r)
  end.

Definition strlen (s : string) : nat := String.length s.

(** [strncmp s1 s2 n]: the difference of the first bytes that differ among
    the first [n], the terminator of the shorter string included. *)
Fixpoint strncmp (s1 s2 : string) (n : nat) {struct n} : Z :=
  match n with
  | O => 0%Z
  | S n' =>
      match s1, s2 with
      | EmptyString, EmptyString => 0%Z
      | EmptyString, String c2 _ => Z.neg (Pos.of_nat (code c2))
      | String c1 _, EmptyString => Z.pos (Pos.of_nat (code c1))
      | String c1 r1, String c2 r2 =>
          if Ascii.eqb c1 c2 then strncmp r1 r2 n'
          else (Z.of_nat (code c1) - Z.of_nat (code c2))%Z
      end
  end.

(** [fgets(buf, size, f)] with [cap = size - 1]: at most [cap] bytes, up to
    and including the first newline.  The result is the buffer and the
    unread rest of the stream. *)
Fixpoint fgets (cap : nat) (s : string) : string * string :=
  match cap, s with
  | S cap', String c r =>
      if Ascii.eqb c LF then (String c EmptyString, r)
      else let (l, r') := fgets cap' r in (String c l, r')
  | _, _ => (EmptyString, s)
  end.

(** The buffers a [while (fgets (...))] loop sees, in order.  Every call
    consumes at least one byte, so [String.length s] rounds are enough. *)
Fixpoint fgets_rounds (fuel cap : nat) (s : string) : list string :=
  match fuel with
  | O => []
  | S fuel' =>
      match s with
      | EmptyString => []
      | _ => let (l, r) := fgets cap s in l :: fgets_rounds fuel' cap r
      end
  end.

Definition fgets_all (cap : nat) (s : string) : list string :=
  fgets_rounds (String.length s) cap s.

(** *** The conversions of [sscanf] *)

Fixpoint skip_space (s : string) : string :=
  match s with
  | String c r => if isspace c then skip_space r else s
  | EmptyString => EmptyString
  end.

(** The body of [%Ns]: at most [w] bytes that are not white space. *)
Fixpoint scan_word (w : nat) (s : string) : string * string :=
  match w, s with
  | S w', String c r =>
      if isspace c then (EmptyString, s)
      else let (t, r') := scan_word w' r in (String c t, r')
  | _, _ => (EmptyString, s)
  end.

(** [%Ns]: skip white space, fail at the end of the input, else read the
    word. *)
Definition conv_s (w : nat) (s : string) : option (string * string) :=
  match skip_space s with
  | EmptyString => None
  | s' => Some (scan_word w s')
  end.

Definition digit_of (c : ascii) : option (uint -> uint) :=
  match c with
  | "0"%char => Some D0 | "1"%char => Some D1 | "2"%char => Some D2
  | "3"%char => Some D3 | "4"%char => Some D4 | "5"%char => Some D5
  | "6"%char => Some D6 | "7"%char => Some D7 | "8"%char => Some D8
  | "9"%char => Some D9
  | _ => None
  end.

Fixpoint scan_digits (s : string) : uint * string :=
  match s with
  | String c r =>
      match digit_of c with
      | Some d => let (u, r') := scan_digits r in (d u, r')
      | None => (Nil, s)
      end
  | EmptyString => (Nil, EmptyString)
  end.

Definition ULONG_MAX : N := 18446744073709551615.

(** The value [strtoul] gives to a sign and a digit sequence: saturation
    at [ULONG_MAX], negation modulo 2^64. *)
Definition strtoul (neg : bool) (u : uint) : N :=
  let v := N.of_uint u in
  if (ULONG_MAX <? v)%N then ULONG_MAX
  else if neg then ((ULONG_MAX + 1 - v) mod (ULONG_MAX + 1))%N
  else v.

Definition scan_sign (s : string) : bool * string :=
  match s with
  | String c r =>
      if Ascii.eqb c "-" then (true, r)
      else if Ascii.eqb c "+" then (false, r)
      else (false, s)
  | EmptyString => (false, s)
  end.

(** [%lu]: skip white space, an optional sign, one digit at least. *)
Definition conv_lu (s : string) : option (N * string) :=
  let (neg, s1) := scan_sign (skip_space s) in
  match scan_digits s1 with
  | (Nil, _) => None
  | (u, r) => Some (strtoul neg u, r)
  end.

(** [%lu] of [printf]. *)
Definition fmt_lu (n : N) : string := NilEmpty.string_of_uint (N.to_uint n).

End CLib.

(** ** The record list of [llist.h] *)

Module LList.

(** Modelled from the spec: [llist.h] and [llist.c] are not part of the
    sources at hand.  Section 4.2 describes the container: an ordered
    collection keyed by path, insertion order preserved, with [contains],
    [append] (fails on a key that is already there), removal of a key,
    [merge] (moves the records of the source into the destination, an
    incoming record whose key exists is dropped) and [clear].  An item is
    its [index] (the path) and its [data] (the encoded value, a pointer
    that may be null). *)
Definition list_item_t : Type := string * option string.

(** Modelled from the spec: see [list_item_t]; [count] is the length. *)
Definition list_t : Type := list list_item_t.

(** Modelled from the spec: see [list_item_t]. *)
Definition list_contains (l : list_t) (index : string) : bool :=
  existsb (fun it => String.eqb (fst it) index) l.

(** Modelled from the spec: see [list_item_t]; the result code is 0 on
    success. *)
Definition list_append (l : list_t) (index : string) (data : option string)
  : list_t * Z :=
  if list_contains l index then (l, 1%Z) else (l ++ [(index, data)], 0%Z).

(** Modelled from the spec: see [list_item_t]; the first item with the key
    is unlinked. *)
Fixpoint list_remove (l : list_t) (index : string) : list_t :=
  match l with
  | [] => []
  | it :: r => if String.eqb (fst it) index then r else it :: list_remove r index
  end.

(** Modelled from the spec: see [list_item_t]; the result is the
    destination and the emptied source. *)
Definition list_merge (dest src : list_t) : list_t * list_t :=
  (fold_left (fun d it => fst (list_append d (fst it) (snd it))) src dest, []).

(** Modelled from the spec: see [list_item_t]. *)
Definition list_empty (l : list_t) : list_t := [].

End LList.

(** ** The environment: files, the directory walk, the log *)

Module Env.

(** A file as the calls of [trust-file.c] see it: its bytes, and whether
    opening it for reading, [fstat] and opening it for writing succeed. *)
Record file : Type := mk_file {
  f_data : string;
  f_readable : bool;
  f_statable : bool;
  f_writable : bool
}.

Definition filesystem : Type := string -> option file.

(** [fopen (path, "r")] and [open (path, O_RDONLY)]. *)
Definition open_read (fs : filesystem) (path : string) : option file :=
  match fs path with
  | Some f => if f_readable f then Some f else None
  | None => None
  end.

(** [fopen (dest, "w")] followed by the writes and [fclose]: the file gets
    the bytes written.  Only files that exist are rewritten by
    [trust-file.c] (a rewrite follows a successful read of the same path),
    so creation is left out: a missing file cannot be opened. *)
Definition open_write (fs : filesystem) (dest : string) : bool :=
  match fs dest with
  | Some f => f_writable f
  | None => false
  end.

Definition set_data (f : file) (d : string) : file :=
  mk_file d (f_readable f) (f_statable f) (f_writable f).

(** The permissions of a file. *)
Definition flags (f : file) : bool * bool * bool :=
  (f_readable f, f_statable f, f_writable f).

(** The bytes at a path, none when there is no file. *)
Definition data_at (fs : filesystem) (path : string) : string :=
  match fs path with
  | Some f => f_data f
  | None => EmptyString
  end.

Definition store (fs : filesystem) (dest content : string) : filesystem :=
  fun p => if String.eqb p dest then option_map (fun f => set_data f content) (fs dest)
           else fs p.

(** [open (fpath, O_CREAT | O_WRONLY | O_APPEND, 0600)]: a file that exists
    must be writable; a file that does not is created empty, for its owner
    to read and write, where [may_create] says the directory lets it. *)
Definition open_append (may_create : string -> bool) (fs : filesystem) (fpath : string)
  : option filesystem :=
  match fs fpath with
  | Some f => if f_writable f then Some fs else None
  | None =>
      if may_create fpath
      then Some (fun p => if String.eqb p fpath then Some (mk_file EmptyString true true true)
                          else fs p)
      else None
  end.

(** The bytes a [write] on a descriptor opened with [O_APPEND] adds. *)
Definition write_append (fs : filesystem) (fpath bytes : string) : filesystem :=
  fun p => if String.eqb p fpath
           then option_map (fun f => set_data f (f_data f +++ bytes)) (fs fpath)
           else fs p.

(** [msg (priority, format, ...)]: a message is the priority, the format
    and the strings given for its [%s]; the log is the list of messages in
    the order they were issued. *)
Inductive priority : Type := LOG_ERR | LOG_WARNING.
Definition message : Type := priority * string * list string.
Definition log : Type := list message.
Definition msg (p : priority) (format : string) (args : list string) : log :=
  [(p, format, args)].

(** [nftw] with [FTW_ACTIONRETVAL | FTW_PHYS]: the callback is called on
    every entry the walk meets, in the order of the walk, until it answers
    [FTW_STOP].  The entries met are a parameter of the model. *)
Inductive typeflag : Type := FTW_F | FTW_D | FTW_DNR | FTW_NS | FTW_SL.
Inductive action : Type := FTW_CONTINUE | FTW_STOP.
Definition walk : Type := list (string * typeflag).

Fixpoint nftw {St : Type} (w : walk)
    (fn : string -> typeflag -> St -> St * log * action) (st : St) : St * log :=
  match w with
  | [] => (st, [])
  | (fpath, flag) :: w' =>
      match fn fpath flag st with
      | (st', lg, FTW_STOP) => (st', lg)
      | (st', lg, FTW_CONTINUE) =>
          let (st'', lg') := nftw w' fn st' in (st'', lg ++ lg')
      end
  end.

(** Behaviour the C standard leaves undefined has no result. *)
Inductive outcome (A : Type) : Type :=
| Done (a : A)
| Undefined.
Arguments Done {A} a.
Arguments Undefined {A}.

Definition bind {A B : Type} (o : outcome A) (k : A -> outcome B) : outcome B :=
  match o with
  | Done a => k a
  | Undefined => Undefined
  end.

End Env.

Notation "x <- o ;; k" := (Env.bind o (fun x => k))
  (at level 61, o at next level, right associativity).

(** ** [trust-file.c] *)

Module TrustFile.
Import CLib LList Env.

Definition nl : string := String LF EmptyString.

Definition TRUST_FILE_PATH : string := "/etc/fapolicyd/fapolicyd.trust".
Definition TRUST_DIR_PATH : string := "/etc/fapolicyd/trust.d/".
Definition BUFFER_SIZE : nat := 4096+1+1+1+10+1+64+1.

Arguments BUFFER_SIZE : simpl never.

Definition HEADER1 : string := "# This file contains a list of trusted files" +++ nl.
Definition HEADER2 : string := "#" +++ nl.
Definition HEADER3 : string :=
  "#  FULL PATH        SIZE                             SHA256" +++ nl.
Definition HEADER4 : string :=
  "# /home/user/my-ls 157984 61a9960bf7d255a85811f4afcac51067b8f2e4c75e21cf4f2af95319d4ed1b87"
  +++ nl.
Definition HEADER : string := HEADER1 +++ HEADER2 +++ HEADER3 +++ HEADER4.

(** [sscanf (buffer, "%4096s %lu %64s", name, &sz, sha)]: the three values
    when the call returns 3, [None] when it returns anything else.  What
    follows the third conversion is not looked at. *)
Definition sscanf_FILE_READ_FORMAT (buffer : string) : option (string * N * string) :=
  match conv_s 4096 (cstr buffer) with
  | None => None
  | Some (name, s1) =>
      match conv_lu (skip_space s1) with
      | None => None
      | Some (sz, s2) =>
          match conv_s 64 (skip_space s2) with
          | None => None
          | Some (sha, _) => Some (name, sz, sha)
          end
      end
  end.

(** [FILE_WRITE_FORMAT], ["%s %lu %s\n"]. *)
Definition FILE_WRITE_FORMAT (path : string) (size : N) (sha : string) : string :=
  path +++ " " +++ fmt_lu size +++ " " +++ sha +++ nl.

(** [iscntrl (buffer[0]) || buffer[0] == '#']; the first byte of an empty
    buffer is its terminator. *)
Definition is_comment (buffer : string) : bool :=
  match buffer with
  | String c _ => iscntrl c || Ascii.eqb c "#"
  | EmptyString => true
  end.

Section Backend.

(** Modelled from the spec: [fapolicyd-backend.h] is not part of the
    sources at hand.  Section 3 fixes the internal encoding: two leading
    characters, a tag digit and one separator, then "<size> <hash>".  The
    separator and the digit that stands for [SRC_FILE_DB] belong to the
    encoder and are parameters here. *)
Variable separator : ascii.
Variable SRC_FILE_DB : ascii.

(** Modelled from the spec: the digest of the bytes of an open file, owned
    by the hash provider ([file.h]). *)
Variable get_hash_from_fd : string -> string.

(** Modelled from the spec: [DATA_FORMAT] of [fapolicyd-backend.h], see
    [separator]. *)
Definition DATA_FORMAT (tsource : ascii) (size : N) (sha : string) : string :=
  String tsource (String separator (fmt_lu size +++ " " +++ sha)).

Definition make_path_string (fs : filesystem) (path : string) (count : Z)
  : option string * Z * log :=
  match open_read fs path with
  | None => (None, count, msg LOG_ERR "Cannot open %s" [path])
  | Some f =>
      if negb (f_statable f) then (None, count, msg LOG_ERR "Cannot stat %s" [path])
      else
        let st_size := N.of_nat (String.length (f_data f)) in
        let hash := get_hash_from_fd (f_data f) in
        let line :=
          if (count =? 0)%Z then DATA_FORMAT "0" st_size hash
          else FILE_WRITE_FORMAT path st_size hash in
        (Some line, Z.of_nat (String.length line), [])
  end.

(** One round of the loop of [write_out_list]: [snprintf] into
    [buf[BUFFER_SIZE + 1]], then [fwrite (buf, hlen, 1, f)] with the length
    [snprintf] returned, which is the length of the untruncated line. *)
Definition snprintf_item (it : list_item_t) : outcome string :=
  match snd it with
  | Some (String _ (String _ str2)) =>
      let line := fst it +++ " " +++ str2 +++ nl in
      let hlen := String.length line in
      if hlen <=? BUFFER_SIZE then Done line
      else if hlen =? BUFFER_SIZE + 1
      then Done (substring 0 BUFFER_SIZE line +++ String NUL EmptyString)
      else Undefined
  | _ => Undefined
  end.

Fixpoint write_items (l : list_t) : outcome string :=
  match l with
  | [] => Done EmptyString
  | it :: r =>
      line <- snprintf_item it ;;
      rest <- write_items r ;;
      Done (line +++ rest)
  end.

Definition write_out_list (fs : filesystem) (list : list_t) (dest : string)
  : outcome (Z * list_t * filesystem * log) :=
  if open_write fs dest then
    body <- write_items list ;;
    Done (0%Z, list, store fs dest (HEADER +++ body), [])
  else Done (1%Z, list_empty list, fs, msg LOG_ERR "Cannot delete %s" [dest]).

(** The loop of [trust_file_load] over the buffers [fgets] returns. *)
Fixpoint load_buffers (fpath : string) (bufs : list string) (list : list_t)
  : Z * list_t * log :=
  match bufs with
  | [] => (0%Z, list, [])
  | buffer :: rest =>
      if is_comment buffer then load_buffers fpath rest list
      else
        match sscanf_FILE_READ_FORMAT buffer with
        | None => (2%Z, list, msg LOG_WARNING "Can't parse %s" [cstr buffer])
        | Some (name, sz, sha) =>
            let data := DATA_FORMAT SRC_FILE_DB sz sha in
            let index := name in
            if list_contains list index then
              let '(rc, list', lg) := load_buffers fpath rest list in
              (rc, list', msg LOG_WARNING "%s contains a duplicate %s" [fpath; index] ++ lg)
            else
              let (list', _) := list_append list index (Some data) in
              load_buffers fpath rest list'
        end
  end.

Definition trust_file_load (fs : filesystem) (fpath : string) (list : list_t)
  : Z * list_t * log :=
  match open_read fs fpath with
  | None => (1%Z, list, msg LOG_ERR "Cannot open %s" [fpath])
  | Some f => load_buffers fpath (fgets_all (BUFFER_SIZE - 1) (f_data f)) list
  end.

(** The loop of [trust_file_delete_path]: the count and the list without
    the items it unlinked. *)
Fixpoint delete_items (path : string) (l : list_t) : Z * list_t :=
  match l with
  | [] => (0%Z, [])
  | it :: r =>
      let (count, r') := delete_items path r in
      if (strncmp (fst it) path (strlen path) =? 0)%Z then ((count + 1)%Z, r')
      else (count, it :: r')
  end.

Definition trust_file_delete_path (fs : filesystem) (fpath path : string)
  : outcome (Z * filesystem * log) :=
  let '(_, list, lg) := trust_file_load fs fpath [] in
  let (count, list') := delete_items path list in
  if (count =? 0)%Z then Done (count, fs, lg)
  else
    w <- write_out_list fs list' fpath ;;
    let '(_, _, fs', lg') := w in
    Done (count, fs', lg ++ lg').

(** The loop of [trust_file_update_path]. *)
Fixpoint update_items (fs : filesystem) (path : string) (l : list_t)
  : Z * list_t * log :=
  match l with
  | [] => (0%Z, [], [])
  | it :: r =>
      let '(count, r', lg') := update_items fs path r in
      if (strncmp (fst it) path (strlen path) =? 0)%Z then
        let '(data, _, lg) := make_path_string fs (fst it) 0 in
        ((count + 1)%Z, (fst it, data) :: r', lg ++ lg')
      else (count, it :: r', lg')
  end.

Definition trust_file_update_path (fs : filesystem) (fpath path : string)
  : outcome (Z * filesystem * log) :=
  let '(_, list, lg) := trust_file_load fs fpath [] in
  let '(count, list', lg1) := update_items fs path list in
  if (count =? 0)%Z then Done (count, fs, lg ++ lg1)
  else
    w <- write_out_list fs list' fpath ;;
    let '(_, _, fs', lg') := w in
    Done (count, fs', lg ++ lg1 ++ lg').

(** The loop of [trust_file_rm_duplicates]. *)
Fixpoint rm_buffers (bufs : list string) (list : list_t) : Z * list_t * log :=
  match bufs with
  | [] => (0%Z, list, [])
  | buffer :: rest =>
      if is_comment buffer then rm_buffers rest list
      else
        match sscanf_FILE_READ_FORMAT buffer with
        | None => (2%Z, list, msg LOG_WARNING "Can't parse %s" [cstr buffer])
        | Some (tpath, _, _) =>
            let list' := list_remove list tpath in
            if List.length list' =? 0 then (0%Z, list', [])
            else rm_buffers rest list'
        end
  end.

Definition trust_file_rm_duplicates (fs : filesystem) (fpath : string) (list : list_t)
  : Z * list_t * log :=
  match open_read fs fpath with
  | None => (1%Z, list, msg LOG_ERR "Cannot open %s" [fpath])
  | Some f => rm_buffers (fgets_all (BUFFER_SIZE - 1) (f_data f)) list
  end.

(** The callbacks of the walk; their state is the global [_list]. *)
Definition ftw_load (fs : filesystem) (fpath : string) (flag : typeflag)
    (_list : list_t) : list_t * log * action :=
  match flag with
  | FTW_F =>
      let '(_, _list', lg) := trust_file_load fs fpath _list in
      (_list', lg, FTW_CONTINUE)
  | _ => (_list, [], FTW_CONTINUE)
  end.

Definition ftw_rm_duplicates (fs : filesystem) (fpath : string) (flag : typeflag)
    (_list : list_t) : list_t * log * action :=
  if List.length _list =? 0 then (_list, [], FTW_STOP)
  else
    match flag with
    | FTW_F =>
        let '(_, _list', lg) := trust_file_rm_duplicates fs fpath _list in
        (_list', lg, FTW_CONTINUE)
    | _ => (_list, [], FTW_CONTINUE)
    end.

(** The accumulation of [trust_file_load_all]: the global [_list] after
    the primary file and the walk, before the merge. *)
Definition load_all_list (fs : filesystem) (w : walk) (_list : list_t)
  : list_t * log :=
  let _list0 := list_empty _list in
  let '(_, _list1, lg1) := trust_file_load fs TRUST_FILE_PATH _list0 in
  let (_list2, lg2) := nftw w (ftw_load fs) _list1 in
  (_list2, lg1 ++ lg2).

(** [trust_file_load_all]: the caller's list, the global [_list] and the
    log afterwards. *)
Definition trust_file_load_all (fs : filesystem) (w : walk) (list _list : list_t)
  : list_t * list_t * log :=
  let (_list2, lg) := load_all_list fs w _list in
  let (list', _list3) := list_merge list _list2 in
  (list', _list3, lg).

Definition trust_file_rm_duplicates_all (fs : filesystem) (w : walk)
    (list _list : list_t) : list_t * list_t * log :=
  let _list0 := list_empty _list in
  let (_list1, list1) := list_merge _list0 list in
  let '(_, _list2, lg1) := trust_file_rm_duplicates fs TRUST_FILE_PATH _list1 in
  let (_list3, lg2) := nftw w (ftw_rm_duplicates fs) _list2 in
  let (list2, _list4) := list_merge list1 _list3 in
  (list2, _list4, lg1 ++ lg2).

(** The loop of [trust_file_append].  [wr i] is what the [i]-th call of
    [write] returns: [None] for -1, else the number of bytes it wrote, at
    most the number asked for.  The file system is read again at every
    round, as [make_path_string] opens the path after the writes of the
    rounds before. *)
Fixpoint append_items (wr : nat -> option nat) (i : nat) (fs : filesystem)
    (fpath : string) (l : list_t) : Z * filesystem * log :=
  match l with
  | [] => (0%Z, fs, [])
  | it :: r =>
      let '(line, count, lg) := make_path_string fs (fst it) 1 in
      match line with
      | None =>
          let '(rc, fs', lg') := append_items wr i fs fpath r in (rc, fs', lg ++ lg')
      | Some line =>
          match wr i with
          | None => (2%Z, fs, lg ++ msg LOG_ERR ("failed writing to %s" +++ nl) [fpath])
          | Some n =>
              let written := substring 0 (Nat.min n (Z.to_nat count)) line in
              let '(rc, fs', lg') :=
                append_items wr (S i) (write_append fs fpath written) fpath r in
              (rc, fs', lg ++ lg')
          end
      end
  end.

Definition trust_file_append (may_create : string -> bool) (wr : nat -> option nat)
    (fs : filesystem) (fpath : string) (list : list_t) : Z * filesystem * log :=
  match open_append may_create fs fpath with
  | None => (1%Z, fs, msg LOG_ERR "Cannot open %s" [fpath])
  | Some fs0 => append_items wr 0 fs0 fpath list
  end.

(** The callbacks of the walks that change files; their state is the
    global [_count] and the file system, [_path] is the global they read.
    Once a call is undefined nothing is known of what follows. *)
Definition ftw_delete_path (_path fpath : string) (flag : typeflag)
    (st : outcome (Z * filesystem)) : outcome (Z * filesystem) * log * action :=
  match st with
  | Undefined => (Undefined, [], FTW_CONTINUE)
  | Done (_count, fs) =>
      match flag with
      | FTW_F =>
          match trust_file_delete_path fs fpath _path with
          | Done (n, fs', lg) => (Done ((_count + n)%Z, fs'), lg, FTW_CONTINUE)
          | Undefined => (Undefined, [], FTW_CONTINUE)
          end
      | _ => (st, [], FTW_CONTINUE)
      end
  end.


Definition trust_file_delete_path_all (fs : filesystem) (w : walk) (path : string)
  : outcome (Z * filesystem * log) :=
  r <- trust_file_delete_path fs TRUST_FILE_PATH path ;;
  let '(_count, fs1, lg1) := r in
  let (st, lg2) := nftw w (ftw_delete_path path) (Done (_count, fs1)) in
  s <- st ;;
  Done (fst s, snd s, lg1 ++ lg2).


End Backend.

End TrustFile.

(** ** Vocabulary of the properties *)

Module Store.
Import CLib LList Env TrustFile.

Definition keys (l : list_t) : list string := map fst l.

(** The record a key denotes: the first item that carries it. *)
Definition lookup (k : string) (l : list_t) : option list_item_t :=
  find (fun it => String.eqb (fst it) k) l.

(** Adding the items of [rs] to [l] one by one, an item whose key is
    there already being dropped: what [list_merge] computes. *)
Definition add_item (d : list_t) (it : list_item_t) : list_t :=
  fst (list_append d (fst it) (snd it)).

Definition merge_in (l rs : list_t) : list_t := fold_left add_item rs l.

(** [p] is a literal prefix of the key [k]. *)
Definition starts_with (p k : string) : bool := String.prefix p k.

Definition matching (p : string) (l : list_t) : list_t :=
  filter (fun it => starts_with p (fst it)) l.

Definition surviving (p : string) (l : list_t) : list_t :=
  filter (fun it => negb (starts_with p (fst it))) l.

(** A word of the text format: not empty, no white space, no NUL. *)
Definition word_char (c : ascii) : bool := negb (isspace c) && negb (Ascii.eqb c NUL).

Fixpoint all_chars (f : ascii -> bool) (s : string) : bool :=
  match s with
  | EmptyString => true
  | String c r => f c && all_chars f r
  end.

Definition is_word (max : nat) (s : string) : bool :=
  negb (String.eqb s EmptyString) && all_chars word_char s && (String.length s <=? max).

(** Nothing, or something that begins with white space or a NUL: what may
    follow a word without becoming part of it. *)
Definition word_end (s : string) : bool :=
  match s with
  | EmptyString => true
  | String c _ => negb (word_char c)
  end.

(** What stops a word, and what stops a number. *)
Definition space_end (s : string) : bool :=
  match s with
  | EmptyString => true
  | String c _ => isspace c
  end.

Definition digit_start (s : string) : bool :=
  match s with
  | EmptyString => false
  | String c _ => match digit_of c with Some _ => true | None => false end
  end.

Definition no_newline (s : string) : bool :=
  all_chars (fun c => negb (Ascii.eqb c LF)) s.

(** The text begins with a decimal number, signed or not. *)
Definition number_start (s : string) : bool := digit_start (snd (scan_sign s)).

(** A record of the text format: path and hash are words of at most 4096
    and 64 bytes, the size is an [unsigned long]. *)
Definition record_ok (t : string * N * string) : Prop :=
  let '(name, sz, sha) := t in
  is_word 4096 name = true /\ (sz <= ULONG_MAX)%N /\ is_word 64 sha = true.

(** The line of a record without its newline. *)
Definition line_body (t : string * N * string) : string :=
  let '(name, sz, sha) := t in name +++ " " +++ fmt_lu sz +++ " " +++ sha.

(** A buffer that brings no key but one of [K] into a store: a comment, or
    a line whose path is in [K] if it is read at all. *)
Definition brings_only (K : string -> Prop) (buffer : string) : Prop :=
  is_comment buffer = true
  \/ forall t, sscanf_FILE_READ_FORMAT buffer = Some t -> K (fst (fst t)).

(** The buffers [fgets] returns for the line of a record: the line, or
    its body and its newline when the line is one byte too long. *)
Definition line_buffers (t : string * N * string) : list string :=
  if String.length (line_body t) <? BUFFER_SIZE - 1 then [line_body t +++ nl]
  else [line_body t; nl].

(** A key a line can begin with without being taken for a comment. *)
Definition plain_key (k : string) : bool := negb (is_comment k).

(** A file system that differs from [fs] at [fpath] only. *)
Definition same_elsewhere (fs : filesystem) (fpath : string) (cur : filesystem) : Prop :=
  forall q, q <> fpath -> cur q = fs q.

(** The text made of the given lines, one after the other. *)
Definition text_of (lines : list string) : string :=
  fold_right String.append EmptyString lines.

(** A buffer [fgets] returns whole: no newline but the last byte. *)
Definition full_line (l : string) : Prop :=
  exists body, l = body +++ nl /\ no_newline body = true
               /\ String.length l <= BUFFER_SIZE - 1.

(** The white-space separated words of a text, the way the format
    description of the trust file counts them. *)
Fixpoint words_from (cur : string) (s : string) : list string :=
  match s with
  | EmptyString => match cur with EmptyString => [] | _ => [cur] end
  | String c r =>
      if isspace c then
        match cur with
        | EmptyString => words_from EmptyString r
        | _ => cur :: words_from EmptyString r
        end
      else words_from (cur +++ String c EmptyString) r
  end.

Definition words (s : string) : list string := words_from EmptyString s.

(** The buffers [fgets] returns for a file, none when it cannot be opened. *)
Definition file_buffers (fs : filesystem) (fpath : string) : list string :=
  match open_read fs fpath with
  | None => []
  | Some f => fgets_all (BUFFER_SIZE - 1) (f_data f)
  end.

(** The triples read from the buffers before the first one that is neither
    a comment nor parsed. *)
Fixpoint parsed (bufs : list string) : list (string * N * string) :=
  match bufs with
  | [] => []
  | b :: r =>
      if is_comment b then parsed r
      else match sscanf_FILE_READ_FORMAT b with
           | None => []
           | Some t => t :: parsed r
           end
  end.

(** Every buffer is a comment or a record. *)
Definition well_formed (bufs : list string) : bool :=
  forallb (fun b => is_comment b ||
                    match sscanf_FILE_READ_FORMAT b with Some _ => true | None => false end)
          bufs.

Definition regular_files (w : walk) : list string :=
  flat_map (fun e => match snd e with FTW_F => [fst e] | _ => [] end) w.

(** The files [trust_file_load_all] and [trust_file_rm_duplicates_all]
    read, in the order they read them. *)
Definition trust_files (w : walk) : list string := TRUST_FILE_PATH :: regular_files w.

(** The keys of the buffers that are read as records, whatever stands
    between them. *)
Definition record_keys (bufs : list string) : list string :=
  flat_map (fun b => if is_comment b then []
                     else match sscanf_FILE_READ_FORMAT b with
                          | Some t => [fst (fst t)]
                          | None => []
                          end) bufs.

(** The keys on disk. *)
Definition disk_keys (fs : filesystem) (w : walk) : list string :=
  flat_map (fun fpath => record_keys (file_buffers fs fpath)) (trust_files w).

(** Removing keys one after the other. *)
Definition remove_all (l : list_t) (ks : list string) : list_t :=
  fold_left list_remove ks l.

Definition on_disk (fs : filesystem) (w : walk) (k : string) : bool :=
  existsb (String.eqb k) (disk_keys fs w).

(** The text [write_out_list] writes for an item: the key, a blank, the
    value without its first two characters, a newline. *)
Definition line_of (it : list_item_t) : string :=
  match snd it with
  | Some (String _ (String _ str2)) => fst it +++ " " +++ str2 +++ nl
  | _ => EmptyString
  end.

Definition fits (it : list_item_t) : bool := String.length (line_of it) <=? BUFFER_SIZE.

Definition is_duplicate_warning (m : message) : bool :=
  match m with
  | (LOG_WARNING, format, _) => String.eqb format "%s contains a duplicate %s"
  | _ => false
  end.

Definition duplicate_warnings (lg : log) : nat :=
  List.length (filter is_duplicate_warning lg).

Section Backend.
Variable separator : ascii.
Variable SRC_FILE_DB : ascii.
Variable get_hash_from_fd : string -> string.

(** The item [trust_file_load] builds from a parsed triple. *)
Definition item_of (t : string * N * string) : list_item_t :=
  let '(name, sz, sha) := t in (name, Some (DATA_FORMAT separator SRC_FILE_DB sz sha)).

Definition file_records (fs : filesystem) (fpath : string) : list_t :=
  map item_of (parsed (file_buffers fs fpath)).

(** Every record the files hold before their first malformed line, in
    reading order. *)
Definition all_records (fs : filesystem) (w : walk) : list_t :=
  flat_map (file_records fs) (trust_files w).

(** The line for a key whose size and hash are taken from the file system
    now. *)
Definition current_line (fs : filesystem) (k : string) : string :=
  match open_read fs k with
  | Some f =>
      FILE_WRITE_FORMAT k (N.of_nat (String.length (f_data f))) (get_hash_from_fd (f_data f))
  | None => EmptyString
  end.

Definition updated_line (fs : filesystem) (p : string) (it : list_item_t) : string :=
  if starts_with p (fst it) then current_line fs (fst it) else line_of it.

(** The item with its value derived again from the file at its path. *)
Definition rederived (fs : filesystem) (it : list_item_t) : list_item_t :=
  (fst it, fst (fst (make_path_string separator get_hash_from_fd fs (fst it) 0))).

(** The list after [trust_file_update_path] went through it, and what the
    pass logs. *)
Definition updated (fs : filesystem) (p : string) (l : list_t) : list_t :=
  map (fun it => if starts_with p (fst it) then rederived fs it else it) l.

Definition update_log (fs : filesystem) (p : string) (l : list_t) : log :=
  flat_map (fun it => if starts_with p (fst it)
                      then snd (make_path_string separator get_hash_from_fd fs (fst it) 0)
                      else []) l.

(** The path of the item can be opened and its size read. *)
Definition reachable (fs : filesystem) (it : list_item_t) : bool :=
  match open_read fs (fst it) with
  | Some f => f_statable f
  | None => false
  end.

(** The record of a key as the file system has it now, and whether it is
    a record of the text format: the path can be opened and its size read,
    the size is an [unsigned long], the hash a word of at most 64 bytes. *)
Definition current_record (fs : filesystem) (k : string) : string * N * string :=
  match open_read fs k with
  | Some f => (k, N.of_nat (String.length (f_data f)), get_hash_from_fd (f_data f))
  | None => (k, 0%N, EmptyString)
  end.

Definition refreshable (fs : filesystem) (it : list_item_t) : bool :=
  match open_read fs (fst it) with
  | Some f => f_statable f
              && (N.of_nat (String.length (f_data f)) <=? ULONG_MAX)%N
              && is_word 64 (get_hash_from_fd (f_data f))
  | None => false
  end.

(** The store with the records under a prefix brought up to date. *)
Definition refreshed (fs : filesystem) (p : string) (l : list_t) : list_t :=
  map (fun it => if starts_with p (fst it) then item_of (current_record fs (fst it))
                 else it) l.

(** What [trust_file_append] adds for an item: the line of its path as
    the file system has it, nothing when the path cannot be opened or its
    size read. *)
Definition appended_line (fs : filesystem) (it : list_item_t) : string :=
  if reachable fs it then current_line fs (fst it) else EmptyString.

Definition appended_text (fs : filesystem) (l : list_t) : string :=
  text_of (map (appended_line fs) l).

(** The items [trust_file_append] writes a line for. *)
Definition appended (fs : filesystem) (l : list_t) : list_t := filter (reachable fs) l.

(** An item whose appended line loads as a record: its path is a word of
    the text format that does not begin like a comment, its record as the
    file system has it is one of the text format, and its line fits the
    read buffer. *)
Definition loadable (fs : filesystem) (it : list_item_t) : bool :=
  is_word 4096 (fst it) && plain_key (fst it) && refreshable fs it
  && (String.length (current_line fs (fst it)) <=? BUFFER_SIZE).

(** The [i]-th [write] is complete for every line of the list. *)
Definition complete_write (wr : nat -> option nat) (fs : filesystem) (l : list_t)
    (i : nat) : Prop :=
  exists n, wr i = Some n
            /\ forall it, In it l -> String.length (appended_line fs it) <= n.

(** The records of a file under a prefix, those that are not, and the
    number of the former over a list of files. *)
Definition matches_in (fs : filesystem) (p fpath : string) : list_t :=
  matching p (snd (fst (trust_file_load separator SRC_FILE_DB fs fpath []))).

Definition survivors_in (fs : filesystem) (p fpath : string) : list_t :=
  surviving p (snd (fst (trust_file_load separator SRC_FILE_DB fs fpath []))).

Definition total_matching (fs : filesystem) (p : string) (files : list string) : Z :=
  fold_right (fun fpath acc => (Z.of_nat (List.length (matches_in fs p fpath)) + acc)%Z)
             0%Z files.

End Backend.

End Store.

(** ** Sample trust stores *)

Module Sample.
Import CLib LList Env TrustFile Store.

Definition readable (data : string) : file := mk_file data true true true.
Definition read_only (data : string) : file := mk_file data true true false.

Definition hash_of (data : string) : string := "61a9960b".

(** Two fragments that both list /etc/passwd, and no primary file. *)
Definition fragment_a : string := "/etc/fapolicyd/trust.d/a".
Definition fragment_b : string := "/etc/fapolicyd/trust.d/b".

Definition two_fragments : filesystem :=
  fun p =>
    if String.eqb p fragment_a then Some (readable ("/etc/passwd 2890 ab12" +++ nl))
    else if String.eqb p fragment_b
    then Some (readable (("/etc/passwd 2890 cd34" +++ nl) +++ "/bin/ls 157984 61a9" +++ nl))
    else None.

Definition two_fragments_walk : walk :=
  [(TRUST_DIR_PATH, FTW_D); (fragment_a, FTW_F); (fragment_b, FTW_F)].

(** A trust file /t with three records, two of them under the literal
    prefix /a/b, and the file /x they may be refreshed from. *)
Definition three_records : string :=
  ("/a/b 1 aa" +++ nl) +++ ("/a/bc 2 bb" +++ nl) +++ ("/x 3 cc" +++ nl).

Definition one_file : filesystem :=
  fun p =>
    if String.eqb p "/t" then Some (readable three_records)
    else if String.eqb p "/x" then Some (readable "hello")
    else None.

Definition one_file_read_only : filesystem :=
  fun p => if String.eqb p "/t" then Some (read_only three_records) else None.

(** A trust file with a malformed second line. *)
Definition ls_line : string := "/bin/ls 157984 61a9" +++ nl.
Definition garbage_line : string := "garbage" +++ nl.
Definition cat_line : string := "/bin/cat 1 ab" +++ nl.

Definition broken_file : filesystem :=
  fun p => if String.eqb p "/t" then Some (readable (ls_line +++ garbage_line +++ cat_line))
           else None.

(** A primary file that lists /a, a fragment that lists /c. *)
Definition disk : filesystem :=
  fun p =>
    if String.eqb p TRUST_FILE_PATH then Some (readable ("/a 1 aa" +++ nl))
    else if String.eqb p fragment_a then Some (readable ("/c 2 cc" +++ nl))
    else None.

Definition disk_walk : walk := [(TRUST_DIR_PATH, FTW_D); (fragment_a, FTW_F)].

Definition candidates : list_t := [("/a", Some "0 5 ee"); ("/b", Some "0 6 ff")].

(** A primary file that lists /x, and /x itself. *)
(** A file with a header comment and a blank line around two records. *)
Definition remark_line : string := "# trusted" +++ nl.

Definition commented_file : filesystem :=
  fun p =>
    if String.eqb p "/t"
    then Some (readable (remark_line +++ ls_line +++ nl +++ cat_line))
    else None.


End Sample.

(** ** Properties *)

Import CLib LList Env TrustFile Store.

(** *** Prefix comparison *)

Lemma code_inj (a b : ascii) : code a = code b -> a = b.
Proof.
  unfold code; intros H.
  rewrite <- (ascii_nat_embedding a), <- (ascii_nat_embedding b), H; reflexivity.
Qed.

Lemma strncmp_prefix (p k : string) :
  (strncmp k p (strlen p) =? 0)%Z = starts_with p k.
Proof.
  unfold starts_with, strlen; revert k.
  induction p as [|c p IH]; intros k; simpl.
  - destruct k; reflexivity.
  - destruct k as [|d k]; simpl; [reflexivity|].
    destruct (ascii_dec c d) as [->|Hne].
    + rewrite Ascii.eqb_refl. apply IH.
    + destruct (Ascii.eqb d c) eqn:E.
      * apply Ascii.eqb_eq in E; congruence.
      * apply Z.eqb_neq. intros H.
        apply Hne. symmetry. apply code_inj. lia.
Qed.

Lemma starts_with_empty (k : string) : starts_with EmptyString k = true.
Proof. destruct k; reflexivity. Qed.

(** *** The record list *)

Lemma list_contains_In (l : list_t) (k : string) :
  list_contains l k = true <-> In k (keys l).
Proof.
  unfold list_contains, keys. rewrite existsb_exists, in_map_iff.
  split; intros [it [H1 H2]]; exists it.
  - apply String.eqb_eq in H2. tauto.
  - split; [tauto|]. apply String.eqb_eq. tauto.
Qed.

Lemma list_contains_false (l : list_t) (k : string) :
  list_contains l k = false <-> ~ In k (keys l).
Proof.
  rewrite <- list_contains_In. destruct (list_contains l k); split; congruence.
Qed.

Lemma add_item_cases (d : list_t) (it : list_item_t) :
  (In (fst it) (keys d) /\ add_item d it = d) \/
  (~ In (fst it) (keys d) /\ add_item d it = d ++ [it]).
Proof.
  unfold add_item, list_append.
  destruct (list_contains d (fst it)) eqn:E.
  - left. split; [apply list_contains_In; assumption | reflexivity].
  - right. split; [apply list_contains_false; assumption|].
    destruct it; reflexivity.
Qed.

Lemma keys_app (a b : list_t) : keys (a ++ b) = keys a ++ keys b.
Proof. apply map_app. Qed.

Lemma lookup_app (k : string) (a b : list_t) :
  lookup k (a ++ b) = match lookup k a with Some it => Some it | None => lookup k b end.
Proof.
  unfold lookup. induction a as [|x a IH]; simpl; [reflexivity|].
  destruct (String.eqb (fst x) k); [reflexivity | apply IH].
Qed.

Lemma lookup_None (k : string) (l : list_t) : lookup k l = None <-> ~ In k (keys l).
Proof.
  unfold lookup, keys. induction l as [|x l IH]; simpl.
  - tauto.
  - destruct (String.eqb (fst x) k) eqn:E.
    + apply String.eqb_eq in E. split; [discriminate | tauto].
    + apply String.eqb_neq in E. rewrite IH. tauto.
Qed.

Lemma lookup_Some_key (k : string) (l : list_t) (it : list_item_t) :
  lookup k l = Some it -> fst it = k /\ In it l.
Proof.
  unfold lookup. intros H. apply find_some in H. destruct H as [H1 H2].
  apply String.eqb_eq in H2. tauto.
Qed.

Lemma add_item_unique (d : list_t) (it : list_item_t) :
  NoDup (keys d) -> NoDup (keys (add_item d it)).
Proof.
  intros H. destruct (add_item_cases d it) as [[_ ->]|[Hn ->]]; [assumption|].
  rewrite keys_app. simpl. apply NoDup_app; [assumption | constructor; [tauto|constructor] |].
  intros a Ha [<-|[]]. contradiction.
Qed.

Lemma add_item_lookup (d : list_t) (it : list_item_t) (k : string) :
  lookup k (add_item d it) = lookup k (d ++ [it]).
Proof.
  destruct (add_item_cases d it) as [[Hin ->]|[_ ->]]; [|reflexivity].
  rewrite lookup_app. destruct (lookup k d) eqn:E; [reflexivity|].
  apply lookup_None in E. unfold lookup; simpl.
  destruct (String.eqb (fst it) k) eqn:E2; [|reflexivity].
  apply String.eqb_eq in E2. subst k. contradiction.
Qed.

Lemma merge_in_unique (rs l : list_t) : NoDup (keys l) -> NoDup (keys (merge_in l rs)).
Proof.
  unfold merge_in. revert l. induction rs as [|r rs IH]; intros l H; simpl.
  - assumption.
  - apply IH, add_item_unique, H.
Qed.

Lemma merge_in_lookup (k : string) (rs l : list_t) :
  lookup k (merge_in l rs) = lookup k (l ++ rs).
Proof.
  unfold merge_in. revert l. induction rs as [|r rs IH]; intros l; simpl.
  - rewrite app_nil_r. reflexivity.
  - rewrite IH. rewrite !lookup_app, add_item_lookup, lookup_app.
    destruct (lookup k l); [reflexivity|].
    unfold lookup at 1 3. simpl. destruct (String.eqb (fst r) k); reflexivity.
Qed.

Lemma merge_in_extends (rs l : list_t) : exists t, merge_in l rs = l ++ t.
Proof.
  unfold merge_in. revert l. induction rs as [|r rs IH]; intros l; simpl.
  - exists []. rewrite app_nil_r. reflexivity.
  - destruct (IH (add_item l r)) as [t Ht]. rewrite Ht.
    destruct (add_item_cases l r) as [[_ ->]|[_ ->]].
    + exists t. reflexivity.
    + exists (r :: t). rewrite <- app_assoc. reflexivity.
Qed.

Lemma merge_in_app (l a b : list_t) : merge_in l (a ++ b) = merge_in (merge_in l a) b.
Proof. apply fold_left_app. Qed.

Lemma merge_in_keys (k : string) (rs l : list_t) :
  In k (keys (merge_in l rs)) <-> In k (keys (l ++ rs)).
Proof.
  pose proof (merge_in_lookup k rs l) as H.
  destruct (lookup k (merge_in l rs)) eqn:E1; destruct (lookup k (l ++ rs)) eqn:E2;
    try discriminate.
  - split; intros _.
    + apply lookup_Some_key in E2. destruct E2 as [<- Hin].
      apply in_map. assumption.
    + apply lookup_Some_key in E1. destruct E1 as [<- Hin].
      apply in_map. assumption.
  - apply lookup_None in E1, E2. tauto.
Qed.

(** Items that came from somewhere: a merge stores items of its two
    arguments only. *)
Lemma merge_in_In (it : list_item_t) (rs l : list_t) :
  In it (merge_in l rs) -> In it l \/ In it rs.
Proof.
  unfold merge_in. revert l. induction rs as [|r rs IH]; intros l; simpl.
  - tauto.
  - intros H. apply IH in H. destruct H as [H|H]; [|tauto].
    destruct (add_item_cases l r) as [[_ E]|[_ E]]; rewrite E in H.
    + tauto.
    + apply in_app_or in H. simpl in H. intuition.
Qed.

(** *** Loading *)

Lemma duplicate_warnings_app (a b : log) :
  duplicate_warnings (a ++ b) = duplicate_warnings a + duplicate_warnings b.
Proof. unfold duplicate_warnings. rewrite filter_app, length_app. reflexivity. Qed.

Section Loading.
Variable separator : ascii.
Variable SRC_FILE_DB : ascii.

Local Abbreviation load_buffers := (load_buffers separator SRC_FILE_DB).
Local Abbreviation trust_file_load := (trust_file_load separator SRC_FILE_DB).
Local Abbreviation item_of := (item_of separator SRC_FILE_DB).
Local Abbreviation file_records := (file_records separator SRC_FILE_DB).
Local Abbreviation all_records := (all_records separator SRC_FILE_DB).

(** The store after the loop is the store before it with the parsed
    records merged in; the duplicates are the records that were not
    stored. *)
Lemma load_buffers_store (fpath : string) (bufs : list string) (l : list_t) :
  snd (fst (load_buffers fpath bufs l)) = merge_in l (map item_of (parsed bufs)).
Proof.
  revert l. induction bufs as [|b bufs IH]; intros l; simpl; [reflexivity|].
  destruct (is_comment b); [apply IH|].
  destruct (sscanf_FILE_READ_FORMAT b) as [[[name sz] sha]|]; [|reflexivity].
  simpl. unfold add_item at 1. simpl.
  unfold list_append. destruct (list_contains l name) eqn:E; simpl.
  - specialize (IH l). destruct (load_buffers fpath bufs l) as [[rc l'] lg].
    simpl in *. exact IH.
  - apply IH.
Qed.

Lemma load_buffers_code (fpath : string) (bufs : list string) (l : list_t) :
  fst (fst (load_buffers fpath bufs l)) = if well_formed bufs then 0%Z else 2%Z.
Proof.
  revert l. induction bufs as [|b bufs IH]; intros l; simpl; [reflexivity|].
  destruct (is_comment b); simpl; [apply IH|].
  destruct (sscanf_FILE_READ_FORMAT b) as [[[name sz] sha]|]; [|reflexivity].
  simpl. unfold list_append. destruct (list_contains l name) eqn:E; simpl.
  - specialize (IH l). destruct (load_buffers fpath bufs l) as [[rc l'] lg].
    simpl in *. exact IH.
  - apply IH.
Qed.

Lemma load_buffers_duplicates (fpath : string) (bufs : list string) (l : list_t) :
  List.length (snd (fst (load_buffers fpath bufs l)))
  + duplicate_warnings (snd (load_buffers fpath bufs l))
  = List.length l + List.length (parsed bufs).
Proof.
  revert l. induction bufs as [|b bufs IH]; intros l; simpl.
  - unfold duplicate_warnings; simpl. lia.
  - destruct (is_comment b); [apply IH|].
    destruct (sscanf_FILE_READ_FORMAT b) as [[[name sz] sha]|]; simpl.
    + unfold list_append. destruct (list_contains l name) eqn:E; simpl.
      * specialize (IH l). destruct (load_buffers fpath bufs l) as [[rc l'] lg].
        simpl in *. unfold duplicate_warnings in *. simpl. lia.
      * rewrite IH, length_app. simpl. lia.
    + unfold duplicate_warnings; simpl. lia.
Qed.

Lemma trust_file_load_store (fs : filesystem) (fpath : string) (l : list_t) :
  snd (fst (trust_file_load fs fpath l)) = merge_in l (file_records fs fpath).
Proof.
  unfold trust_file_load, Store.file_records, file_buffers.
  destruct (open_read fs fpath); [apply load_buffers_store | reflexivity].
Qed.

Lemma trust_file_load_duplicates (fs : filesystem) (fpath : string) (l : list_t) :
  List.length (snd (fst (trust_file_load fs fpath l)))
  + duplicate_warnings (snd (trust_file_load fs fpath l))
  = List.length l + List.length (file_records fs fpath).
Proof.
  unfold trust_file_load, Store.file_records, file_buffers.
  destruct (open_read fs fpath).
  - rewrite load_buffers_duplicates, length_map. reflexivity.
  - unfold duplicate_warnings. simpl. lia.
Qed.

Lemma nftw_load_store (fs : filesystem) (w : walk) (l : list_t) :
  fst (nftw w (ftw_load separator SRC_FILE_DB fs) l)
  = merge_in l (flat_map (file_records fs) (regular_files w)).
Proof.
  revert l. induction w as [|[fpath flag] w IH]; intros l; simpl; [reflexivity|].
  destruct flag; simpl;
    try (specialize (IH l);
         destruct (nftw w (ftw_load separator SRC_FILE_DB fs) l); exact IH).
  pose proof (trust_file_load_store fs fpath l) as H.
  destruct (trust_file_load fs fpath l) as [[rc l'] lg]. simpl in H.
  specialize (IH l').
  destruct (nftw w (ftw_load separator SRC_FILE_DB fs) l') as [l'' lg']. simpl in *.
  rewrite IH, H, merge_in_app. reflexivity.
Qed.

Lemma nftw_load_duplicates (fs : filesystem) (w : walk) (l : list_t) :
  List.length (fst (nftw w (ftw_load separator SRC_FILE_DB fs) l))
  + duplicate_warnings (snd (nftw w (ftw_load separator SRC_FILE_DB fs) l))
  = List.length l + List.length (flat_map (file_records fs) (regular_files w)).
Proof.
  revert l. induction w as [|[fpath flag] w IH]; intros l; simpl.
  - unfold duplicate_warnings; simpl; lia.
  - destruct flag; simpl;
      try (specialize (IH l);
           destruct (nftw w (ftw_load separator SRC_FILE_DB fs) l); exact IH).
    pose proof (trust_file_load_duplicates fs fpath l) as H.
    destruct (trust_file_load fs fpath l) as [[rc l'] lg]. simpl in H.
    specialize (IH l').
    destruct (nftw w (ftw_load separator SRC_FILE_DB fs) l') as [l'' lg']. simpl in *.
    rewrite duplicate_warnings_app, length_app. lia.
Qed.

Lemma load_all_list_store (fs : filesystem) (w : walk) (g : list_t) :
  fst (load_all_list separator SRC_FILE_DB fs w g) = merge_in [] (all_records fs w).
Proof.
  unfold load_all_list, Store.all_records, trust_files, list_empty. simpl.
  pose proof (trust_file_load_store fs TRUST_FILE_PATH []) as H.
  destruct (trust_file_load fs TRUST_FILE_PATH []) as [[rc l1] lg1]. simpl in H.
  pose proof (nftw_load_store fs w l1) as H2.
  destruct (nftw w (ftw_load separator SRC_FILE_DB fs) l1) as [l2 lg2]. simpl in *.
  rewrite H2, H, merge_in_app. reflexivity.
Qed.

Lemma load_all_list_duplicates (fs : filesystem) (w : walk) (g : list_t) :
  List.length (fst (load_all_list separator SRC_FILE_DB fs w g))
  + duplicate_warnings (snd (load_all_list separator SRC_FILE_DB fs w g))
  = List.length (all_records fs w).
Proof.
  unfold load_all_list, Store.all_records, trust_files, list_empty. simpl.
  pose proof (trust_file_load_duplicates fs TRUST_FILE_PATH []) as H.
  destruct (trust_file_load fs TRUST_FILE_PATH []) as [[rc l1] lg1]. simpl in H.
  pose proof (nftw_load_duplicates fs w l1) as H2.
  destruct (nftw w (ftw_load separator SRC_FILE_DB fs) l1) as [l2 lg2]. simpl in *.
  rewrite duplicate_warnings_app, length_app. lia.
Qed.

End Loading.

(** *** Uniqueness of keys across the trust files *)

Lemma list_merge_merge_in (dest src : list_t) :
  list_merge dest src = (merge_in dest src, []).
Proof. reflexivity. Qed.

(** C1.  [trust_file_load_all] over the primary file and the files of the
    walk: the accumulated store has no two items with one key; a key
    denotes in it the record it denotes in the sequence of all records in
    reading order, which is its first one; the keys stored are the keys
    read; every record read is either stored or reported by one duplicate
    warning.  The same holds for the caller's list after the merge, the
    caller's own records coming first.  Every single [trust_file_load]
    keeps the keys unique and leaves the records that were there in
    place. *)
Theorem load_all_first_record_wins
    (separator SRC_FILE_DB : ascii) (fs : filesystem) (w : walk) (list g : list_t) :
  NoDup (keys list) ->
  let acc := load_all_list separator SRC_FILE_DB fs w g in
  let out := trust_file_load_all separator SRC_FILE_DB fs w list g in
  let records := all_records separator SRC_FILE_DB fs w in
  NoDup (keys (fst acc))
  /\ (forall k, lookup k (fst acc) = lookup k records)
  /\ (forall k, In k (keys (fst acc)) <-> In k (keys records))
  /\ List.length (fst acc) + duplicate_warnings (snd acc) = List.length records
  /\ NoDup (keys (fst (fst out)))
  /\ (forall k, lookup k (fst (fst out)) = lookup k (list ++ records))
  /\ (forall fpath l,
        NoDup (keys l) ->
        NoDup (keys (snd (fst (trust_file_load separator SRC_FILE_DB fs fpath l))))
        /\ exists t, snd (fst (trust_file_load separator SRC_FILE_DB fs fpath l)) = l ++ t).
Proof.
  intros Hlist acc out records.
  assert (Hacc : fst acc = merge_in [] records) by apply load_all_list_store.
  assert (Hout : fst (fst out) = merge_in list (fst acc)).
  { unfold out, trust_file_load_all. fold acc. destruct acc as [a lg].
    rewrite list_merge_merge_in. reflexivity. }
  assert (Huniq : NoDup (keys (fst acc))).
  { rewrite Hacc. apply merge_in_unique. constructor. }
  split; [exact Huniq|].
  split; [intros k; rewrite Hacc; apply merge_in_lookup|].
  split; [intros k; rewrite Hacc; apply merge_in_keys|].
  split; [apply load_all_list_duplicates|].
  split; [rewrite Hout; apply merge_in_unique; exact Hlist|].
  split.
  - intros k. rewrite Hout, merge_in_lookup, !lookup_app, Hacc, merge_in_lookup.
    reflexivity.
  - intros fpath l Hl. rewrite trust_file_load_store.
    split; [apply merge_in_unique; exact Hl | apply merge_in_extends].
Qed.

(** *** Strings *)

Lemma append_assoc (a b c : string) : (a +++ b) +++ c = a +++ b +++ c.
Proof. induction a as [|x a IH]; simpl; [reflexivity | rewrite IH; reflexivity]. Qed.

Lemma append_nil_r (a : string) : a +++ EmptyString = a.
Proof. induction a as [|x a IH]; simpl; [reflexivity | rewrite IH; reflexivity]. Qed.

Lemma length_append (a b : string) :
  String.length (a +++ b) = String.length a + String.length b.
Proof. induction a as [|x a IH]; simpl; [reflexivity | rewrite IH; reflexivity]. Qed.

Lemma all_chars_app (f : ascii -> bool) (a b : string) :
  all_chars f (a +++ b) = all_chars f a && all_chars f b.
Proof.
  induction a as [|x a IH]; simpl; [reflexivity|].
  rewrite IH, andb_assoc. reflexivity.
Qed.

Lemma all_chars_impl (f g : ascii -> bool) (s : string) :
  (forall c, f c = true -> g c = true) -> all_chars f s = true -> all_chars g s = true.
Proof.
  intros H. induction s as [|x s IH]; simpl; [reflexivity|].
  intros E. apply andb_true_iff in E. destruct E as [E1 E2].
  rewrite (H _ E1), (IH E2). reflexivity.
Qed.

Lemma cstr_app (a b : string) :
  all_chars (fun c => negb (Ascii.eqb c NUL)) a = true -> cstr (a +++ b) = a +++ cstr b.
Proof.
  induction a as [|x a IH]; simpl; [reflexivity|].
  intros E. apply andb_true_iff in E. destruct E as [E1 E2].
  apply negb_true_iff in E1. rewrite E1, (IH E2). reflexivity.
Qed.

Lemma cstr_no_nul (a : string) :
  all_chars (fun c => negb (Ascii.eqb c NUL)) a = true -> cstr a = a.
Proof.
  intros H. rewrite <- (append_nil_r a) at 1. rewrite (cstr_app _ _ H).
  apply append_nil_r.
Qed.

(** *** The conversions of the read format *)

Lemma isspace_not_nul (c : ascii) : isspace c = true -> Ascii.eqb c NUL = false.
Proof. destruct c as [[] [] [] [] [] [] [] []]; vm_compute; intros; congruence. Qed.

Lemma isspace_not_digit (c : ascii) : isspace c = true -> digit_of c = None.
Proof. destruct c as [[] [] [] [] [] [] [] []]; vm_compute; intros; congruence. Qed.

Lemma digit_not_sign (c : ascii) (d : uint -> uint) :
  digit_of c = Some d -> Ascii.eqb c "-" = false /\ Ascii.eqb c "+" = false
                          /\ isspace c = false /\ Ascii.eqb c NUL = false.
Proof.
  destruct c as [[] [] [] [] [] [] [] []]; vm_compute; intros; try discriminate;
    repeat split; reflexivity.
Qed.

Lemma skip_space_app (ws s : string) :
  all_chars isspace ws = true -> skip_space (ws +++ s) = skip_space s.
Proof.
  induction ws as [|x ws IH]; simpl; [reflexivity|].
  intros E. apply andb_true_iff in E. destruct E as [E1 E2].
  rewrite E1. apply IH, E2.
Qed.

Lemma skip_space_start (c : ascii) (s : string) :
  isspace c = false -> skip_space (String c s) = String c s.
Proof. intros E. simpl. rewrite E. reflexivity. Qed.

Lemma scan_word_exact (w : nat) (t r : string) :
  all_chars (fun c => negb (isspace c)) t = true ->
  String.length t <= w ->
  space_end r = true ->
  scan_word w (t +++ r) = (t, r).
Proof.
  revert w. induction t as [|x t IH]; intros w Ht Hw Hr; simpl.
  - destruct w; [reflexivity|]. destruct r as [|c r]; [reflexivity|].
    simpl in Hr. simpl. rewrite Hr. reflexivity.
  - simpl in Ht, Hw. apply andb_true_iff in Ht. destruct Ht as [E1 E2].
    apply negb_true_iff in E1.
    destruct w as [|w]; [lia|]. simpl.
    rewrite E1, (IH w E2); [reflexivity | lia | exact Hr].
Qed.

Lemma conv_s_word (w : nat) (ws t r : string) :
  all_chars isspace ws = true ->
  t <> EmptyString ->
  all_chars (fun c => negb (isspace c)) t = true ->
  String.length t <= w ->
  space_end r = true ->
  conv_s w (ws +++ t +++ r) = Some (t, r).
Proof.
  intros Hws Hne Ht Hw Hr. unfold conv_s. rewrite (skip_space_app _ _ Hws).
  destruct t as [|x t]; [congruence|].
  pose proof Ht as Ht'. simpl in Ht'. apply andb_true_iff in Ht'.
  destruct Ht' as [E1 _]. apply negb_true_iff in E1.
  change (String x t +++ r) with (String x (t +++ r)).
  rewrite (skip_space_start _ _ E1).
  change (String x (t +++ r)) with (String x t +++ r).
  rewrite (scan_word_exact w _ _ Ht Hw Hr). reflexivity.
Qed.

Lemma scan_digits_exact (u : uint) (r : string) :
  digit_start r = false ->
  scan_digits (NilEmpty.string_of_uint u +++ r) = (u, r).
Proof.
  intros Hr. induction u; simpl; try (rewrite IHu; reflexivity).
  destruct r as [|c r]; [reflexivity|].
  simpl in Hr. simpl. destruct (digit_of c); [discriminate | reflexivity].
Qed.

Lemma string_of_uint_start (u : uint) :
  u <> Nil ->
  exists c d s, NilEmpty.string_of_uint u = String c s /\ digit_of c = Some d.
Proof.
  intros H. destruct u; [congruence | | | | | | | | | | ]; simpl;
    do 3 eexists; (split; [reflexivity | reflexivity]).
Qed.

Lemma conv_lu_exact (ws r : string) (u : uint) :
  all_chars isspace ws = true ->
  u <> Nil ->
  digit_start r = false ->
  conv_lu (ws +++ NilEmpty.string_of_uint u +++ r) = Some (strtoul false u, r).
Proof.
  intros Hws Hu Hr. unfold conv_lu. rewrite (skip_space_app _ _ Hws).
  destruct (string_of_uint_start u Hu) as (c & d & s & Es & Ed).
  destruct (digit_not_sign c d Ed) as (E1 & E2 & E3 & _).
  pose proof (scan_digits_exact u r Hr) as Hscan.
  rewrite Es in *. change (String c s +++ r) with (String c (s +++ r)) in *.
  rewrite (skip_space_start _ _ E3). unfold scan_sign. rewrite E1, E2, Hscan.
  destruct u; [congruence | | | | | | | | | | ]; reflexivity.
Qed.

Lemma strtoul_to_uint (n : N) : (n <= ULONG_MAX)%N -> strtoul false (N.to_uint n) = n.
Proof.
  intros H. unfold strtoul. rewrite DecimalN.Unsigned.of_to.
  destruct (N.ltb_spec ULONG_MAX n); [lia | reflexivity].
Qed.

Lemma to_uint_not_nil (n : N) : N.to_uint n <> Nil.
Proof.
  destruct n; simpl; [discriminate | apply DecimalPos.Unsigned.to_uint_nonnil].
Qed.

Lemma is_word_spec (m : nat) (s : string) :
  is_word m s = true <->
  s <> EmptyString /\ all_chars word_char s = true /\ String.length s <= m.
Proof.
  unfold is_word. rewrite !andb_true_iff, negb_true_iff, String.eqb_neq, Nat.leb_le.
  tauto.
Qed.

Lemma word_no_space (s : string) :
  all_chars word_char s = true -> all_chars (fun c => negb (isspace c)) s = true.
Proof.
  apply all_chars_impl. unfold word_char. intros c H.
  apply andb_true_iff in H. tauto.
Qed.

Lemma word_no_nul (s : string) :
  all_chars word_char s = true -> all_chars (fun c => negb (Ascii.eqb c NUL)) s = true.
Proof.
  apply all_chars_impl. unfold word_char. intros c H.
  apply andb_true_iff in H. tauto.
Qed.

Lemma space_no_nul (s : string) :
  all_chars isspace s = true -> all_chars (fun c => negb (Ascii.eqb c NUL)) s = true.
Proof.
  apply all_chars_impl. intros c H. rewrite (isspace_not_nul c H). reflexivity.
Qed.

Lemma digits_no_nul (u : uint) :
  all_chars (fun c => negb (Ascii.eqb c NUL)) (NilEmpty.string_of_uint u) = true.
Proof. induction u; simpl; auto. Qed.

Lemma digits_no_space (u : uint) :
  all_chars (fun c => negb (isspace c)) (NilEmpty.string_of_uint u) = true.
Proof. induction u; simpl; auto. Qed.

Lemma space_end_app (ws s : string) :
  ws <> EmptyString -> all_chars isspace ws = true -> space_end (ws +++ s) = true.
Proof.
  destruct ws as [|c ws]; [congruence|]. simpl. intros _ H.
  apply andb_true_iff in H. tauto.
Qed.

Lemma space_end_not_digit (s : string) : space_end s = true -> digit_start s = false.
Proof.
  destruct s as [|c s]; simpl; [reflexivity|].
  intros H. rewrite (isspace_not_digit c H). reflexivity.
Qed.

Lemma word_end_cstr (s : string) : word_end s = true -> space_end (cstr s) = true.
Proof.
  destruct s as [|c s]; simpl; [reflexivity|].
  unfold word_char. destruct (Ascii.eqb c NUL); simpl; [reflexivity|].
  destruct (isspace c); simpl; congruence.
Qed.

Lemma skip_space_word (t r : string) :
  t <> EmptyString -> all_chars (fun c => negb (isspace c)) t = true ->
  skip_space (t +++ r) = t +++ r.
Proof.
  destruct t as [|c t]; [congruence|]. simpl. intros _ H.
  apply andb_true_iff in H. destruct H as [H _]. apply negb_true_iff in H.
  rewrite H. reflexivity.
Qed.

Lemma string_of_uint_not_empty (u : uint) :
  u <> Nil -> NilEmpty.string_of_uint u <> EmptyString.
Proof. destruct u; simpl; congruence. Qed.

(** A line that begins with a word, a number and a word, separated by
    white space, is read as these three, whatever follows the third. *)
Lemma sscanf_three_words (ws0 name ws1 ws2 sha rest : string) (u : uint) :
  all_chars isspace ws0 = true ->
  is_word 4096 name = true ->
  ws1 <> EmptyString -> all_chars isspace ws1 = true ->
  u <> Nil ->
  ws2 <> EmptyString -> all_chars isspace ws2 = true ->
  is_word 64 sha = true ->
  word_end rest = true ->
  sscanf_FILE_READ_FORMAT
    (ws0 +++ name +++ ws1 +++ NilEmpty.string_of_uint u +++ ws2 +++ sha +++ rest)
  = Some (name, strtoul false u, sha).
Proof.
  intros H0 Hname N1 H1 Hu N2 H2 Hsha Hrest.
  apply is_word_spec in Hname. destruct Hname as (Nn & Wn & Ln).
  apply is_word_spec in Hsha. destruct Hsha as (Ns & Ws & Ls).
  unfold sscanf_FILE_READ_FORMAT.
  rewrite (cstr_app ws0), (cstr_app name), (cstr_app ws1), (cstr_app _ _ (digits_no_nul u)),
    (cstr_app ws2), (cstr_app sha);
    auto using space_no_nul, word_no_nul.
  set (r3 := cstr rest).
  assert (E3 : space_end r3 = true) by (apply word_end_cstr; exact Hrest).
  set (r2 := ws2 +++ sha +++ r3).
  assert (E2 : space_end r2 = true) by (apply space_end_app; assumption).
  set (r1 := ws1 +++ NilEmpty.string_of_uint u +++ r2).
  assert (E1 : space_end r1 = true) by (apply space_end_app; assumption).
  rewrite (conv_s_word 4096 ws0 name r1); auto using word_no_space.
  unfold r1. rewrite (skip_space_app _ _ H1).
  rewrite (skip_space_word _ r2 (string_of_uint_not_empty u Hu) (digits_no_space u)).
  change (NilEmpty.string_of_uint u +++ r2)
    with (EmptyString +++ NilEmpty.string_of_uint u +++ r2).
  rewrite (conv_lu_exact EmptyString r2 u); auto using space_end_not_digit.
  unfold r2. rewrite (skip_space_app _ _ H2).
  rewrite (skip_space_word sha r3); auto using word_no_space.
  change (sha +++ r3) with (EmptyString +++ sha +++ r3).
  rewrite (conv_s_word 64 EmptyString sha r3); auto using word_no_space.
Qed.

(** The line written for a record is read back as the record. *)
Lemma sscanf_written_line (name sha rest : string) (sz : N) :
  is_word 4096 name = true ->
  (sz <= ULONG_MAX)%N ->
  is_word 64 sha = true ->
  word_end rest = true ->
  sscanf_FILE_READ_FORMAT (name +++ " " +++ fmt_lu sz +++ " " +++ sha +++ rest)
  = Some (name, sz, sha).
Proof.
  intros Hn Hsz Hs Hr.
  pose proof (sscanf_three_words EmptyString name " " " " sha rest (N.to_uint sz)) as H.
  rewrite (strtoul_to_uint sz Hsz) in H. apply H; auto using to_uint_not_nil; discriminate.
Qed.

(** *** Rendering a record and reading it back *)

Lemma line_of_encoded (separator tag : ascii) (k sha : string) (sz : N) :
  line_of (k, Some (DATA_FORMAT separator tag sz sha)) = FILE_WRITE_FORMAT k sz sha.
Proof.
  unfold line_of, DATA_FORMAT, FILE_WRITE_FORMAT. simpl.
  rewrite !append_assoc. reflexivity.
Qed.

Lemma snprintf_item_line (k : string) (a b : ascii) (s : string) :
  fits (k, Some (String a (String b s))) = true ->
  snprintf_item (k, Some (String a (String b s)))
  = Done (line_of (k, Some (String a (String b s)))).
Proof.
  unfold fits, snprintf_item, line_of. simpl. intros H. rewrite H. reflexivity.
Qed.

Lemma length_FILE_WRITE_FORMAT (k sha : string) (sz : N) :
  String.length (FILE_WRITE_FORMAT k sz sha)
  = String.length k + String.length (fmt_lu sz) + String.length sha + 3.
Proof.
  unfold FILE_WRITE_FORMAT. rewrite !length_append. simpl. lia.
Qed.

(** C2.  A record whose path and hash are words of the text format (at
    most 4096 and 64 bytes), whose size is an [unsigned long] and whose
    line fits the buffer of [write_out_list]: the line written for its
    internal encoding is "<path> <size> <hash>\n", without the two leading
    characters of the encoding whatever they are, and [sscanf] reads the
    path, the size and the hash back from that line. *)
Theorem render_parse_round_trip
    (separator tag : ascii) (path sha : string) (sz : N) :
  is_word 4096 path = true ->
  (sz <= ULONG_MAX)%N ->
  is_word 64 sha = true ->
  String.length path + String.length (fmt_lu sz) + String.length sha + 3 <= BUFFER_SIZE ->
  snprintf_item (path, Some (DATA_FORMAT separator tag sz sha))
  = Done (path +++ " " +++ fmt_lu sz +++ " " +++ sha +++ nl)
  /\ sscanf_FILE_READ_FORMAT (path +++ " " +++ fmt_lu sz +++ " " +++ sha +++ nl)
     = Some (path, sz, sha).
Proof.
  intros Hp Hsz Hs Hfit. split.
  - unfold DATA_FORMAT. rewrite snprintf_item_line.
    + fold (DATA_FORMAT separator tag sz sha). rewrite line_of_encoded. reflexivity.
    + fold (DATA_FORMAT separator tag sz sha). unfold fits.
      rewrite line_of_encoded, length_FILE_WRITE_FORMAT. apply Nat.leb_le. exact Hfit.
  - apply sscanf_written_line; auto.
Qed.

(** *** Reading a file buffer by buffer *)

Lemma fgets_lengths (cap : nat) (s : string) :
  String.length (fst (fgets cap s)) + String.length (snd (fgets cap s)) = String.length s.
Proof.
  revert s. induction cap as [|cap IH]; intros s; [reflexivity|].
  destruct s as [|c s]; [reflexivity|]. simpl.
  destruct (Ascii.eqb c LF); [reflexivity|].
  specialize (IH s). destruct (fgets cap s) as [l r]. simpl in *. lia.
Qed.

Lemma fgets_rest_shorter (cap : nat) (c : ascii) (s : string) :
  1 <= cap -> String.length (snd (fgets cap (String c s))) <= String.length s.
Proof.
  intros Hcap. pose proof (fgets_lengths cap (String c s)) as H.
  destruct cap as [|cap]; [lia|]. simpl in *.
  destruct (Ascii.eqb c LF); simpl in *; [lia|].
  destruct (fgets cap s) as [l r]. simpl in *. lia.
Qed.

Lemma fgets_rounds_enough (cap : nat) :
  1 <= cap ->
  forall fuel1 fuel2 s,
    String.length s <= fuel1 -> String.length s <= fuel2 ->
    fgets_rounds fuel1 cap s = fgets_rounds fuel2 cap s.
Proof.
  intros Hcap. induction fuel1 as [|f1 IH]; intros fuel2 s H1 H2.
  - destruct s; [|simpl in H1; lia]. destruct fuel2; reflexivity.
  - destruct s as [|c s]; [destruct fuel2; reflexivity|].
    destruct fuel2 as [|f2]; [simpl in H2; lia|].
    simpl fgets_rounds.
    pose proof (fgets_rest_shorter cap c s Hcap) as Hr.
    destruct (fgets cap (String c s)) as [l r]. simpl in Hr, H1, H2.
    f_equal. apply IH; lia.
Qed.

Lemma fgets_all_step (cap : nat) (c : ascii) (s : string) :
  1 <= cap ->
  fgets_all cap (String c s)
  = fst (fgets cap (String c s)) :: fgets_all cap (snd (fgets cap (String c s))).
Proof.
  intros Hcap. unfold fgets_all. simpl fgets_rounds.
  pose proof (fgets_rest_shorter cap c s Hcap) as Hr.
  destruct (fgets cap (String c s)) as [l r]. simpl in *.
  f_equal. apply fgets_rounds_enough; [exact Hcap | exact Hr | lia].
Qed.

Lemma fgets_line (cap : nat) (body rest : string) :
  no_newline body = true ->
  String.length body < cap ->
  fgets cap (body +++ String LF rest) = (body +++ nl, rest).
Proof.
  revert cap. induction body as [|c body IH]; intros cap Hb Hlen.
  - destruct cap; [lia|]. reflexivity.
  - simpl in Hb, Hlen. apply andb_true_iff in Hb. destruct Hb as [E1 E2].
    apply negb_true_iff in E1.
    destruct cap as [|cap]; [lia|]. simpl. rewrite E1.
    rewrite (IH cap E2); [reflexivity | lia].
Qed.

Lemma fgets_full (cap : nat) (body rest : string) :
  no_newline body = true ->
  String.length body = cap ->
  fgets cap (body +++ rest) = (body, rest).
Proof.
  revert cap. induction body as [|c body IH]; intros cap Hb Hlen.
  - simpl in Hlen. subst cap. reflexivity.
  - simpl in Hb, Hlen. apply andb_true_iff in Hb. destruct Hb as [E1 E2].
    apply negb_true_iff in E1.
    destruct cap as [|cap]; [lia|]. simpl. rewrite E1.
    rewrite (IH cap E2); [reflexivity | lia].
Qed.

(** The buffers of a text that begins with a line: the line when it fits,
    else the line in two pieces, its newline alone in the second. *)
Lemma fgets_all_line (cap : nat) (body rest : string) :
  1 <= cap ->
  no_newline body = true ->
  String.length body < cap ->
  fgets_all cap ((body +++ nl) +++ rest) = (body +++ nl) :: fgets_all cap rest.
Proof.
  intros Hcap Hb Hlen. rewrite append_assoc.
  change (nl +++ rest) with (String LF rest).
  pose proof (fgets_line cap body rest Hb Hlen) as H.
  destruct body as [|c body]; simpl append in *;
    rewrite fgets_all_step, H by exact Hcap; reflexivity.
Qed.

Lemma fgets_all_long_line (cap : nat) (body rest : string) :
  1 <= cap ->
  no_newline body = true ->
  String.length body = cap ->
  fgets_all cap ((body +++ nl) +++ rest) = body :: nl :: fgets_all cap rest.
Proof.
  intros Hcap Hb Hlen. rewrite append_assoc.
  pose proof (fgets_full cap body (nl +++ rest) Hb Hlen) as H.
  destruct body as [|c body]; [simpl in Hlen; lia|]. simpl append in *.
  rewrite fgets_all_step, H by exact Hcap. simpl fst. simpl snd.
  f_equal.
  exact (fgets_all_line cap EmptyString rest Hcap eq_refl ltac:(simpl; lia)).
Qed.

Lemma read_cap_pos : 1 <= BUFFER_SIZE - 1.
Proof. apply Nat.leb_le. reflexivity. Qed.

Lemma fgets_all_lines (cap : nat) (lines : list string) (rest : string) :
  1 <= cap ->
  Forall (fun l => exists body,
            l = body +++ nl /\ no_newline body = true /\ String.length l <= cap) lines ->
  fgets_all cap (text_of lines +++ rest) = lines ++ fgets_all cap rest.
Proof.
  intros Hcap H. induction H as [|l lines (body & -> & Hb & Hl) _ IH]; [reflexivity|].
  simpl text_of. rewrite append_assoc.
  rewrite fgets_all_line; [rewrite IH; reflexivity | exact Hcap | exact Hb |].
  rewrite length_append in Hl. simpl in Hl. lia.
Qed.

Lemma fgets_all_empty (cap : nat) : fgets_all cap EmptyString = [].
Proof. reflexivity. Qed.

(** *** A malformed line ends the load *)

Section Malformed.
Variable separator : ascii.
Variable SRC_FILE_DB : ascii.

Local Abbreviation load_buffers := (load_buffers separator SRC_FILE_DB).
Local Abbreviation trust_file_load := (trust_file_load separator SRC_FILE_DB).

Lemma load_buffers_malformed (fpath : string) (good : list string) (bad : string)
    (more : list string) (l : list_t) :
  well_formed good = true ->
  is_comment bad = false ->
  sscanf_FILE_READ_FORMAT bad = None ->
  load_buffers fpath (good ++ bad :: more) l
  = (2%Z, snd (fst (load_buffers fpath good l)),
     snd (load_buffers fpath good l) ++ msg LOG_WARNING "Can't parse %s" [cstr bad]).
Proof.
  intros Hgood Hc Hbad. revert l.
  induction good as [|b good IH]; intros l; simpl.
  - rewrite Hc, Hbad. reflexivity.
  - simpl in Hgood. apply andb_true_iff in Hgood. destruct Hgood as [Hb Hgood].
    specialize (IH Hgood).
    destruct (is_comment b); [apply IH|].
    destruct (sscanf_FILE_READ_FORMAT b) as [[[name sz] sha]|]; [|discriminate].
    unfold list_append. destruct (list_contains l name).
    + rewrite IH. destruct (load_buffers fpath good l) as [[rc l'] lg]. reflexivity.
    + apply IH.
Qed.

Lemma load_buffers_well_formed (fpath : string) (good : list string) (l : list_t) :
  well_formed good = true ->
  load_buffers fpath good l
  = (0%Z, snd (fst (load_buffers fpath good l)), snd (load_buffers fpath good l)).
Proof.
  intros H. pose proof (load_buffers_code separator SRC_FILE_DB fpath good l) as Hc.
  rewrite H in Hc. destruct (load_buffers fpath good l) as [[rc l'] lg].
  simpl in *. subst rc. reflexivity.
Qed.

End Malformed.

Lemma open_read_store (fs : filesystem) (fpath content : string) (f : file) :
  open_read fs fpath = Some f ->
  open_read (store fs fpath content) fpath = Some (set_data f content).
Proof.
  unfold open_read, store. rewrite String.eqb_refl.
  destruct (fs fpath) as [g|]; simpl; [|discriminate].
  destruct (f_readable g); [|discriminate]. intros E. injection E as ->. reflexivity.
Qed.

(** C4.  A file made of well-formed lines (comments or records, each
    returned whole by [fgets]), then a line that is no comment and that
    [sscanf] does not read as three values, then anything: the load
    returns the error code 2, its last message is the parse warning, and
    the store is the one the load of the file cut before the malformed
    line produces (with code 0), which is the given store with the
    records of the well-formed lines merged in. *)
Theorem load_stops_at_malformed_line
    (separator SRC_FILE_DB : ascii) (fs : filesystem) (fpath : string) (f : file)
    (good : list string) (bad rest : string) (l : list_t) :
  open_read fs fpath = Some f ->
  f_data f = text_of good +++ bad +++ rest ->
  Forall full_line good ->
  well_formed good = true ->
  full_line bad ->
  is_comment bad = false ->
  sscanf_FILE_READ_FORMAT bad = None ->
  exists st lg,
    trust_file_load separator SRC_FILE_DB fs fpath l
    = (2%Z, st, lg ++ msg LOG_WARNING "Can't parse %s" [cstr bad])
    /\ trust_file_load separator SRC_FILE_DB (store fs fpath (text_of good)) fpath l
       = (0%Z, st, lg)
    /\ st = merge_in l (map (item_of separator SRC_FILE_DB) (parsed good)).
Proof.
  intros Hopen Hdata Hgood Hwf Hbad Hc Hparse.
  assert (Hcap : 1 <= BUFFER_SIZE - 1) by exact read_cap_pos.
  exists (snd (fst (load_buffers separator SRC_FILE_DB fpath good l))),
         (snd (load_buffers separator SRC_FILE_DB fpath good l)).
  split; [|split].
  - unfold trust_file_load. rewrite Hopen, Hdata.
    rewrite (fgets_all_lines _ good _ Hcap Hgood).
    destruct Hbad as (body & -> & Hb & Hl).
    rewrite fgets_all_line; [| exact Hcap | exact Hb |].
    + apply load_buffers_malformed; assumption.
    + rewrite length_append in Hl. change (String.length nl) with 1 in Hl. lia.
  - unfold trust_file_load. rewrite (open_read_store fs fpath _ f Hopen). simpl f_data.
    rewrite <- (append_nil_r (text_of good)).
    rewrite (fgets_all_lines _ good _ Hcap Hgood), fgets_all_empty, app_nil_r.
    apply load_buffers_well_formed. exact Hwf.
  - apply load_buffers_store.
Qed.

(** *** Which lines are accepted *)

Lemma skip_space_all (ws : string) : all_chars isspace ws = true -> skip_space ws = EmptyString.
Proof.
  intros H. rewrite <- (append_nil_r ws). rewrite (skip_space_app _ _ H). reflexivity.
Qed.

Lemma skip_space_idem (s : string) : skip_space (skip_space s) = skip_space s.
Proof.
  induction s as [|c s IH]; simpl; [reflexivity|].
  destruct (isspace c) eqn:E; [exact IH|]. simpl. rewrite E. reflexivity.
Qed.

Lemma scan_digits_none (s : string) : digit_start s = false -> fst (scan_digits s) = Nil.
Proof.
  destruct s as [|c s]; simpl; [reflexivity|].
  destruct (digit_of c); [discriminate | reflexivity].
Qed.

Lemma conv_lu_none (s : string) : number_start (skip_space s) = false -> conv_lu s = None.
Proof.
  unfold number_start, conv_lu. intros H.
  destruct (scan_sign (skip_space s)) as [neg s1]. simpl in H.
  pose proof (scan_digits_none s1 H) as E.
  destruct (scan_digits s1) as [u r]. simpl in E. subst u. reflexivity.
Qed.

Lemma sscanf_no_word (ws : string) :
  all_chars isspace ws = true -> sscanf_FILE_READ_FORMAT ws = None.
Proof.
  intros H. unfold sscanf_FILE_READ_FORMAT, conv_s.
  rewrite (cstr_no_nul ws (space_no_nul ws H)), (skip_space_all ws H). reflexivity.
Qed.

Lemma sscanf_no_number (ws0 name ws1 tail : string) :
  all_chars isspace ws0 = true ->
  is_word 4096 name = true ->
  ws1 <> EmptyString -> all_chars isspace ws1 = true ->
  number_start (skip_space (cstr tail)) = false ->
  sscanf_FILE_READ_FORMAT (ws0 +++ name +++ ws1 +++ tail) = None.
Proof.
  intros H0 Hname N1 H1 Htail.
  apply is_word_spec in Hname. destruct Hname as (Nn & Wn & Ln).
  unfold sscanf_FILE_READ_FORMAT.
  rewrite (cstr_app ws0), (cstr_app name), (cstr_app ws1);
    auto using space_no_nul, word_no_nul.
  rewrite (conv_s_word 4096 ws0 name (ws1 +++ cstr tail));
    auto using word_no_space, space_end_app.
  rewrite (skip_space_app _ _ H1), conv_lu_none; [reflexivity|].
  rewrite skip_space_idem. exact Htail.
Qed.

Lemma sscanf_no_third_word (ws0 name ws1 ws : string) (u : uint) :
  all_chars isspace ws0 = true ->
  is_word 4096 name = true ->
  ws1 <> EmptyString -> all_chars isspace ws1 = true ->
  u <> Nil ->
  all_chars isspace ws = true ->
  sscanf_FILE_READ_FORMAT (ws0 +++ name +++ ws1 +++ NilEmpty.string_of_uint u +++ ws) = None.
Proof.
  intros H0 Hname N1 H1 Hu Hws.
  apply is_word_spec in Hname. destruct Hname as (Nn & Wn & Ln).
  unfold sscanf_FILE_READ_FORMAT.
  rewrite (cstr_app ws0), (cstr_app name), (cstr_app ws1), (cstr_app _ _ (digits_no_nul u)),
    (cstr_no_nul ws);
    auto using space_no_nul, word_no_nul.
  assert (E2 : space_end ws = true).
  { destruct ws as [|c ws]; [reflexivity|]. simpl in *. apply andb_true_iff in Hws. tauto. }
  set (r1 := ws1 +++ NilEmpty.string_of_uint u +++ ws).
  assert (E1 : space_end r1 = true) by (apply space_end_app; assumption).
  rewrite (conv_s_word 4096 ws0 name r1); auto using word_no_space.
  unfold r1. rewrite (skip_space_app _ _ H1).
  rewrite (skip_space_word _ ws (string_of_uint_not_empty u Hu) (digits_no_space u)).
  change (NilEmpty.string_of_uint u +++ ws)
    with (EmptyString +++ NilEmpty.string_of_uint u +++ ws).
  rewrite (conv_lu_exact EmptyString ws u); auto using space_end_not_digit.
  unfold conv_s. rewrite skip_space_idem, (skip_space_all ws Hws). reflexivity.
Qed.

(** C6, as the code has it.  A line that begins, after white space if
    any, with a path of at most 4096 bytes followed by white space: it is
    accepted when a decimal number, white space and a word of at most 64
    bytes come next, and what follows that word (nothing, or white space and
    anything) is ignored; it is rejected when no number comes next, and
    when only white space follows the number.  A line of white space only
    is rejected. *)
Theorem first_three_words_decide
    (ws0 name ws1 : string) :
  all_chars isspace ws0 = true ->
  is_word 4096 name = true ->
  ws1 <> EmptyString -> all_chars isspace ws1 = true ->
  (forall (u : uint) (ws2 sha rest : string),
      u <> Nil ->
      ws2 <> EmptyString -> all_chars isspace ws2 = true ->
      is_word 64 sha = true ->
      word_end rest = true ->
      sscanf_FILE_READ_FORMAT
        (ws0 +++ name +++ ws1 +++ NilEmpty.string_of_uint u +++ ws2 +++ sha +++ rest)
      = Some (name, strtoul false u, sha))
  /\ (forall tail : string,
        number_start (skip_space (cstr tail)) = false ->
        sscanf_FILE_READ_FORMAT (ws0 +++ name +++ ws1 +++ tail) = None)
  /\ (forall (u : uint) (ws : string),
        u <> Nil -> all_chars isspace ws = true ->
        sscanf_FILE_READ_FORMAT (ws0 +++ name +++ ws1 +++ NilEmpty.string_of_uint u +++ ws)
        = None)
  /\ sscanf_FILE_READ_FORMAT ws0 = None.
Proof.
  intros H0 Hname N1 H1. repeat split.
  - intros. apply sscanf_three_words; assumption.
  - intros. apply sscanf_no_number; assumption.
  - intros. apply sscanf_no_third_word; assumption.
  - apply sscanf_no_word; assumption.
Qed.

(** C6, the claim as it stands fails: a record line with a fourth word
    is no comment, does not consist of three words, and is read as a
    record all the same, by [sscanf] and by the load of a file that holds
    it. *)
Lemma trailing_word_is_accepted :
  is_comment ("/bin/ls 157984 61a9 extra" +++ nl) = false
  /\ words ("/bin/ls 157984 61a9 extra" +++ nl) = ["/bin/ls"; "157984"; "61a9"; "extra"]
  /\ sscanf_FILE_READ_FORMAT ("/bin/ls 157984 61a9 extra" +++ nl)
     = Some ("/bin/ls", 157984%N, "61a9")
  /\ trust_file_load " " "2"
       (fun p => if String.eqb p "/t"
                 then Some (mk_file ("/bin/ls 157984 61a9 extra" +++ nl) true true true)
                 else None)
       "/t" []
     = (0%Z, [("/bin/ls", Some "2 157984 61a9")], []).
Proof. vm_compute. repeat split. Qed.

(** *** What [sscanf] returns *)

Lemma cstr_clean (s : string) :
  all_chars (fun c => negb (Ascii.eqb c NUL)) (cstr s) = true.
Proof.
  induction s as [|c s IH]; simpl; [reflexivity|].
  destruct (Ascii.eqb c NUL) eqn:E; simpl; [reflexivity|].
  rewrite E, IH. reflexivity.
Qed.

Lemma skip_space_clean (f : ascii -> bool) (s : string) :
  all_chars f s = true -> all_chars f (skip_space s) = true.
Proof.
  induction s as [|c s IH]; simpl; [reflexivity|].
  intros H. destruct (isspace c); [|exact H].
  apply andb_true_iff in H. apply IH. tauto.
Qed.

Lemma skip_space_head (s s' : string) (c : ascii) :
  skip_space s = String c s' -> isspace c = false.
Proof.
  induction s as [|d s IH]; simpl; [discriminate|].
  destruct (isspace d) eqn:Ed; [exact IH|].
  intros H. injection H as H1 H2. subst d. exact Ed.
Qed.

Lemma scan_word_parts (w : nat) (s : string) :
  s = fst (scan_word w s) +++ snd (scan_word w s)
  /\ all_chars (fun c => negb (isspace c)) (fst (scan_word w s)) = true
  /\ String.length (fst (scan_word w s)) <= w.
Proof.
  revert s. induction w as [|w IH]; intros s.
  - destruct s; simpl; repeat split; lia.
  - destruct s as [|c s]; simpl; [repeat split; lia|].
    destruct (isspace c) eqn:E; simpl; [repeat split; lia|].
    specialize (IH s). destruct (scan_word w s) as [t r]. simpl in *.
    destruct IH as (E1 & E2 & E3). rewrite E, E2. simpl.
    repeat split; [congruence | lia].
Qed.

Lemma conv_s_parts (w : nat) (s t r : string) :
  1 <= w ->
  all_chars (fun c => negb (Ascii.eqb c NUL)) s = true ->
  conv_s w s = Some (t, r) ->
  is_word w t = true /\ all_chars (fun c => negb (Ascii.eqb c NUL)) r = true.
Proof.
  intros Hw Hs. unfold conv_s.
  pose proof (skip_space_clean _ s Hs) as Hclean.
  destruct (skip_space s) as [|c s'] eqn:E; [discriminate|].
  intros H. injection H as H.
  destruct (scan_word_parts w (String c s')) as (E1 & E2 & E3).
  rewrite H in E1, E2, E3. simpl in E1, E2, E3.
  rewrite E1, all_chars_app in Hclean. apply andb_true_iff in Hclean.
  destruct Hclean as [Ct Cr]. split; [|exact Cr].
  apply is_word_spec. repeat split.
  - intros ->. destruct w as [|w]; [lia|]. simpl in H.
    rewrite (skip_space_head _ _ _ E) in H. destruct (scan_word w s'). discriminate.
  - unfold word_char. clear - E2 Ct. induction t as [|d t IH]; simpl in *; [reflexivity|].
    apply andb_true_iff in E2, Ct. destruct E2 as [A1 A2], Ct as [B1 B2].
    rewrite A1, B1, (IH B2 A2). reflexivity.
  - exact E3.
Qed.

Lemma scan_digits_clean (f : ascii -> bool) (s : string) :
  all_chars f s = true -> all_chars f (snd (scan_digits s)) = true.
Proof.
  induction s as [|c s IH]; simpl; [reflexivity|].
  intros H. destruct (digit_of c); [|exact H].
  apply andb_true_iff in H. destruct H as [_ H]. specialize (IH H).
  destruct (scan_digits s). exact IH.
Qed.

Lemma scan_sign_clean (f : ascii -> bool) (s : string) :
  all_chars f s = true -> all_chars f (snd (scan_sign s)) = true.
Proof.
  destruct s as [|c s]; simpl; [reflexivity|].
  intros H. pose proof H as H'. apply andb_true_iff in H'.
  destruct (Ascii.eqb c "-"); [tauto|]. destruct (Ascii.eqb c "+"); [tauto | exact H].
Qed.

Lemma strtoul_range (neg : bool) (u : uint) : (strtoul neg u <= ULONG_MAX)%N.
Proof.
  unfold strtoul. destruct (N.ltb_spec ULONG_MAX (N.of_uint u)); [lia|].
  destruct neg; [|lia].
  assert (H0 : (ULONG_MAX + 1 <> 0)%N) by (unfold ULONG_MAX; lia).
  pose proof (N.mod_lt (ULONG_MAX + 1 - N.of_uint u) (ULONG_MAX + 1) H0). lia.
Qed.

Lemma conv_lu_parts (s r : string) (n : N) :
  all_chars (fun c => negb (Ascii.eqb c NUL)) s = true ->
  conv_lu s = Some (n, r) ->
  (n <= ULONG_MAX)%N /\ all_chars (fun c => negb (Ascii.eqb c NUL)) r = true.
Proof.
  intros Hs. unfold conv_lu.
  pose proof (scan_sign_clean _ _ (skip_space_clean _ s Hs)) as H1.
  destruct (scan_sign (skip_space s)) as [neg s1]. simpl in H1.
  pose proof (scan_digits_clean _ s1 H1) as H2.
  destruct (scan_digits s1) as [u r']. simpl in H2.
  destruct u; [discriminate | | | | | | | | | |];
    intros H; injection H as <- <-; (split; [apply strtoul_range | exact H2]).
Qed.

Lemma sscanf_record_ok (buffer : string) (t : string * N * string) :
  sscanf_FILE_READ_FORMAT buffer = Some t -> record_ok t.
Proof.
  unfold sscanf_FILE_READ_FORMAT. intros H.
  destruct (conv_s 4096 (cstr buffer)) as [[name s1]|] eqn:E1; [|discriminate].
  destruct (conv_s_parts 4096 _ _ _ ltac:(lia) (cstr_clean buffer) E1) as [Wn C1].
  destruct (conv_lu (skip_space s1)) as [[sz s2]|] eqn:E2; [|discriminate].
  destruct (conv_lu_parts _ _ _ (skip_space_clean _ _ C1) E2) as [Hsz C2].
  destruct (conv_s 64 (skip_space s2)) as [[sha s3]|] eqn:E3; [|discriminate].
  destruct (conv_s_parts 64 _ _ _ ltac:(lia) (skip_space_clean _ _ C2) E3) as [Ws _].
  injection H as <-. simpl. auto.
Qed.

Lemma parsed_record_ok (bufs : list string) : Forall record_ok (parsed bufs).
Proof.
  induction bufs as [|b bufs IH]; simpl; [constructor|].
  destruct (is_comment b); [exact IH|].
  destruct (sscanf_FILE_READ_FORMAT b) as [t|] eqn:E; constructor; [|exact IH].
  apply (sscanf_record_ok b). exact E.
Qed.

(** Every item a load puts into an empty list is the encoding of a record
    of the text format. *)
Lemma loaded_item_ok (separator SRC_FILE_DB : ascii) (fs : filesystem) (fpath : string)
    (it : list_item_t) :
  In it (snd (fst (trust_file_load separator SRC_FILE_DB fs fpath []))) ->
  exists t, record_ok t /\ it = item_of separator SRC_FILE_DB t.
Proof.
  rewrite trust_file_load_store. intros H.
  apply merge_in_In in H. destruct H as [[]|H].
  unfold file_records in H. apply in_map_iff in H. destruct H as (t & <- & Ht).
  exists t. split; [|reflexivity].
  pose proof (parsed_record_ok (file_buffers fs fpath)) as Hall.
  rewrite Forall_forall in Hall. apply Hall, Ht.
Qed.

(** *** The loops over the list *)

Lemma delete_items_spec (p : string) (l : list_t) :
  delete_items p l = (Z.of_nat (List.length (matching p l)), surviving p l).
Proof.
  unfold matching, surviving. induction l as [|it l IH]; simpl; [reflexivity|].
  rewrite IH, strncmp_prefix. destruct (starts_with p (fst it)); [|reflexivity].
  cbn [negb List.length]. rewrite Nat2Z.inj_succ. reflexivity.
Qed.

Lemma update_items_spec (separator : ascii) (get_hash_from_fd : string -> string)
    (fs : filesystem) (p : string) (l : list_t) :
  update_items separator get_hash_from_fd fs p l
  = (Z.of_nat (List.length (matching p l)),
     updated separator get_hash_from_fd fs p l,
     update_log separator get_hash_from_fd fs p l).
Proof.
  unfold matching, updated, update_log. induction l as [|it l IH]; simpl; [reflexivity|].
  rewrite IH, strncmp_prefix. destruct (starts_with p (fst it)); [|reflexivity].
  unfold rederived.
  destruct (make_path_string separator get_hash_from_fd fs (fst it) 0) as [[data c] lg].
  cbn [fst snd List.length]. rewrite Nat2Z.inj_succ. reflexivity.
Qed.

Lemma matching_empty_prefix (l : list_t) : matching EmptyString l = l.
Proof.
  unfold matching. induction l as [|it l IH]; simpl; [reflexivity|].
  rewrite starts_with_empty, IH. reflexivity.
Qed.

Lemma surviving_empty_prefix (l : list_t) : surviving EmptyString l = [].
Proof.
  unfold surviving. induction l as [|it l IH]; simpl; [reflexivity|].
  rewrite starts_with_empty. exact IH.
Qed.

Lemma updated_empty_prefix (separator : ascii) (get_hash_from_fd : string -> string)
    (fs : filesystem) (l : list_t) :
  updated separator get_hash_from_fd fs EmptyString l
  = map (rederived separator get_hash_from_fd fs) l.
Proof.
  unfold updated. apply map_ext. intros it. rewrite starts_with_empty. reflexivity.
Qed.

Lemma count_zero (l : list_t) : (Z.of_nat (List.length l) =? 0)%Z = true <-> l = [].
Proof.
  destruct l as [|x l]; [split; reflexivity|]. split; [|discriminate]. intros H.
  apply Z.eqb_eq in H. cbn [List.length] in H. lia.
Qed.

Lemma trust_file_delete_path_unfold (separator SRC_FILE_DB : ascii) (fs : filesystem)
    (fpath p : string) :
  trust_file_delete_path separator SRC_FILE_DB fs fpath p
  = let loaded := snd (fst (trust_file_load separator SRC_FILE_DB fs fpath [])) in
    let lg := snd (trust_file_load separator SRC_FILE_DB fs fpath []) in
    let count := Z.of_nat (List.length (matching p loaded)) in
    match matching p loaded with
    | [] => Done (count, fs, lg)
    | _ =>
        w <- write_out_list fs (surviving p loaded) fpath ;;
        Done (count, snd (fst w), lg ++ snd w)
    end.
Proof.
  unfold trust_file_delete_path.
  destruct (trust_file_load separator SRC_FILE_DB fs fpath []) as [[rc loaded] lg].
  simpl. rewrite delete_items_spec.
  destruct (matching p loaded) as [|m ms] eqn:E; [reflexivity|].
  destruct (Z.of_nat (List.length (m :: ms)) =? 0)%Z eqn:Ez.
  - apply count_zero in Ez. discriminate.
  - destruct (write_out_list fs (surviving p loaded) fpath) as [[[[rc' l'] fs'] lg']|];
      reflexivity.
Qed.

Lemma trust_file_update_path_unfold (separator SRC_FILE_DB : ascii)
    (get_hash_from_fd : string -> string) (fs : filesystem) (fpath p : string) :
  trust_file_update_path separator SRC_FILE_DB get_hash_from_fd fs fpath p
  = let loaded := snd (fst (trust_file_load separator SRC_FILE_DB fs fpath [])) in
    let lg := snd (trust_file_load separator SRC_FILE_DB fs fpath [])
              ++ update_log separator get_hash_from_fd fs p loaded in
    let count := Z.of_nat (List.length (matching p loaded)) in
    match matching p loaded with
    | [] => Done (count, fs, lg)
    | _ =>
        w <- write_out_list fs (updated separator get_hash_from_fd fs p loaded) fpath ;;
        Done (count, snd (fst w), lg ++ snd w)
    end.
Proof.
  unfold trust_file_update_path.
  destruct (trust_file_load separator SRC_FILE_DB fs fpath []) as [[rc loaded] lg].
  simpl. rewrite update_items_spec.
  destruct (matching p loaded) as [|m ms] eqn:E; [reflexivity|].
  destruct (Z.of_nat (List.length (m :: ms)) =? 0)%Z eqn:Ez.
  - apply count_zero in Ez. discriminate.
  - destruct (write_out_list fs (updated separator get_hash_from_fd fs p loaded) fpath)
      as [[[[rc' l'] fs'] lg']|]; simpl; [|reflexivity].
    rewrite <- app_assoc. reflexivity.
Qed.

(** *** Deleting and updating by prefix *)

Lemma write_out_list_unwritable (fs : filesystem) (l : list_t) (dest : string) :
  open_write fs dest = false ->
  write_out_list fs l dest = Done (1%Z, [], fs, msg LOG_ERR "Cannot delete %s" [dest]).
Proof. unfold write_out_list. intros ->. reflexivity. Qed.

(** C10.  When the file cannot be opened for writing and records match
    the prefix, [write_out_list] logs the failure, empties the list and
    returns 1, the file system stays as it was, and
    [trust_file_delete_path] still returns the number of matching
    records, which is not zero. *)
Theorem delete_count_hides_write_failure
    (separator SRC_FILE_DB : ascii) (fs : filesystem) (fpath p : string) :
  let loaded := snd (fst (trust_file_load separator SRC_FILE_DB fs fpath [])) in
  let lg := snd (trust_file_load separator SRC_FILE_DB fs fpath []) in
  open_write fs fpath = false ->
  matching p loaded <> [] ->
  write_out_list fs (surviving p loaded) fpath
  = Done (1%Z, [], fs, msg LOG_ERR "Cannot delete %s" [fpath])
  /\ trust_file_delete_path separator SRC_FILE_DB fs fpath p
     = Done (Z.of_nat (List.length (matching p loaded)), fs,
             lg ++ msg LOG_ERR "Cannot delete %s" [fpath])
  /\ (0 < Z.of_nat (List.length (matching p loaded)))%Z.
Proof.
  intros loaded lg Hw Hm. split; [apply write_out_list_unwritable; exact Hw|]. split.
  - rewrite trust_file_delete_path_unfold. fold loaded. fold lg. cbv zeta.
    destruct (matching p loaded) as [|m ms] eqn:E; [congruence|].
    rewrite (write_out_list_unwritable _ _ _ Hw). reflexivity.
  - destruct (matching p loaded); [congruence|]. cbn [List.length]. lia.
Qed.

(** C9.  The empty prefix: the comparison over zero bytes is 0 for every
    key; the delete loop unlinks every item and counts them all, and
    [trust_file_delete_path] returns that count, the rewritten file being
    the header alone; the update loop derives every item again and counts
    them all, and [trust_file_update_path] writes the list so obtained.
    No case of the two functions treats the empty prefix apart. *)
Theorem empty_prefix_matches_every_record
    (separator SRC_FILE_DB : ascii) (get_hash_from_fd : string -> string)
    (fs : filesystem) (fpath : string) :
  let loaded := snd (fst (trust_file_load separator SRC_FILE_DB fs fpath [])) in
  let lg := snd (trust_file_load separator SRC_FILE_DB fs fpath []) in
  let count := Z.of_nat (List.length loaded) in
  let again := map (rederived separator get_hash_from_fd fs) loaded in
  let lg' := lg ++ update_log separator get_hash_from_fd fs EmptyString loaded in
  (forall k, strncmp k EmptyString (strlen EmptyString) = 0%Z)
  /\ delete_items EmptyString loaded = (count, [])
  /\ trust_file_delete_path separator SRC_FILE_DB fs fpath EmptyString
     = match loaded with
       | [] => Done (0%Z, fs, lg)
       | _ => if open_write fs fpath then Done (count, store fs fpath HEADER, lg)
              else Done (count, fs, lg ++ msg LOG_ERR "Cannot delete %s" [fpath])
       end
  /\ update_items separator get_hash_from_fd fs EmptyString loaded
     = (count, again, update_log separator get_hash_from_fd fs EmptyString loaded)
  /\ trust_file_update_path separator SRC_FILE_DB get_hash_from_fd fs fpath EmptyString
     = match loaded with
       | [] => Done (0%Z, fs, lg')
       | _ => w <- write_out_list fs again fpath ;;
              Done (count, snd (fst w), lg' ++ snd w)
       end.
Proof.
  intros loaded lg count again lg'.
  split; [reflexivity|].
  split; [rewrite delete_items_spec, matching_empty_prefix, surviving_empty_prefix;
          reflexivity|].
  split; [|split].
  - rewrite trust_file_delete_path_unfold. fold loaded. fold lg. cbv zeta.
    rewrite matching_empty_prefix, surviving_empty_prefix.
    destruct loaded as [|x xs]; [reflexivity|].
    unfold write_out_list. destruct (open_write fs fpath); [|reflexivity].
    cbn [write_items bind fst snd]. rewrite append_nil_r, app_nil_r. reflexivity.
  - rewrite update_items_spec, matching_empty_prefix, updated_empty_prefix. reflexivity.
  - rewrite trust_file_update_path_unfold. fold loaded. fold lg. cbv zeta.
    rewrite matching_empty_prefix, updated_empty_prefix. fold lg'. fold again.
    destruct loaded as [|x xs]; reflexivity.
Qed.

(** C5, the behaviour of the code where the claim fails.  A file with a
    record for /gone, which is not on the file system, and a record for
    /keep, which is: the update of prefix / logs the failed open, goes on
    to the next record and counts both, but the value stored for /gone is
    replaced by the null pointer that [make_path_string] returned, and
    writing the list out dereferences it, which is undefined. *)
Theorem update_replaces_value_of_missing_path :
  update_items " " (fun _ => "cd")
    (fun p => if String.eqb p "/keep" then Some (mk_file "xy" true true true) else None)
    "/" [("/gone", Some "2 1 ab"); ("/keep", Some "2 1 ab")]
  = (2%Z, [("/gone", None); ("/keep", Some "0 2 cd")],
     msg LOG_ERR "Cannot open %s" ["/gone"])
  /\ trust_file_update_path " " "2" (fun _ => "cd")
       (fun p => if String.eqb p "/t"
                 then Some (mk_file (("/gone 1 ab" +++ nl) +++ "/keep 1 ab" +++ nl)
                              true true true)
                 else if String.eqb p "/keep" then Some (mk_file "xy" true true true)
                 else None)
       "/t" "/"
     = Undefined.
Proof. vm_compute. split; reflexivity. Qed.

(** *** Reading back a file that [write_out_list] wrote *)

Lemma line_of_item_of (separator tag : ascii) (t : string * N * string) :
  line_of (item_of separator tag t) = line_body t +++ nl.
Proof.
  destruct t as [[name sz] sha]. unfold item_of. rewrite line_of_encoded.
  unfold FILE_WRITE_FORMAT, line_body. rewrite !append_assoc. reflexivity.
Qed.

Lemma space_is_not_newline_free (c : ascii) :
  negb (isspace c) = true -> negb (Ascii.eqb c LF) = true.
Proof. destruct c as [[] [] [] [] [] [] [] []]; vm_compute; intros; congruence. Qed.

Lemma digits_no_newline (u : uint) : no_newline (NilEmpty.string_of_uint u) = true.
Proof. unfold no_newline. induction u; simpl; auto. Qed.

Lemma line_body_no_newline (t : string * N * string) :
  record_ok t -> no_newline (line_body t) = true.
Proof.
  destruct t as [[name sz] sha]. intros (Hn & _ & Hs).
  apply is_word_spec in Hn, Hs. destruct Hn as (_ & Wn & _), Hs as (_ & Ws & _).
  unfold no_newline, line_body. rewrite !all_chars_app.
  rewrite (all_chars_impl _ _ name space_is_not_newline_free (word_no_space _ Wn)).
  rewrite (all_chars_impl _ _ sha space_is_not_newline_free (word_no_space _ Ws)).
  pose proof (digits_no_newline (N.to_uint sz)) as Hd. unfold no_newline in Hd.
  unfold fmt_lu. rewrite Hd. reflexivity.
Qed.

Lemma sscanf_line_body (t : string * N * string) (rest : string) :
  record_ok t -> word_end rest = true ->
  sscanf_FILE_READ_FORMAT (line_body t +++ rest) = Some t.
Proof.
  destruct t as [[name sz] sha]. intros (Hn & Hsz & Hs) Hr.
  unfold line_body. rewrite !append_assoc.
  apply sscanf_written_line; assumption.
Qed.

Lemma brings_only_parsed (K : string -> Prop) (bufs : list string) :
  Forall (brings_only K) bufs -> Forall (fun t => K (fst (fst t))) (parsed bufs).
Proof.
  induction 1 as [|b bufs Hb _ IH]; simpl; [constructor|].
  destruct Hb as [Hc|Hk].
  - rewrite Hc. exact IH.
  - destruct (is_comment b); [exact IH|].
    destruct (sscanf_FILE_READ_FORMAT b) as [t|]; constructor; auto.
Qed.

Lemma brings_only_lines (separator tag : ascii) (K : string -> Prop)
    (ts : list (string * N * string)) (rest : string) :
  Forall (fun t => record_ok t /\ K (fst (fst t))
                   /\ fits (item_of separator tag t) = true) ts ->
  Forall (brings_only K) (fgets_all (BUFFER_SIZE - 1) rest) ->
  Forall (brings_only K)
    (fgets_all (BUFFER_SIZE - 1)
       (text_of (map (fun t => line_of (item_of separator tag t)) ts) +++ rest)).
Proof.
  intros Hts Hrest. induction Hts as [|t ts (Hok & Hk & Hfit) _ IH]; [exact Hrest|].
  cbn [map text_of fold_right]. fold (text_of (map (fun t => line_of (item_of separator tag t)) ts)).
  rewrite append_assoc, line_of_item_of.
  unfold fits in Hfit. rewrite line_of_item_of, length_append in Hfit.
  change (String.length nl) with 1 in Hfit. apply Nat.leb_le in Hfit.
  pose proof (line_body_no_newline t Hok) as Hnl.
  assert (Hlen : String.length (line_body t) < BUFFER_SIZE - 1
                 \/ String.length (line_body t) = BUFFER_SIZE - 1) by lia.
  destruct Hlen as [Hlen|Hlen].
  - rewrite (fgets_all_line _ _ _ read_cap_pos Hnl Hlen). constructor; [|exact IH].
    right. intros t'. rewrite (sscanf_line_body t nl Hok eq_refl).
    intros E. injection E as <-. exact Hk.
  - rewrite (fgets_all_long_line _ _ _ read_cap_pos Hnl Hlen).
    constructor; [|constructor; [|exact IH]].
    + right. intros t'. rewrite <- (append_nil_r (line_body t)).
      rewrite (sscanf_line_body t EmptyString Hok eq_refl).
      intros E. injection E as <-. exact Hk.
    + left. reflexivity.
Qed.

Lemma header_buffers (body : string) :
  fgets_all (BUFFER_SIZE - 1) (HEADER +++ body)
  = [HEADER1; HEADER2; HEADER3; HEADER4] ++ fgets_all (BUFFER_SIZE - 1) body.
Proof.
  change HEADER with (text_of [HEADER1; HEADER2; HEADER3; HEADER4]) at 1.
  apply fgets_all_lines; [exact read_cap_pos|].
  repeat constructor; eexists; (split; [reflexivity|]);
    (split; [reflexivity | apply Nat.leb_le; reflexivity]).
Qed.

Lemma encoded_list (separator tag : ascii) (P : list_item_t -> Prop) (l : list_t) :
  Forall (fun it => (exists t, record_ok t /\ it = item_of separator tag t) /\ P it) l ->
  exists ts, l = map (item_of separator tag) ts
             /\ Forall (fun t => record_ok t /\ P (item_of separator tag t)) ts.
Proof.
  induction 1 as [|it l [(t & Hok & ->) HP] _ (ts & -> & Hts)].
  - exists []. split; [reflexivity | constructor].
  - exists (t :: ts). split; [reflexivity|]. constructor; [split; assumption | exact Hts].
Qed.

Lemma fst_item_of (separator tag : ascii) (t : string * N * string) :
  fst (item_of separator tag t) = fst (fst t).
Proof. destruct t as [[name sz] sha]. reflexivity. Qed.

Lemma write_items_encoded (separator tag : ascii) (ts : list (string * N * string)) :
  Forall (fun t => fits (item_of separator tag t) = true) ts ->
  write_items (map (item_of separator tag) ts)
  = Done (text_of (map line_of (map (item_of separator tag) ts))).
Proof.
  induction 1 as [|t ts Hfit _ IH]; [reflexivity|].
  cbn [map write_items]. rewrite IH.
  destruct t as [[name sz] sha]. unfold item_of at 1, DATA_FORMAT.
  rewrite snprintf_item_line; [reflexivity|]. exact Hfit.
Qed.

Lemma write_items_loaded (separator tag : ascii) (l : list_t) :
  Forall (fun it => (exists t, record_ok t /\ it = item_of separator tag t)
                    /\ fits it = true) l ->
  write_items l = Done (text_of (map line_of l)).
Proof.
  intros H. destruct (encoded_list _ _ _ _ H) as (ts & -> & Hts).
  apply write_items_encoded. revert Hts. apply Forall_impl. tauto.
Qed.

Lemma matching_none (p : string) (l : list_t) :
  (forall it, In it l -> starts_with p (fst it) = false) <-> matching p l = [].
Proof.
  unfold matching. induction l as [|x l IH]; simpl; [tauto|].
  destruct (starts_with p (fst x)) eqn:E.
  - split; [|discriminate]. intros H. specialize (H x (or_introl eq_refl)). congruence.
  - rewrite <- IH. split.
    + intros H it Hin. apply H. tauto.
    + intros H it [<-|Hin]; [exact E | apply H, Hin].
Qed.

Lemma surviving_In (p : string) (l : list_t) (it : list_item_t) :
  In it (surviving p l) <-> In it l /\ starts_with p (fst it) = false.
Proof.
  unfold surviving. rewrite filter_In, negb_true_iff. reflexivity.
Qed.

Lemma parsed_keys_well_formed (bufs : list string) :
  well_formed bufs = true ->
  map (fun t => fst (fst t)) (parsed bufs) = record_keys bufs.
Proof.
  unfold record_keys. induction bufs as [|b bufs IH]; simpl; [reflexivity|].
  intros H. apply andb_true_iff in H. destruct H as [Hb H].
  destruct (is_comment b); [exact (IH H)|].
  destruct (sscanf_FILE_READ_FORMAT b) as [t|]; [|discriminate].
  simpl. rewrite (IH H). reflexivity.
Qed.

Lemma brings_only_record_keys (K : string -> Prop) (bufs : list string) :
  Forall (brings_only K) bufs -> forall k, In k (record_keys bufs) -> K k.
Proof.
  unfold record_keys. induction 1 as [|b bufs Hb _ IH]; simpl; [tauto|].
  intros k Hin. apply in_app_or in Hin. destruct Hin as [Hin|Hin]; [|apply IH, Hin].
  destruct Hb as [Hc|Hk].
  - rewrite Hc in Hin. destruct Hin.
  - destruct (is_comment b); [destruct Hin|].
    destruct (sscanf_FILE_READ_FORMAT b) as [t|]; [|destruct Hin].
    destruct Hin as [<-|[]]. apply Hk. reflexivity.
Qed.

(** The buffers of a file that [write_out_list] wrote bring only keys of
    the items written. *)
Lemma rewritten_file_buffers (separator tag : ascii) (K : string -> Prop)
    (fs : filesystem) (fpath : string) (f : file) (items : list_t) :
  open_read fs fpath = Some f ->
  Forall (fun it => (exists t, record_ok t /\ it = item_of separator tag t)
                    /\ (K (fst it) /\ fits it = true)) items ->
  Forall (brings_only K)
    (file_buffers (store fs fpath (HEADER +++ text_of (map line_of items))) fpath).
Proof.
  intros Hopen Hitems. unfold file_buffers.
  rewrite (open_read_store fs fpath _ f Hopen). cbn [f_data set_data].
  rewrite header_buffers. apply Forall_app. split.
  - repeat constructor.
  - destruct (encoded_list _ _ _ _ Hitems) as (ts & -> & Hts).
    rewrite map_map. rewrite <- (append_nil_r (text_of _)).
    apply brings_only_lines; [|constructor].
    revert Hts. apply Forall_impl. intros a (Hok & HK & Hfit).
    rewrite fst_item_of in HK. tauto.
Qed.

Lemma loaded_keys (separator tag : ascii) (K : string -> Prop)
    (fs : filesystem) (fpath : string) :
  Forall (brings_only K) (file_buffers fs fpath) ->
  forall it, In it (snd (fst (trust_file_load separator tag fs fpath []))) -> K (fst it).
Proof.
  intros H it. rewrite trust_file_load_store. intros Hin.
  apply merge_in_In in Hin. destruct Hin as [[]|Hin].
  unfold file_records in Hin. apply in_map_iff in Hin. destruct Hin as (t & <- & Ht).
  rewrite fst_item_of.
  pose proof (brings_only_parsed K _ H) as Hall.
  rewrite Forall_forall in Hall. apply Hall, Ht.
Qed.

(** In a well-formed file every key of a record line is the key of a
    loaded item. *)
Lemma record_keys_loaded (separator tag : ascii) (fs : filesystem) (fpath k : string) :
  well_formed (file_buffers fs fpath) = true ->
  In k (record_keys (file_buffers fs fpath)) ->
  In k (keys (snd (fst (trust_file_load separator tag fs fpath [])))).
Proof.
  intros Hwf Hin. rewrite trust_file_load_store. apply merge_in_keys. simpl.
  unfold file_records, keys. rewrite map_map.
  rewrite <- (parsed_keys_well_formed _ Hwf) in Hin.
  erewrite map_ext; [exact Hin|]. intros t. apply fst_item_of.
Qed.

Lemma loaded_nonempty_opens (separator tag : ascii) (fs : filesystem) (fpath : string) :
  snd (fst (trust_file_load separator tag fs fpath [])) <> [] ->
  exists f, open_read fs fpath = Some f.
Proof.
  unfold trust_file_load. destruct (open_read fs fpath) as [f|]; [eauto|].
  simpl. congruence.
Qed.

(** C3.  [trust_file_delete_path] on a file that can be opened for
    writing when a record matches, and whose surviving records fit the
    line buffer: the loop
    unlinks exactly the loaded records whose key has the prefix (a
    literal prefix, segments are not looked at) and the function returns
    their number; the file is left alone when that number is zero and
    becomes the header followed by the lines of the surviving records when
    it is not; afterwards a load of the file finds no key with the prefix,
    no record line of the file has such a key (when the file was rewritten
    or was well formed), and a second call with the same prefix returns
    zero and leaves the file as it is. *)
Theorem delete_by_prefix
    (separator SRC_FILE_DB : ascii) (fs : filesystem) (fpath p : string) :
  let loaded := snd (fst (trust_file_load separator SRC_FILE_DB fs fpath [])) in
  let count := Z.of_nat (List.length (matching p loaded)) in
  (count <> 0%Z -> open_write fs fpath = true) ->
  forallb fits (surviving p loaded) = true ->
  exists fs' lg,
    delete_items p loaded = (count, surviving p loaded)
    /\ trust_file_delete_path separator SRC_FILE_DB fs fpath p = Done (count, fs', lg)
    /\ (count = 0%Z -> fs' = fs)
    /\ (count <> 0%Z ->
        fs' = store fs fpath (HEADER +++ text_of (map line_of (surviving p loaded))))
    /\ (forall it,
          In it (snd (fst (trust_file_load separator SRC_FILE_DB fs' fpath []))) ->
          starts_with p (fst it) = false)
    /\ (count <> 0%Z \/ well_formed (file_buffers fs fpath) = true ->
        forall k, In k (record_keys (file_buffers fs' fpath)) -> starts_with p k = false)
    /\ exists lg',
         trust_file_delete_path separator SRC_FILE_DB fs' fpath p = Done (0%Z, fs', lg').
Proof.
  intros loaded count Hw Hfit.
  assert (Hsecond : forall fs',
    (forall it, In it (snd (fst (trust_file_load separator SRC_FILE_DB fs' fpath []))) ->
                starts_with p (fst it) = false) ->
    exists lg', trust_file_delete_path separator SRC_FILE_DB fs' fpath p
                = Done (0%Z, fs', lg')).
  { intros fs' H. apply matching_none in H.
    rewrite trust_file_delete_path_unfold. cbv zeta. rewrite H. eauto. }
  rewrite trust_file_delete_path_unfold. cbv zeta. fold loaded. subst count.
  pose proof (delete_items_spec p loaded) as Hdel.
  destruct (matching p loaded) as [|m ms] eqn:Em.
  - exists fs. eexists. split; [exact Hdel|].
    split; [reflexivity|]. split; [reflexivity|]. split; [intros H; exfalso; apply H; reflexivity|].
    assert (Hkeys : forall it, In it loaded -> starts_with p (fst it) = false)
      by (apply matching_none; exact Em).
    split; [exact Hkeys|]. split; [|apply Hsecond; exact Hkeys].
    intros [H|Hwf] k Hk; [exfalso; apply H; reflexivity|].
    apply (record_keys_loaded separator SRC_FILE_DB) in Hk; [|exact Hwf].
    apply in_map_iff in Hk. destruct Hk as (it & <- & Hit). apply Hkeys, Hit.
  - assert (Hitems : Forall (fun it =>
              (exists t, record_ok t /\ it = item_of separator SRC_FILE_DB t)
              /\ (starts_with p (fst it) = false /\ fits it = true))
              (surviving p loaded)).
    { apply Forall_forall. intros it Hin. rewrite forallb_forall in Hfit.
      pose proof (Hfit it Hin) as Hf. apply surviving_In in Hin. destruct Hin as [Hin Hp].
      split; [apply (loaded_item_ok separator SRC_FILE_DB fs fpath); exact Hin | tauto]. }
    assert (Hwrite : write_items (surviving p loaded)
                     = Done (text_of (map line_of (surviving p loaded)))).
    { apply (write_items_loaded separator SRC_FILE_DB).
      revert Hitems. apply Forall_impl. tauto. }
    destruct (loaded_nonempty_opens separator SRC_FILE_DB fs fpath) as [f Hf].
    { fold loaded. intros E. rewrite E in Em. discriminate. }
    unfold write_out_list. rewrite Hw, Hwrite by (cbn [List.length]; lia).
    cbn [bind fst snd].
    eexists. eexists. split; [exact Hdel|].
    split; [reflexivity|]. split; [cbn [List.length]; lia|]. split; [reflexivity|].
    assert (Hbufs := rewritten_file_buffers separator SRC_FILE_DB
                       (fun k => starts_with p k = false) fs fpath f _ Hf Hitems).
    assert (Hkeys := loaded_keys separator SRC_FILE_DB _ _ fpath Hbufs).
    split; [exact Hkeys|]. split; [|apply Hsecond; exact Hkeys].
    intros _. apply brings_only_record_keys. exact Hbufs.
Qed.

Lemma write_items_fitting (l : list_t) :
  Forall (fun it => (exists a b s, snd it = Some (String a (String b s)))
                    /\ fits it = true) l ->
  write_items l = Done (text_of (map line_of l)).
Proof.
  induction 1 as [|[k d] l [(a & b & s & E) Hfit] _ IH]; [reflexivity|].
  cbn [map write_items]. rewrite IH. simpl in E. subst d.
  rewrite snprintf_item_line; [reflexivity | exact Hfit].
Qed.

Lemma make_path_string_reachable (separator : ascii) (get_hash_from_fd : string -> string)
    (fs : filesystem) (it : list_item_t) :
  reachable fs it = true ->
  exists f,
    open_read fs (fst it) = Some f
    /\ make_path_string separator get_hash_from_fd fs (fst it) 0
       = (Some (DATA_FORMAT separator "0" (N.of_nat (String.length (f_data f)))
                  (get_hash_from_fd (f_data f))),
          Z.of_nat (String.length
                      (DATA_FORMAT separator "0" (N.of_nat (String.length (f_data f)))
                         (get_hash_from_fd (f_data f)))),
          []).
Proof.
  unfold reachable, make_path_string.
  destruct (open_read fs (fst it)) as [f|]; [|discriminate].
  intros ->. exists f. split; reflexivity.
Qed.

Lemma line_of_rederived (separator : ascii) (get_hash_from_fd : string -> string)
    (fs : filesystem) (it : list_item_t) :
  reachable fs it = true ->
  line_of (rederived separator get_hash_from_fd fs it)
  = current_line get_hash_from_fd fs (fst it)
  /\ exists a b s,
       snd (rederived separator get_hash_from_fd fs it) = Some (String a (String b s)).
Proof.
  intros H.
  destruct (make_path_string_reachable separator get_hash_from_fd fs it H) as (f & Hf & E).
  unfold rederived, current_line. rewrite E, Hf. cbn [fst snd]. split.
  - apply line_of_encoded.
  - unfold DATA_FORMAT. eauto.
Qed.

Lemma matching_In (p : string) (l : list_t) (it : list_item_t) :
  In it (matching p l) <-> In it l /\ starts_with p (fst it) = true.
Proof. unfold matching. apply filter_In. Qed.

Lemma updated_lines (separator tag : ascii) (get_hash_from_fd : string -> string)
    (fs : filesystem) (p : string) (l : list_t) :
  (forall it, In it l -> exists t, record_ok t /\ it = item_of separator tag t) ->
  forallb (reachable fs) (matching p l) = true ->
  map line_of (updated separator get_hash_from_fd fs p l)
  = map (updated_line get_hash_from_fd fs p) l
  /\ Forall (fun it => exists a b s, snd it = Some (String a (String b s)))
       (updated separator get_hash_from_fd fs p l).
Proof.
  unfold updated, updated_line, matching. induction l as [|it l IH]; intros Henc Hreach.
  - split; [reflexivity | constructor].
  - cbn [map filter] in *.
    destruct (starts_with p (fst it)) eqn:E.
    + cbn [forallb] in Hreach. apply andb_true_iff in Hreach. destruct Hreach as [Hr Hreach].
      destruct (IH (fun x Hx => Henc x (or_intror Hx)) Hreach) as [IH1 IH2].
      destruct (line_of_rederived separator get_hash_from_fd fs it Hr) as [L1 L2].
      rewrite IH1, L1. split; [reflexivity | constructor; assumption].
    + destruct (IH (fun x Hx => Henc x (or_intror Hx)) Hreach) as [IH1 IH2].
      rewrite IH1. split; [reflexivity|]. constructor; [|exact IH2].
      destruct (Henc it (or_introl eq_refl)) as ([[name sz] sha] & _ & ->).
      unfold item_of, DATA_FORMAT. cbn [snd]. eauto.
Qed.

(** C8.  [trust_file_update_path] on a file that can be opened for
    writing when a record matches, where the paths of the matching records
    can be opened and
    their size read, and the lines fit the line buffer: the function
    returns the number of matching records and, when there is one at
    least, the file becomes the header followed by one line per loaded
    record, in order.  For a record whose key has not the prefix that line
    is the line of the stored record, byte for byte, and reading it gives
    back the path, size and hash that were stored; for a record whose key
    has the prefix it is the path with the size and the hash the file
    system has now. *)
Theorem update_by_prefix
    (separator SRC_FILE_DB : ascii) (get_hash_from_fd : string -> string)
    (fs : filesystem) (fpath p : string) :
  let loaded := snd (fst (trust_file_load separator SRC_FILE_DB fs fpath [])) in
  let count := Z.of_nat (List.length (matching p loaded)) in
  (count <> 0%Z -> open_write fs fpath = true) ->
  forallb (reachable fs) (matching p loaded) = true ->
  forallb fits (updated separator get_hash_from_fd fs p loaded) = true ->
  exists fs' lg,
    trust_file_update_path separator SRC_FILE_DB get_hash_from_fd fs fpath p
    = Done (count, fs', lg)
    /\ (count = 0%Z -> fs' = fs)
    /\ (count <> 0%Z ->
        fs' = store fs fpath
                (HEADER +++ text_of (map (updated_line get_hash_from_fd fs p) loaded)))
    /\ (forall it,
          In it loaded -> starts_with p (fst it) = false ->
          updated_line get_hash_from_fd fs p it = line_of it
          /\ exists t, it = item_of separator SRC_FILE_DB t
                       /\ sscanf_FILE_READ_FORMAT (line_of it) = Some t)
    /\ (forall it,
          In it loaded -> starts_with p (fst it) = true ->
          exists f,
            open_read fs (fst it) = Some f
            /\ updated_line get_hash_from_fd fs p it
               = FILE_WRITE_FORMAT (fst it) (N.of_nat (String.length (f_data f)))
                   (get_hash_from_fd (f_data f))).
Proof.
  intros loaded count Hw Hreach Hfit. subst count.
  assert (Henc : forall it, In it loaded ->
                            exists t, record_ok t /\ it = item_of separator SRC_FILE_DB t)
    by (intros it; apply loaded_item_ok).
  assert (Hframe : forall it,
            In it loaded -> starts_with p (fst it) = false ->
            updated_line get_hash_from_fd fs p it = line_of it
            /\ exists t, it = item_of separator SRC_FILE_DB t
                         /\ sscanf_FILE_READ_FORMAT (line_of it) = Some t).
  { intros it Hin Hp. unfold updated_line. rewrite Hp. split; [reflexivity|].
    destruct (Henc it Hin) as (t & Hok & ->). exists t. split; [reflexivity|].
    rewrite line_of_item_of. apply sscanf_line_body; [exact Hok | reflexivity]. }
  assert (Hnew : forall it,
            In it loaded -> starts_with p (fst it) = true ->
            exists f,
              open_read fs (fst it) = Some f
              /\ updated_line get_hash_from_fd fs p it
                 = FILE_WRITE_FORMAT (fst it) (N.of_nat (String.length (f_data f)))
                     (get_hash_from_fd (f_data f))).
  { intros it Hin Hp. rewrite forallb_forall in Hreach.
    assert (Hr : reachable fs it = true) by (apply Hreach, matching_In; tauto).
    destruct (make_path_string_reachable separator get_hash_from_fd fs it Hr)
      as (f & Hf & _).
    exists f. split; [exact Hf|]. unfold updated_line, current_line.
    rewrite Hp, Hf. reflexivity. }
  rewrite trust_file_update_path_unfold. cbv zeta. fold loaded.
  destruct (matching p loaded) as [|m ms] eqn:Em.
  - exists fs. eexists. split; [reflexivity|]. split; [reflexivity|].
    split; [intros H; exfalso; apply H; reflexivity|]. split; assumption.
  - rewrite <- Em in Hreach.
    destruct (updated_lines separator SRC_FILE_DB get_hash_from_fd fs p loaded Henc Hreach)
      as [Hlines Htwo].
    assert (Hwrite : write_items (updated separator get_hash_from_fd fs p loaded)
                     = Done (text_of (map (updated_line get_hash_from_fd fs p) loaded))).
    { rewrite <- Hlines. apply write_items_fitting.
      rewrite forallb_forall in Hfit. rewrite Forall_forall in *.
      intros it Hin. split; [apply Htwo, Hin | apply Hfit, Hin]. }
    unfold write_out_list. rewrite Hw, Hwrite by (cbn [List.length]; lia).
    cbn [bind fst snd].
    eexists. eexists. split; [reflexivity|].
    split; [cbn [List.length]; lia|]. split; [reflexivity|]. split; assumption.
Qed.

(** *** Removing what is on disk already *)

Lemma remove_all_nil (ks : list string) : remove_all [] ks = [].
Proof. unfold remove_all. induction ks as [|k ks IH]; simpl; [reflexivity | exact IH]. Qed.

Lemma remove_all_cons (l : list_t) (k : string) (ks : list string) :
  remove_all l (k :: ks) = remove_all (list_remove l k) ks.
Proof. reflexivity. Qed.

Lemma remove_all_app (l : list_t) (a b : list string) :
  remove_all l (a ++ b) = remove_all (remove_all l a) b.
Proof. apply fold_left_app. Qed.

Lemma length_zero_nil (l : list_t) : (List.length l =? 0) = true -> l = [].
Proof. destruct l; [reflexivity | discriminate]. Qed.

Lemma rm_buffers_store (bufs : list string) (l : list_t) :
  snd (fst (rm_buffers bufs l)) = remove_all l (map (fun t => fst (fst t)) (parsed bufs)).
Proof.
  revert l. induction bufs as [|b bufs IH]; intros l; simpl; [reflexivity|].
  destruct (is_comment b); [apply IH|].
  destruct (sscanf_FILE_READ_FORMAT b) as [[[tpath sz] sha]|]; [|reflexivity].
  cbn [map fst]. rewrite remove_all_cons.
  destruct (List.length (list_remove l tpath) =? 0) eqn:E; [|apply IH].
  apply length_zero_nil in E. rewrite E, remove_all_nil. reflexivity.
Qed.

Lemma trust_file_rm_duplicates_store (fs : filesystem) (fpath : string) (l : list_t) :
  well_formed (file_buffers fs fpath) = true ->
  snd (fst (trust_file_rm_duplicates fs fpath l))
  = remove_all l (record_keys (file_buffers fs fpath)).
Proof.
  intros H. rewrite <- (parsed_keys_well_formed _ H).
  unfold trust_file_rm_duplicates, file_buffers.
  destruct (open_read fs fpath); [apply rm_buffers_store | reflexivity].
Qed.

Lemma regular_files_cons (fpath : string) (flag : typeflag) (w : walk) :
  regular_files ((fpath, flag) :: w)
  = match flag with FTW_F => fpath :: regular_files w | _ => regular_files w end.
Proof. destruct flag; reflexivity. Qed.

Lemma nftw_rm_duplicates_store (fs : filesystem) (w : walk) (l : list_t) :
  (forall fpath, In fpath (regular_files w) -> well_formed (file_buffers fs fpath) = true) ->
  fst (nftw w (ftw_rm_duplicates fs) l)
  = remove_all l (flat_map (fun fpath => record_keys (file_buffers fs fpath))
                    (regular_files w)).
Proof.
  revert l. induction w as [|[fpath flag] w IH]; intros l Hwf; [reflexivity|].
  cbn [nftw]. unfold ftw_rm_duplicates at 1.
  destruct (List.length l =? 0) eqn:E.
  - apply length_zero_nil in E. subst l. rewrite remove_all_nil. reflexivity.
  - rewrite regular_files_cons in Hwf |- *.
    destruct flag;
      try (specialize (IH l Hwf);
           destruct (nftw w (ftw_rm_duplicates fs) l); exact IH).
    pose proof (trust_file_rm_duplicates_store fs fpath l (Hwf fpath (or_introl eq_refl)))
      as H.
    destruct (trust_file_rm_duplicates fs fpath l) as [[rc l'] lg]. cbn [fst snd] in H.
    specialize (IH l' (fun x Hx => Hwf x (or_intror Hx))).
    destruct (nftw w (ftw_rm_duplicates fs) l') as [l'' lg']. cbn [fst snd] in *.
    cbn [flat_map]. rewrite remove_all_app, <- H. exact IH.
Qed.

Lemma list_remove_filter (l : list_t) (k : string) :
  NoDup (keys l) ->
  list_remove l k = filter (fun it => negb (String.eqb (fst it) k)) l.
Proof.
  induction l as [|x l IH]; simpl; [reflexivity|].
  intros H. inversion H as [|? ? Hx Hl]; subst.
  destruct (String.eqb (fst x) k) eqn:E; simpl.
  - apply String.eqb_eq in E. subst k.
    clear IH H Hl. induction l as [|y l IH]; simpl; [reflexivity|].
    simpl in Hx. destruct (String.eqb (fst y) (fst x)) eqn:E.
    + apply String.eqb_eq in E. tauto.
    + simpl. f_equal. apply IH. tauto.
  - f_equal. apply IH, Hl.
Qed.

Lemma filter_keys_unique (f : list_item_t -> bool) (l : list_t) :
  NoDup (keys l) -> NoDup (keys (filter f l)).
Proof.
  unfold keys. induction l as [|x l IH]; simpl; [constructor|].
  intros H. inversion H as [|? ? Hx Hl]; subst.
  destruct (f x); simpl; [|apply IH, Hl].
  constructor; [|apply IH, Hl].
  intros Hin. apply Hx. apply in_map_iff in Hin. destruct Hin as (y & Ey & Hy).
  apply filter_In in Hy. apply in_map_iff. exists y. tauto.
Qed.

Lemma remove_all_filter (ks : list string) (l : list_t) :
  NoDup (keys l) ->
  remove_all l ks = filter (fun it => negb (existsb (String.eqb (fst it)) ks)) l.
Proof.
  unfold remove_all. revert l. induction ks as [|k ks IH]; intros l H; simpl.
  - symmetry. apply forallb_filter_id. apply forallb_forall. reflexivity.
  - rewrite (list_remove_filter l k H).
    rewrite IH by (apply filter_keys_unique; exact H).
    clear. induction l as [|x l IHl]; simpl; [reflexivity|].
    destruct (String.eqb (fst x) k); simpl; [exact IHl|].
    destruct (existsb (String.eqb (fst x)) ks); simpl; [exact IHl | f_equal; exact IHl].
Qed.

Lemma merge_in_fresh (l a : list_t) : NoDup (keys (a ++ l)) -> merge_in a l = a ++ l.
Proof.
  unfold merge_in. revert a. induction l as [|x l IH]; intros a H; simpl.
  - rewrite app_nil_r. reflexivity.
  - destruct (add_item_cases a x) as [[Hin _]|[_ ->]].
    + exfalso. rewrite keys_app in H. apply NoDup_remove_2 in H.
      apply H. apply in_or_app. tauto.
    + rewrite IH; rewrite <- app_assoc; [reflexivity | exact H].
Qed.

Lemma merge_in_nil_unique (l : list_t) : NoDup (keys l) -> merge_in [] l = l.
Proof. intros H. apply (merge_in_fresh l []). exact H. Qed.


(** C7.  [trust_file_rm_duplicates_all] on a candidate list with unique
    keys, all trust files being well formed (every buffer a comment or a
    record): the candidates left are exactly those whose key is the path
    of no record of the primary file or of a regular file of the walk, in
    their order and with their values.  So nothing is left when every
    candidate key is on disk, and the list is unchanged when none is. *)
Theorem remove_duplicates_keeps_new_keys
    (fs : filesystem) (w : walk) (candidates g : list_t) :
  NoDup (keys candidates) ->
  (forall fpath, In fpath (trust_files w) -> well_formed (file_buffers fs fpath) = true) ->
  let out := fst (fst (trust_file_rm_duplicates_all fs w candidates g)) in
  out = filter (fun it => negb (on_disk fs w (fst it))) candidates
  /\ (forall k, In k (keys out) <-> In k (keys candidates) /\ on_disk fs w k = false)
  /\ ((forall k, In k (keys candidates) -> on_disk fs w k = true) -> out = [])
  /\ ((forall k, In k (keys candidates) -> on_disk fs w k = false) -> out = candidates).
Proof.
  intros Huniq Hwf out.
  assert (Hout : out = filter (fun it => negb (on_disk fs w (fst it))) candidates).
  { unfold out, trust_file_rm_duplicates_all, list_empty.
    rewrite !list_merge_merge_in. rewrite (merge_in_nil_unique _ Huniq).
    pose proof (trust_file_rm_duplicates_store fs TRUST_FILE_PATH candidates
                  (Hwf _ (or_introl eq_refl))) as H1.
    destruct (trust_file_rm_duplicates fs TRUST_FILE_PATH candidates) as [[rc l2] lg1].
    cbn [fst snd] in H1.
    pose proof (nftw_rm_duplicates_store fs w l2 (fun x Hx => Hwf x (or_intror Hx))) as H2.
    destruct (nftw w (ftw_rm_duplicates fs) l2) as [l3 lg2]. cbn [fst snd] in *.
    assert (E3 : l3 = remove_all candidates (disk_keys fs w)).
    { rewrite H2, H1. unfold disk_keys, trust_files. cbn [flat_map].
      rewrite remove_all_app. reflexivity. }
    rewrite (remove_all_filter _ _ Huniq) in E3. rewrite E3.
    apply merge_in_nil_unique, filter_keys_unique, Huniq. }
  split; [exact Hout|]. split; [|split].
  - intros k. rewrite Hout. unfold keys. rewrite !in_map_iff. split.
    + intros (it & <- & Hin). apply filter_In in Hin. destruct Hin as [Hin Hd].
      apply negb_true_iff in Hd. eauto.
    + intros [(it & <- & Hin) Hd]. exists it. split; [reflexivity|].
      apply filter_In. rewrite Hd. tauto.
  - intros Hall. rewrite Hout.
    clear - Hall. induction candidates as [|x l IH]; [reflexivity|]. simpl.
    rewrite (Hall (fst x)) by (simpl; tauto). simpl. apply IH.
    intros k Hk. apply Hall. simpl. tauto.
  - intros Hnone. rewrite Hout. apply forallb_filter_id. apply forallb_forall.
    intros it Hin. rewrite (Hnone (fst it)); [reflexivity|]. apply in_map. exact Hin.
Qed.

(** ** The properties on the sample trust stores *)

Import Sample.

Lemma load_all_first_record_wins_witness :
  NoDup (keys ([] : list_t))
  /\ NoDup (keys (fst (load_all_list " " "2" two_fragments two_fragments_walk [])))
  /\ lookup "/etc/passwd" (fst (load_all_list " " "2" two_fragments two_fragments_walk []))
     = lookup "/etc/passwd" (all_records " " "2" two_fragments two_fragments_walk)
  /\ List.length (fst (load_all_list " " "2" two_fragments two_fragments_walk []))
     + duplicate_warnings (snd (load_all_list " " "2" two_fragments two_fragments_walk []))
     = List.length (all_records " " "2" two_fragments two_fragments_walk).
Proof.
  assert (H : NoDup (keys ([] : list_t))) by constructor.
  split; [exact H|].
  pose proof (load_all_first_record_wins " " "2" two_fragments two_fragments_walk [] [] H)
    as T.
  cbv zeta in T. destruct T as (H1 & H2 & _ & H4 & _).
  split; [exact H1|]. split; [exact (H2 "/etc/passwd") | exact H4].
Defined.

Lemma render_parse_round_trip_witness :
  is_word 4096 "/bin/ls" = true
  /\ (157984 <= ULONG_MAX)%N
  /\ is_word 64 "61a9" = true
  /\ String.length "/bin/ls" + String.length (fmt_lu 157984) + String.length "61a9" + 3
     <= BUFFER_SIZE
  /\ snprintf_item ("/bin/ls", Some (DATA_FORMAT " " "2" 157984 "61a9"))
     = Done ("/bin/ls" +++ " " +++ fmt_lu 157984 +++ " " +++ "61a9" +++ nl)
  /\ sscanf_FILE_READ_FORMAT ("/bin/ls" +++ " " +++ fmt_lu 157984 +++ " " +++ "61a9" +++ nl)
     = Some ("/bin/ls", 157984%N, "61a9").
Proof.
  assert (H1 : is_word 4096 "/bin/ls" = true) by reflexivity.
  assert (H2 : (157984 <= ULONG_MAX)%N) by (vm_compute; discriminate).
  assert (H3 : is_word 64 "61a9" = true) by reflexivity.
  assert (H4 : String.length "/bin/ls" + String.length (fmt_lu 157984)
               + String.length "61a9" + 3 <= BUFFER_SIZE)
    by (apply Nat.leb_le; vm_compute; reflexivity).
  split; [exact H1|]. split; [exact H2|]. split; [exact H3|]. split; [exact H4|].
  exact (render_parse_round_trip " " "2" "/bin/ls" "61a9" 157984 H1 H2 H3 H4).
Defined.

Lemma delete_by_prefix_witness :
  (Z.of_nat (List.length
               (matching "/a/b" (snd (fst (trust_file_load " " "2" one_file "/t" [])))))
   <> 0%Z -> open_write one_file "/t" = true)
  /\ forallb fits (surviving "/a/b" (snd (fst (trust_file_load " " "2" one_file "/t" []))))
     = true
  /\ exists fs' lg,
       trust_file_delete_path " " "2" one_file "/t" "/a/b" = Done (2%Z, fs', lg)
       /\ fs' = store one_file "/t" (HEADER +++ "/x 3 cc" +++ nl)
       /\ exists lg', trust_file_delete_path " " "2" fs' "/t" "/a/b" = Done (0%Z, fs', lg').
Proof.
  assert (H1 : Z.of_nat (List.length
                            (matching "/a/b"
                               (snd (fst (trust_file_load " " "2" one_file "/t" [])))))
               <> 0%Z -> open_write one_file "/t" = true) by reflexivity.
  assert (H2 : forallb fits
                 (surviving "/a/b" (snd (fst (trust_file_load " " "2" one_file "/t" []))))
               = true) by (vm_compute; reflexivity).
  split; [exact H1|]. split; [exact H2|].
  pose proof (delete_by_prefix " " "2" one_file "/t" "/a/b" H1 H2) as T.
  cbv zeta in T. destruct T as (fs' & lg & _ & Hd & _ & Hs & _ & _ & Hz).
  exists fs', lg. split; [exact Hd|]. split; [|exact Hz].
  apply Hs. vm_compute. discriminate.
Defined.

Lemma load_stops_at_malformed_line_witness :
  open_read broken_file "/t" = Some (readable (ls_line +++ garbage_line +++ cat_line))
  /\ Forall full_line [ls_line]
  /\ well_formed [ls_line] = true
  /\ full_line garbage_line
  /\ is_comment garbage_line = false
  /\ sscanf_FILE_READ_FORMAT garbage_line = None
  /\ exists st lg,
       trust_file_load " " "2" broken_file "/t" []
       = (2%Z, st, lg ++ msg LOG_WARNING "Can't parse %s" [cstr garbage_line])
       /\ trust_file_load " " "2" (store broken_file "/t" (text_of [ls_line])) "/t" []
          = (0%Z, st, lg)
       /\ st = merge_in [] (map (item_of " " "2") (parsed [ls_line])).
Proof.
  assert (H1 : open_read broken_file "/t"
               = Some (readable (ls_line +++ garbage_line +++ cat_line))) by reflexivity.
  assert (H2 : Forall full_line [ls_line]).
  { constructor; [|constructor]. exists "/bin/ls 157984 61a9".
    split; [reflexivity|]. split; [reflexivity|]. apply Nat.leb_le. vm_compute. reflexivity. }
  assert (H3 : well_formed [ls_line] = true) by reflexivity.
  assert (H4 : full_line garbage_line).
  { exists "garbage".
    split; [reflexivity|]. split; [reflexivity|]. apply Nat.leb_le. vm_compute. reflexivity. }
  assert (H5 : is_comment garbage_line = false) by reflexivity.
  assert (H6 : sscanf_FILE_READ_FORMAT garbage_line = None) by reflexivity.
  repeat (split; [assumption|]).
  exact (load_stops_at_malformed_line " " "2" broken_file "/t" _ [ls_line] garbage_line
           cat_line [] H1 eq_refl H2 H3 H4 H5 H6).
Defined.

Lemma first_three_words_decide_witness :
  all_chars isspace EmptyString = true
  /\ is_word 4096 "/bin/ls" = true
  /\ " " <> EmptyString
  /\ all_chars isspace " " = true
  /\ sscanf_FILE_READ_FORMAT
       (EmptyString +++ "/bin/ls" +++ " " +++ NilEmpty.string_of_uint (N.to_uint 157984)
        +++ " " +++ "61a9" +++ " extra" +++ nl)
     = Some ("/bin/ls", strtoul false (N.to_uint 157984), "61a9")
  /\ sscanf_FILE_READ_FORMAT (EmptyString +++ "/bin/ls" +++ " " +++ "large 61a9") = None.
Proof.
  assert (H1 : all_chars isspace EmptyString = true) by reflexivity.
  assert (H2 : is_word 4096 "/bin/ls" = true) by reflexivity.
  assert (H3 : " " <> EmptyString) by discriminate.
  assert (H4 : all_chars isspace " " = true) by reflexivity.
  repeat (split; [assumption|]).
  destruct (first_three_words_decide EmptyString "/bin/ls" " " H1 H2 H3 H4)
    as (Ha & Hb & _).
  split.
  - apply Ha; try reflexivity; discriminate.
  - apply Hb. reflexivity.
Defined.

Lemma remove_duplicates_keeps_new_keys_witness :
  NoDup (keys candidates)
  /\ (forall fpath, In fpath (trust_files disk_walk) ->
                    well_formed (file_buffers disk fpath) = true)
  /\ fst (fst (trust_file_rm_duplicates_all disk disk_walk candidates []))
     = filter (fun it => negb (on_disk disk disk_walk (fst it))) candidates.
Proof.
  assert (H1 : NoDup (keys candidates)).
  { repeat constructor; simpl; intuition discriminate. }
  assert (H2 : forall fpath, In fpath (trust_files disk_walk) ->
                             well_formed (file_buffers disk fpath) = true).
  { intros fpath [<-|[<-|[]]]; reflexivity. }
  split; [exact H1|]. split; [exact H2|].
  exact (proj1 (remove_duplicates_keeps_new_keys disk disk_walk candidates [] H1 H2)).
Defined.

Lemma update_by_prefix_witness :
  (Z.of_nat (List.length
               (matching "/x" (snd (fst (trust_file_load " " "2" one_file "/t" [])))))
   <> 0%Z -> open_write one_file "/t" = true)
  /\ forallb (reachable one_file)
       (matching "/x" (snd (fst (trust_file_load " " "2" one_file "/t" [])))) = true
  /\ forallb fits
       (updated " " hash_of one_file "/x"
          (snd (fst (trust_file_load " " "2" one_file "/t" [])))) = true
  /\ exists fs' lg,
       trust_file_update_path " " "2" hash_of one_file "/t" "/x" = Done (1%Z, fs', lg)
       /\ fs' = store one_file "/t"
                  (HEADER +++ ("/a/b 1 aa" +++ nl) +++ ("/a/bc 2 bb" +++ nl)
                   +++ "/x 5 61a9960b" +++ nl).
Proof.
  assert (H1 : Z.of_nat (List.length
                            (matching "/x"
                               (snd (fst (trust_file_load " " "2" one_file "/t" [])))))
               <> 0%Z -> open_write one_file "/t" = true) by reflexivity.
  assert (H2 : forallb (reachable one_file)
                 (matching "/x" (snd (fst (trust_file_load " " "2" one_file "/t" []))))
               = true) by (vm_compute; reflexivity).
  assert (H3 : forallb fits
                 (updated " " hash_of one_file "/x"
                    (snd (fst (trust_file_load " " "2" one_file "/t" [])))) = true)
    by (vm_compute; reflexivity).
  split; [exact H1|]. split; [exact H2|]. split; [exact H3|].
  pose proof (update_by_prefix " " "2" hash_of one_file "/t" "/x" H1 H2 H3) as T.
  cbv zeta in T. destruct T as (fs' & lg & Hu & _ & Hs & _).
  exists fs', lg. split; [exact Hu|].
  apply Hs. vm_compute. discriminate.
Defined.

Lemma delete_count_hides_write_failure_witness :
  open_write one_file_read_only "/t" = false
  /\ matching "/a/b" (snd (fst (trust_file_load " " "2" one_file_read_only "/t" []))) <> []
  /\ trust_file_delete_path " " "2" one_file_read_only "/t" "/a/b"
     = Done (2%Z, one_file_read_only, msg LOG_ERR "Cannot delete %s" ["/t"]).
Proof.
  assert (H1 : open_write one_file_read_only "/t" = false) by reflexivity.
  assert (H2 : matching "/a/b"
                 (snd (fst (trust_file_load " " "2" one_file_read_only "/t" []))) <> [])
    by (vm_compute; discriminate).
  split; [exact H1|]. split; [exact H2|].
  exact (proj1 (proj2 (delete_count_hides_write_failure " " "2" one_file_read_only
                         "/t" "/a/b" H1 H2))).
Defined.

(** The two examples of the format description, evaluated. *)

Example two_fragments_one_passwd :
  load_all_list " " "2" two_fragments two_fragments_walk []
  = ([("/etc/passwd", Some "2 2890 ab12"); ("/bin/ls", Some "2 157984 61a9")],
     msg LOG_ERR "Cannot open %s" [TRUST_FILE_PATH]
     ++ msg LOG_WARNING "%s contains a duplicate %s" [fragment_b; "/etc/passwd"]).
Proof. vm_compute. reflexivity. Qed.

Example garbage_after_ls :
  trust_file_load " " "2" broken_file "/t" []
  = (2%Z, [("/bin/ls", Some "2 157984 61a9")],
     msg LOG_WARNING "Can't parse %s" [garbage_line]).
Proof. vm_compute. reflexivity. Qed.

Example candidates_not_on_disk :
  trust_file_rm_duplicates_all disk disk_walk candidates []
  = ([("/b", Some "0 6 ff")], [], []).
Proof. vm_compute. reflexivity. Qed.

(** ** Further properties of [trust-file.c] *)

(** *** What a load accepts and returns *)

(** The fields [sscanf] stores fit the arrays [name[4097]] and [sha[65]]
    with their terminator, hold no white space, and are not empty; the
    size is an [unsigned long]. *)
Theorem parsed_fields_fit_their_arrays (buffer name sha : string) (sz : N) :
  sscanf_FILE_READ_FORMAT buffer = Some (name, sz, sha) ->
  1 <= String.length name /\ String.length name + 1 <= 4097
  /\ 1 <= String.length sha /\ String.length sha + 1 <= 65
  /\ (sz <= ULONG_MAX)%N
  /\ all_chars word_char name = true /\ all_chars word_char sha = true.
Proof.
  intros H. apply sscanf_record_ok in H. destruct H as (Hn & Hsz & Hs).
  apply is_word_spec in Hn, Hs. destruct Hn as (Nn & Wn & Ln), Hs as (Ns & Ws & Ls).
  assert (1 <= String.length name) by (destruct name; [congruence | simpl; lia]).
  assert (1 <= String.length sha) by (destruct sha; [congruence | simpl; lia]).
  repeat split; try assumption; lia.
Qed.

Lemma parsed_fields_fit_their_arrays_witness :
  sscanf_FILE_READ_FORMAT ls_line = Some ("/bin/ls", 157984%N, "61a9")
  /\ String.length "/bin/ls" + 1 <= 4097.
Proof.
  assert (H : sscanf_FILE_READ_FORMAT ls_line = Some ("/bin/ls", 157984%N, "61a9"))
    by reflexivity.
  split; [exact H|].
  exact (proj1 (proj2 (parsed_fields_fit_their_arrays ls_line "/bin/ls" "61a9" 157984 H))).
Defined.

Lemma trust_file_load_code (separator tag : ascii) (fs : filesystem) (fpath : string)
    (l : list_t) :
  fst (fst (trust_file_load separator tag fs fpath l))
  = match open_read fs fpath with
    | None => 1%Z
    | Some _ => if well_formed (file_buffers fs fpath) then 0%Z else 2%Z
    end.
Proof.
  unfold trust_file_load, file_buffers.
  destruct (open_read fs fpath); [apply load_buffers_code | reflexivity].
Qed.

(** The return code of [trust_file_load] tells the three cases apart: 1
    when the file cannot be opened (and then the store is as it was and
    the only message is the error), 0 when every buffer read is a comment
    or a record, 2 when one is neither; it does not depend on the store
    loaded into. *)
Theorem load_return_code (separator tag : ascii) (fs : filesystem) (fpath : string)
    (l : list_t) :
  fst (fst (trust_file_load separator tag fs fpath l))
  = match open_read fs fpath with
    | None => 1%Z
    | Some _ => if well_formed (file_buffers fs fpath) then 0%Z else 2%Z
    end
  /\ (open_read fs fpath = None ->
      trust_file_load separator tag fs fpath l
      = (1%Z, l, msg LOG_ERR "Cannot open %s" [fpath]))
  /\ (fst (fst (trust_file_load separator tag fs fpath l)) = 0%Z ->
      map (fun t => fst (fst t)) (parsed (file_buffers fs fpath))
      = record_keys (file_buffers fs fpath)).
Proof.
  split; [apply trust_file_load_code|]. split.
  - unfold trust_file_load. intros ->. reflexivity.
  - rewrite trust_file_load_code. intros H. apply parsed_keys_well_formed.
    destruct (open_read fs fpath); [|discriminate].
    destruct (well_formed (file_buffers fs fpath)); [reflexivity | discriminate].
Qed.

Lemma load_buffers_skips_comments (separator tag : ascii) (fpath : string)
    (bufs : list string) (l : list_t) :
  load_buffers separator tag fpath bufs l
  = load_buffers separator tag fpath (filter (fun b => negb (is_comment b)) bufs) l.
Proof.
  revert l. induction bufs as [|b bufs IH]; intros l; [reflexivity|].
  cbn [filter load_buffers]. destruct (is_comment b) eqn:E; cbn [negb]; [apply IH|].
  cbn [load_buffers]. rewrite E.
  destruct (sscanf_FILE_READ_FORMAT b) as [[[name sz] sha]|]; [|reflexivity].
  destruct (list_contains l name); [rewrite IH; reflexivity|].
  destruct (list_append l name _). apply IH.
Qed.

Lemma full_lines_buffers (lines : list string) :
  Forall full_line lines ->
  fgets_all (BUFFER_SIZE - 1) (text_of lines) = lines.
Proof.
  intros H. rewrite <- (append_nil_r (text_of lines)).
  rewrite (fgets_all_lines _ lines _ read_cap_pos H), fgets_all_empty. apply app_nil_r.
Qed.

(** Comment lines do not count: a file of whole lines loads exactly as
    the same file without its comment lines (lines that begin with a
    control character, blank lines among them, or with '#'), with the
    same return code, store and messages. *)
Theorem load_ignores_comment_lines (separator tag : ascii) (fs : filesystem)
    (fpath : string) (f : file) (lines : list string) (l : list_t) :
  open_read fs fpath = Some f ->
  f_data f = text_of lines ->
  Forall full_line lines ->
  trust_file_load separator tag fs fpath l
  = trust_file_load separator tag
      (store fs fpath (text_of (filter (fun b => negb (is_comment b)) lines))) fpath l.
Proof.
  intros Hopen Hdata Hlines. unfold trust_file_load.
  rewrite (open_read_store fs fpath _ f Hopen), Hopen, Hdata. cbn [f_data set_data].
  rewrite (full_lines_buffers lines Hlines).
  rewrite full_lines_buffers.
  - apply load_buffers_skips_comments.
  - rewrite Forall_forall in *. intros b Hb. apply filter_In in Hb. apply Hlines. tauto.
Qed.

Lemma load_ignores_comment_lines_witness :
  trust_file_load ":" "1" commented_file "/t" []
  = trust_file_load ":" "1" (store commented_file "/t" (ls_line +++ cat_line)) "/t" [].
Proof.
  assert (H1 : open_read commented_file "/t"
               = Some (readable (remark_line +++ ls_line +++ nl +++ cat_line)))
    by reflexivity.
  assert (H3 : Forall full_line [remark_line; ls_line; nl; cat_line]).
  { repeat constructor.
    - exists "# trusted". split; [reflexivity|]. split; [reflexivity|].
      apply Nat.leb_le. vm_compute. reflexivity.
    - exists "/bin/ls 157984 61a9". split; [reflexivity|]. split; [reflexivity|].
      apply Nat.leb_le. vm_compute. reflexivity.
    - exists "". split; [reflexivity|]. split; [reflexivity|].
      apply Nat.leb_le. vm_compute. reflexivity.
    - exists "/bin/cat 1 ab". split; [reflexivity|]. split; [reflexivity|].
      apply Nat.leb_le. vm_compute. reflexivity. }
  exact (load_ignores_comment_lines ":" "1" commented_file "/t" _
           [remark_line; ls_line; nl; cat_line] [] H1 eq_refl H3).
Defined.

Lemma merge_in_absorbs (rs d : list_t) :
  (forall it, In it rs -> In (fst it) (keys d)) -> merge_in d rs = d.
Proof.
  unfold merge_in. induction rs as [|r rs IH]; intros H; [reflexivity|]. cbn [fold_left].
  destruct (add_item_cases d r) as [[_ ->]|[Hn _]].
  - apply IH. intros it Hit. apply H. right. exact Hit.
  - exfalso. apply Hn, H. left. reflexivity.
Qed.

(** Loading a file a second time into the store it was loaded into
    changes nothing: same return code, same store, and one duplicate
    warning for every record read. *)
Theorem load_twice_adds_nothing (separator tag : ascii) (fs : filesystem)
    (fpath : string) (l : list_t) :
  let once := trust_file_load separator tag fs fpath l in
  let twice := trust_file_load separator tag fs fpath (snd (fst once)) in
  fst (fst twice) = fst (fst once)
  /\ snd (fst twice) = snd (fst once)
  /\ duplicate_warnings (snd twice) = List.length (file_records separator tag fs fpath).
Proof.
  intros once twice.
  assert (Hstore : snd (fst twice) = snd (fst once)).
  { unfold twice, once. rewrite !trust_file_load_store. apply merge_in_absorbs.
    intros it Hit. apply merge_in_keys. rewrite keys_app. apply in_or_app. right.
    apply in_map. exact Hit. }
  split; [unfold twice, once; rewrite !trust_file_load_code; reflexivity|].
  split; [exact Hstore|].
  pose proof (trust_file_load_duplicates separator tag fs fpath (snd (fst once))) as H.
  fold twice in H. rewrite Hstore in H. lia.
Qed.

(** *** The order of the walk *)

Lemma regular_files_In (w : walk) (fpath : string) :
  In fpath (regular_files w) <-> In (fpath, FTW_F) w.
Proof.
  unfold regular_files. rewrite in_flat_map. split.
  - intros ([q flag] & Hin & Hq). destruct flag; simpl in Hq; try tauto.
    destruct Hq as [<-|[]]. exact Hin.
  - intros H. exists (fpath, FTW_F). split; [exact H | left; reflexivity].
Qed.

Lemma all_records_keys (separator tag : ascii) (fs : filesystem) (w : walk) (k : string) :
  In k (keys (all_records separator tag fs w))
  <-> exists fpath, In fpath (trust_files w)
                    /\ In k (keys (file_records separator tag fs fpath)).
Proof.
  unfold all_records, keys. rewrite in_map_iff. split.
  - intros (it & <- & Hin). apply in_flat_map in Hin. destruct Hin as (q & Hq & Hit).
    exists q. split; [exact Hq | apply in_map; exact Hit].
  - intros (q & Hq & Hk). apply in_map_iff in Hk. destruct Hk as (it & <- & Hit).
    exists it. split; [reflexivity|]. apply in_flat_map. eauto.
Qed.

Lemma load_all_list_keys (separator tag : ascii) (fs : filesystem) (w : walk)
    (g : list_t) (k : string) :
  In k (keys (fst (load_all_list separator tag fs w g)))
  <-> exists fpath, In fpath (trust_files w)
                    /\ In k (keys (file_records separator tag fs fpath)).
Proof.
  rewrite load_all_list_store, merge_in_keys. apply all_records_keys.
Qed.

(** The paths [trust_file_load_all] collects do not depend on the order in
    which the walk meets the files: two walks over the same entries give
    stores with the same keys and as many records.  (Which record a key
    denotes does depend on it: the first one read.) *)
Theorem load_all_keys_any_order (separator tag : ascii) (fs : filesystem)
    (w1 w2 : walk) (g1 g2 : list_t) :
  Permutation w1 w2 ->
  (forall k, In k (keys (fst (load_all_list separator tag fs w1 g1)))
             <-> In k (keys (fst (load_all_list separator tag fs w2 g2))))
  /\ List.length (fst (load_all_list separator tag fs w1 g1))
     = List.length (fst (load_all_list separator tag fs w2 g2)).
Proof.
  intros Hperm.
  assert (Hfiles : forall q, In q (trust_files w1) <-> In q (trust_files w2)).
  { intros q. unfold trust_files. simpl. rewrite !regular_files_In.
    split; intros [H|H]; auto; right.
    - apply (Permutation_in _ Hperm H).
    - apply (Permutation_in _ (Permutation_sym Hperm) H). }
  assert (Hkeys : forall k, In k (keys (fst (load_all_list separator tag fs w1 g1)))
                            <-> In k (keys (fst (load_all_list separator tag fs w2 g2)))).
  { intros k. rewrite !load_all_list_keys.
    split; intros (q & Hq & Hk); exists q; split; try exact Hk; apply Hfiles; exact Hq. }
  split; [exact Hkeys|].
  assert (Hu : forall w g, NoDup (keys (fst (load_all_list separator tag fs w g)))).
  { intros w g. rewrite load_all_list_store. apply merge_in_unique. constructor. }
  pose proof (NoDup_Permutation (Hu w1 g1) (Hu w2 g2) Hkeys) as P.
  apply Permutation_length in P. unfold keys in P. rewrite !length_map in P. exact P.
Qed.

Lemma load_all_keys_any_order_witness :
  Permutation two_fragments_walk (List.rev two_fragments_walk)
  /\ List.length (fst (load_all_list " " "2" two_fragments two_fragments_walk []))
     = List.length (fst (load_all_list " " "2" two_fragments (List.rev two_fragments_walk) [])).
Proof.
  assert (H : Permutation two_fragments_walk (List.rev two_fragments_walk))
    by apply Permutation_rev.
  split; [exact H|].
  exact (proj2 (load_all_keys_any_order " " "2" two_fragments _ _ [] [] H)).
Defined.

(** *** Writing a list out and loading it again *)

Lemma is_comment_append (s r : string) :
  s <> EmptyString -> is_comment (s +++ r) = is_comment s.
Proof. destruct s; [congruence | reflexivity]. Qed.

Lemma line_body_comment (t : string * N * string) (r : string) :
  record_ok t -> is_comment (line_body t +++ r) = is_comment (fst (fst t)).
Proof.
  destruct t as [[name sz] sha]. intros (Hn & _). apply is_word_spec in Hn.
  destruct Hn as (Nn & _). unfold line_body. cbn [fst].
  rewrite append_assoc. apply is_comment_append. exact Nn.
Qed.

Lemma fgets_all_records (ts : list (string * N * string)) (rest : string) :
  Forall (fun t => record_ok t /\ String.length (line_body t) + 1 <= BUFFER_SIZE) ts ->
  fgets_all (BUFFER_SIZE - 1) (text_of (map (fun t => line_body t +++ nl) ts) +++ rest)
  = flat_map line_buffers ts ++ fgets_all (BUFFER_SIZE - 1) rest.
Proof.
  induction 1 as [|t ts [Hok Hlen] _ IH]; [reflexivity|].
  cbn [map text_of fold_right flat_map].
  fold (text_of (map (fun t => line_body t +++ nl) ts)).
  rewrite append_assoc. pose proof (line_body_no_newline t Hok) as Hnl.
  unfold line_buffers. destruct (Nat.ltb_spec (String.length (line_body t)) (BUFFER_SIZE - 1)).
  - rewrite (fgets_all_line _ _ _ read_cap_pos Hnl H), IH. reflexivity.
  - rewrite (fgets_all_long_line _ _ _ read_cap_pos Hnl ltac:(lia)), IH. reflexivity.
Qed.

Lemma parsed_line_buffers (t : string * N * string) (bufs : list string) :
  record_ok t -> plain_key (fst (fst t)) = true ->
  parsed (line_buffers t ++ bufs) = t :: parsed bufs
  /\ well_formed (line_buffers t ++ bufs) = well_formed bufs.
Proof.
  intros Hok Hplain. unfold plain_key in Hplain. apply negb_true_iff in Hplain.
  pose proof (line_body_comment t nl Hok) as C1. rewrite Hplain in C1.
  pose proof (line_body_comment t EmptyString Hok) as C2.
  rewrite append_nil_r, Hplain in C2.
  pose proof (sscanf_line_body t nl Hok eq_refl) as S1.
  pose proof (sscanf_line_body t EmptyString Hok eq_refl) as S2.
  rewrite append_nil_r in S2.
  unfold line_buffers. destruct (String.length (line_body t) <? BUFFER_SIZE - 1).
  - cbn [List.app parsed well_formed forallb]. rewrite C1, S1. split; reflexivity.
  - cbn [List.app parsed well_formed forallb]. rewrite C2, S2.
    change (is_comment nl) with true. split; reflexivity.
Qed.

Lemma parsed_records (ts : list (string * N * string)) (bufs : list string) :
  Forall (fun t => record_ok t /\ plain_key (fst (fst t)) = true) ts ->
  parsed (flat_map line_buffers ts ++ bufs) = ts ++ parsed bufs
  /\ well_formed (flat_map line_buffers ts ++ bufs) = well_formed bufs.
Proof.
  induction 1 as [|t ts [Hok Hplain] _ [IH1 IH2]]; [split; reflexivity|].
  cbn [flat_map]. rewrite <- app_assoc.
  destruct (parsed_line_buffers t (flat_map line_buffers ts ++ bufs) Hok Hplain) as [E1 E2].
  rewrite E1, E2, IH1, IH2. split; reflexivity.
Qed.

Lemma load_buffers_quiet (separator tag : ascii) (fpath : string) (bufs : list string)
    (l : list_t) :
  well_formed bufs = true ->
  NoDup (keys l ++ map (fun t => fst (fst t)) (parsed bufs)) ->
  snd (load_buffers separator tag fpath bufs l) = [].
Proof.
  revert l. induction bufs as [|b bufs IH]; intros l Hwf Hu; [reflexivity|].
  cbn [well_formed forallb] in Hwf. apply andb_true_iff in Hwf. destruct Hwf as [Hb Hwf].
  cbn [load_buffers parsed] in *. destruct (is_comment b); [apply IH; assumption|].
  destruct (sscanf_FILE_READ_FORMAT b) as [[[name sz] sha]|]; [|discriminate].
  cbn [map fst] in Hu.
  assert (Hn : list_contains l name = false).
  { apply list_contains_false. intros Hin. apply NoDup_remove_2 in Hu.
    apply Hu. apply in_or_app. left. exact Hin. }
  unfold list_append. rewrite Hn. apply IH; [exact Hwf|].
  rewrite keys_app. cbn [keys map fst]. rewrite <- app_assoc. exact Hu.
Qed.

Lemma map_item_of_keys (separator tag : ascii) (ts : list (string * N * string)) :
  keys (map (item_of separator tag) ts) = map (fun t => fst (fst t)) ts.
Proof.
  unfold keys. rewrite map_map. apply map_ext. intros t. apply fst_item_of.
Qed.

(** A file that holds the header and the lines of records with distinct
    plain keys loads as these records, in order, without a message. *)
Lemma reload_records (separator tag : ascii) (fs : filesystem) (fpath : string) (f : file)
    (ts : list (string * N * string)) :
  open_read fs fpath = Some f ->
  Forall (fun t => record_ok t /\ plain_key (fst (fst t)) = true
                   /\ String.length (line_body t) + 1 <= BUFFER_SIZE) ts ->
  NoDup (map (fun t => fst (fst t)) ts) ->
  trust_file_load separator tag
    (store fs fpath (HEADER +++ text_of (map (fun t => line_body t +++ nl) ts))) fpath []
  = (0%Z, map (item_of separator tag) ts, []).
Proof.
  intros Hopen Hts Hu. unfold trust_file_load.
  rewrite (open_read_store fs fpath _ f Hopen). cbn [f_data set_data].
  rewrite header_buffers.
  rewrite <- (append_nil_r (text_of _)), fgets_all_records, fgets_all_empty, app_nil_r
    by (revert Hts; apply Forall_impl; tauto).
  assert (Hp : parsed (flat_map line_buffers ts ++ []) = ts ++ parsed []
               /\ well_formed (flat_map line_buffers ts ++ []) = well_formed [])
    by (apply parsed_records; revert Hts; apply Forall_impl; tauto).
  rewrite !app_nil_r in Hp. destruct Hp as [Hp Hwf].
  set (bufs := [HEADER1; HEADER2; HEADER3; HEADER4] ++ flat_map line_buffers ts).
  assert (Hp' : parsed bufs = ts) by exact Hp.
  assert (Hwf' : well_formed bufs = true) by exact Hwf.
  pose proof (load_buffers_code separator tag fpath bufs []) as Hc.
  pose proof (load_buffers_store separator tag fpath bufs []) as Hs.
  pose proof (load_buffers_quiet separator tag fpath bufs [] Hwf') as Hq.
  rewrite Hwf' in Hc. rewrite Hp' in Hs, Hq. specialize (Hq Hu).
  rewrite merge_in_nil_unique in Hs by (rewrite map_item_of_keys; exact Hu).
  destruct (load_buffers separator tag fpath bufs []) as [[rc st] lg].
  cbn [fst snd] in *. subst rc st lg. reflexivity.
Qed.

Lemma fits_line_body (separator tag : ascii) (t : string * N * string) :
  fits (item_of separator tag t) = true ->
  String.length (line_body t) + 1 <= BUFFER_SIZE.
Proof.
  unfold fits. rewrite line_of_item_of, length_append.
  change (String.length nl) with 1. apply Nat.leb_le.
Qed.

Lemma lines_of_items (separator tag : ascii) (ts : list (string * N * string)) :
  map line_of (map (item_of separator tag) ts) = map (fun t => line_body t +++ nl) ts.
Proof. rewrite map_map. apply map_ext. intros t. apply line_of_item_of. Qed.

(** What [write_out_list] writes, [trust_file_load] reads back: for
    records of the text format with distinct keys, none of which begins
    like a comment, and lines that fit the buffer, the file written loads
    (return code 0, no message) as the same paths, sizes and hashes in the
    same order, whatever source tag the items written carried. *)
Theorem write_then_load_round_trip (separator tag tag' : ascii) (fs : filesystem)
    (dest : string) (f : file) (ts : list (string * N * string)) :
  open_write fs dest = true ->
  open_read fs dest = Some f ->
  Forall record_ok ts ->
  forallb (fun t => plain_key (fst (fst t))) ts = true ->
  NoDup (map (fun t => fst (fst t)) ts) ->
  forallb fits (map (item_of separator tag') ts) = true ->
  exists fs',
    write_out_list fs (map (item_of separator tag') ts) dest
    = Done (0%Z, map (item_of separator tag') ts, fs', [])
    /\ trust_file_load separator tag fs' dest [] = (0%Z, map (item_of separator tag) ts, []).
Proof.
  intros Hw Hr Hok Hplain Hu Hfit.
  rewrite forallb_forall in Hplain, Hfit. rewrite Forall_forall in Hok.
  unfold write_out_list. rewrite Hw.
  rewrite write_items_encoded
    by (apply Forall_forall; intros t Ht; apply Hfit, in_map, Ht).
  cbn [bind]. eexists. split; [reflexivity|].
  rewrite lines_of_items. apply (reload_records separator tag fs dest f ts Hr); [|exact Hu].
  apply Forall_forall. intros t Ht. split; [apply Hok, Ht|]. split; [apply Hplain, Ht|].
  apply (fits_line_body separator tag'), Hfit, in_map, Ht.
Qed.

Lemma write_then_load_round_trip_witness :
  open_write one_file "/t" = true
  /\ Forall record_ok [("/bin/ls", 157984%N, "61a9"); ("/bin/cat", 1%N, "ab")]
  /\ exists fs',
       write_out_list one_file
         (map (item_of " " "0") [("/bin/ls", 157984%N, "61a9"); ("/bin/cat", 1%N, "ab")])
         "/t"
       = Done (0%Z, [("/bin/ls", Some "0 157984 61a9"); ("/bin/cat", Some "0 1 ab")], fs', [])
       /\ trust_file_load " " "2" fs' "/t" []
          = (0%Z, [("/bin/ls", Some "2 157984 61a9"); ("/bin/cat", Some "2 1 ab")], []).
Proof.
  assert (H1 : open_write one_file "/t" = true) by reflexivity.
  assert (H2 : Forall record_ok [("/bin/ls", 157984%N, "61a9"); ("/bin/cat", 1%N, "ab")]).
  { repeat constructor; vm_compute; congruence. }
  assert (H3 : NoDup (map (fun t : string * N * string => fst (fst t))
                        [("/bin/ls", 157984%N, "61a9"); ("/bin/cat", 1%N, "ab")])).
  { repeat constructor; simpl; intuition discriminate. }
  split; [exact H1|]. split; [exact H2|].
  exact (write_then_load_round_trip " " "2" "0" one_file "/t" _ _
           H1 eq_refl H2 eq_refl H3 eq_refl).
Defined.

Lemma surviving_all (p : string) (l : list_t) : matching p l = [] -> surviving p l = l.
Proof.
  intros H. rewrite <- matching_none in H. unfold surviving.
  apply forallb_filter_id. apply forallb_forall. intros it Hit.
  rewrite (H it Hit). reflexivity.
Qed.

Lemma loaded_unique (separator tag : ascii) (fs : filesystem) (fpath : string) :
  NoDup (keys (snd (fst (trust_file_load separator tag fs fpath [])))).
Proof. rewrite trust_file_load_store. apply merge_in_unique. constructor. Qed.

(** What [trust_file_delete_path] leaves in the file is what a load finds
    there afterwards: when the surviving records fit the buffer and none
    of their keys begins like a comment, the store loaded from the file
    after the call is the list of the records that were loaded before and
    have not the prefix, in their order; and when the file was rewritten
    that load returns 0 without a message, also if the file held a
    malformed line before. *)
Theorem delete_then_load (separator SRC_FILE_DB : ascii) (fs : filesystem)
    (fpath p : string) :
  let loaded := snd (fst (trust_file_load separator SRC_FILE_DB fs fpath [])) in
  let count := Z.of_nat (List.length (matching p loaded)) in
  (count <> 0%Z -> open_write fs fpath = true) ->
  forallb fits (surviving p loaded) = true ->
  forallb (fun it => plain_key (fst it)) (surviving p loaded) = true ->
  exists fs' lg,
    trust_file_delete_path separator SRC_FILE_DB fs fpath p = Done (count, fs', lg)
    /\ snd (fst (trust_file_load separator SRC_FILE_DB fs' fpath [])) = surviving p loaded
    /\ (count <> 0%Z ->
        trust_file_load separator SRC_FILE_DB fs' fpath [] = (0%Z, surviving p loaded, [])).
Proof.
  intros loaded count Hw Hfit Hplain. subst count.
  rewrite trust_file_delete_path_unfold. cbv zeta. fold loaded.
  destruct (matching p loaded) as [|m ms] eqn:Em.
  - exists fs. eexists. split; [reflexivity|]. split.
    + fold loaded. symmetry. apply surviving_all, Em.
    + intros H. exfalso. apply H. reflexivity.
  - rewrite forallb_forall in Hfit, Hplain.
    assert (Hitems : Forall (fun it =>
              (exists t, record_ok t /\ it = item_of separator SRC_FILE_DB t)
              /\ (plain_key (fst it) = true /\ fits it = true))
              (surviving p loaded)).
    { apply Forall_forall. intros it Hin. split; [|split; [apply Hplain | apply Hfit]; exact Hin].
      apply surviving_In in Hin.
      apply (loaded_item_ok separator SRC_FILE_DB fs fpath). tauto. }
    assert (Hu : NoDup (keys (surviving p loaded)))
      by apply filter_keys_unique, loaded_unique.
    destruct (encoded_list _ _ _ _ Hitems) as (ts & Ets & Hts). rewrite Ets in *.
    destruct (loaded_nonempty_opens separator SRC_FILE_DB fs fpath) as [f Hf].
    { fold loaded. intros E. rewrite E in Em. discriminate. }
    unfold write_out_list. rewrite Hw by (cbn [List.length]; lia).
    rewrite write_items_encoded
      by (revert Hts; apply Forall_impl; tauto).
    cbn [bind fst snd]. eexists. eexists. split; [reflexivity|].
    rewrite lines_of_items.
    assert (Hload := reload_records separator SRC_FILE_DB fs fpath f ts Hf).
    rewrite Hload.
    + split; [reflexivity | intros _; reflexivity].
    + revert Hts. apply Forall_impl. intros t (Hok & Hpl & Hft).
      rewrite fst_item_of in Hpl. split; [exact Hok|]. split; [exact Hpl|].
      apply (fits_line_body separator SRC_FILE_DB), Hft.
    + rewrite <- map_item_of_keys with (separator := separator) (tag := SRC_FILE_DB).
      exact Hu.
Qed.

Lemma delete_then_load_witness :
  forallb fits (surviving "/a/b" (snd (fst (trust_file_load " " "2" one_file "/t" []))))
  = true
  /\ exists fs' lg,
       trust_file_delete_path " " "2" one_file "/t" "/a/b" = Done (2%Z, fs', lg)
       /\ snd (fst (trust_file_load " " "2" fs' "/t" [])) = [("/x", Some "2 3 cc")].
Proof.
  assert (H1 : Z.of_nat (List.length
                            (matching "/a/b"
                               (snd (fst (trust_file_load " " "2" one_file "/t" [])))))
               <> 0%Z -> open_write one_file "/t" = true) by reflexivity.
  assert (H2 : forallb fits
                 (surviving "/a/b" (snd (fst (trust_file_load " " "2" one_file "/t" []))))
               = true) by (vm_compute; reflexivity).
  assert (H3 : forallb (fun it : list_item_t => plain_key (fst it))
                 (surviving "/a/b" (snd (fst (trust_file_load " " "2" one_file "/t" []))))
               = true) by (vm_compute; reflexivity).
  split; [exact H2|].
  pose proof (delete_then_load " " "2" one_file "/t" "/a/b" H1 H2 H3) as T.
  cbv zeta in T. destruct T as (fs' & lg & Hd & Hs & _).
  exists fs', lg. split; [exact Hd | exact Hs].
Defined.

Lemma refreshable_reachable (get_hash_from_fd : string -> string) (fs : filesystem)
    (it : list_item_t) :
  is_word 4096 (fst it) = true ->
  refreshable get_hash_from_fd fs it = true ->
  reachable fs it = true
  /\ record_ok (current_record get_hash_from_fd fs (fst it))
  /\ fst (fst (current_record get_hash_from_fd fs (fst it))) = fst it
  /\ current_line get_hash_from_fd fs (fst it)
     = line_body (current_record get_hash_from_fd fs (fst it)) +++ nl.
Proof.
  unfold refreshable, reachable, current_record, current_line. intros Hk.
  destruct (open_read fs (fst it)) as [f|]; [|discriminate].
  intros H. apply andb_true_iff in H. destruct H as [H Hh].
  apply andb_true_iff in H. destruct H as [Hs Hz]. apply N.leb_le in Hz.
  split; [exact Hs|]. split; [simpl; auto|]. split; [reflexivity|].
  unfold FILE_WRITE_FORMAT, line_body. rewrite !append_assoc. reflexivity.
Qed.

(** The records behind the list [trust_file_update_path] writes. *)
Lemma refreshed_records (separator tag : ascii) (get_hash_from_fd : string -> string)
    (fs : filesystem) (p : string) (l : list_t) :
  (forall it, In it l -> exists t, record_ok t /\ it = item_of separator tag t) ->
  forallb (refreshable get_hash_from_fd fs) (matching p l) = true ->
  exists ts,
    map (fun t => line_body t +++ nl) ts = map (updated_line get_hash_from_fd fs p) l
    /\ map (item_of separator tag) ts = refreshed separator tag get_hash_from_fd fs p l
    /\ Forall record_ok ts
    /\ map (fun t => fst (fst t)) ts = keys l
    /\ forallb (reachable fs) (matching p l) = true.
Proof.
  unfold refreshed, updated_line, matching, keys.
  induction l as [|it l IH]; intros Henc Href.
  - exists []. repeat split; constructor.
  - cbn [filter map] in *.
    destruct (Henc it (or_introl eq_refl)) as (t & Hok & Eit).
    assert (Hk : is_word 4096 (fst it) = true).
    { rewrite Eit, fst_item_of. destruct t as [[name sz] sha]. apply Hok. }
    destruct (starts_with p (fst it)) eqn:E.
    + cbn [forallb] in Href |- *. apply andb_true_iff in Href. destruct Href as [Hr Href].
      destruct (IH (fun x Hx => Henc x (or_intror Hx)) Href) as (ts & L1 & L2 & L3 & L4 & L5).
      destruct (refreshable_reachable get_hash_from_fd fs it Hk Hr) as (R1 & R2 & R3 & R4).
      exists (current_record get_hash_from_fd fs (fst it) :: ts).
      cbn [map]. rewrite L1, L2, L4, R3, R4, R1, L5.
      repeat split. constructor; assumption.
    + destruct (IH (fun x Hx => Henc x (or_intror Hx)) Href) as (ts & L1 & L2 & L3 & L4 & L5).
      exists (t :: ts). cbn [map]. rewrite L1, L2, L4, Eit, line_of_item_of, fst_item_of.
      repeat split; [constructor; assumption | exact L5].
Qed.

Lemma refreshed_none (separator tag : ascii) (get_hash_from_fd : string -> string)
    (fs : filesystem) (p : string) (l : list_t) :
  matching p l = [] -> refreshed separator tag get_hash_from_fd fs p l = l.
Proof.
  intros H. rewrite <- matching_none in H. unfold refreshed.
  rewrite <- (map_id l) at 2. apply map_ext_in. intros it Hit.
  rewrite (H it Hit). reflexivity.
Qed.

(** What [trust_file_update_path] writes is what a load finds afterwards:
    when the paths under the prefix can be opened and their size read, the
    hash provider returns a word of at most 64 bytes, the lines fit the
    buffer and no key begins like a comment, the store loaded from the file
    after the call is the store loaded before, in the same order, where
    every record under the prefix carries the size and the hash its file
    has now and every other record is as it was. *)
Theorem update_then_load (separator SRC_FILE_DB : ascii)
    (get_hash_from_fd : string -> string) (fs : filesystem) (fpath p : string) :
  let loaded := snd (fst (trust_file_load separator SRC_FILE_DB fs fpath [])) in
  let count := Z.of_nat (List.length (matching p loaded)) in
  (count <> 0%Z -> open_write fs fpath = true) ->
  forallb (refreshable get_hash_from_fd fs) (matching p loaded) = true ->
  forallb fits (updated separator get_hash_from_fd fs p loaded) = true ->
  forallb (fun it => plain_key (fst it)) loaded = true ->
  exists fs' lg,
    trust_file_update_path separator SRC_FILE_DB get_hash_from_fd fs fpath p
    = Done (count, fs', lg)
    /\ snd (fst (trust_file_load separator SRC_FILE_DB fs' fpath []))
       = refreshed separator SRC_FILE_DB get_hash_from_fd fs p loaded.
Proof.
  intros loaded count Hw Href Hfit Hplain. subst count.
  assert (Henc : forall it, In it loaded ->
                            exists t, record_ok t /\ it = item_of separator SRC_FILE_DB t)
    by (intros it; apply loaded_item_ok).
  rewrite trust_file_update_path_unfold. cbv zeta. fold loaded.
  destruct (matching p loaded) as [|m ms] eqn:Em.
  - exists fs. eexists. split; [reflexivity|]. fold loaded.
    symmetry. apply refreshed_none, Em.
  - rewrite <- Em in Href.
    destruct (refreshed_records separator SRC_FILE_DB get_hash_from_fd fs p loaded Henc Href)
      as (ts & L1 & L2 & L3 & L4 & Hreach).
    destruct (updated_lines separator SRC_FILE_DB get_hash_from_fd fs p loaded Henc Hreach)
      as [Hlines Htwo].
    assert (Hwrite : write_items (updated separator get_hash_from_fd fs p loaded)
                     = Done (text_of (map (updated_line get_hash_from_fd fs p) loaded))).
    { rewrite <- Hlines. apply write_items_fitting.
      rewrite forallb_forall in Hfit. rewrite Forall_forall in *.
      intros it Hin. split; [apply Htwo, Hin | apply Hfit, Hin]. }
    destruct (loaded_nonempty_opens separator SRC_FILE_DB fs fpath) as [f Hf].
    { fold loaded. intros E. rewrite E in Em. discriminate. }
    unfold write_out_list. rewrite Hw, Hwrite by (cbn [List.length]; lia).
    cbn [bind fst snd]. eexists. eexists. split; [reflexivity|].
    rewrite <- L1, <- L2.
    rewrite (reload_records separator SRC_FILE_DB fs fpath f ts Hf); [reflexivity| |].
    + assert (Hp : Forall (fun t => plain_key (fst (fst t)) = true) ts).
      { apply Forall_map with (f := fun t : string * N * string => fst (fst t))
                              (P := fun k => plain_key k = true).
        rewrite L4. apply Forall_map. apply Forall_forall.
        rewrite forallb_forall in Hplain. exact Hplain. }
      assert (Hl : Forall (fun t => String.length (line_body t) + 1 <= BUFFER_SIZE) ts).
      { assert (Hall : Forall (fun s => String.length s <= BUFFER_SIZE)
                         (map (fun t => line_body t +++ nl) ts)).
        { rewrite L1, <- Hlines. apply Forall_map. apply Forall_forall.
          rewrite forallb_forall in Hfit. intros it Hit. apply Nat.leb_le.
          apply (Hfit it Hit). }
        apply Forall_map in Hall. revert Hall. apply Forall_impl. intros t.
        rewrite length_append. change (String.length nl) with 1. tauto. }
      rewrite Forall_forall in *. intros t Ht. auto.
    + rewrite L4. apply loaded_unique.
Qed.

Lemma update_then_load_witness :
  forallb (refreshable hash_of one_file)
    (matching "/x" (snd (fst (trust_file_load " " "2" one_file "/t" [])))) = true
  /\ exists fs' lg,
       trust_file_update_path " " "2" hash_of one_file "/t" "/x" = Done (1%Z, fs', lg)
       /\ snd (fst (trust_file_load " " "2" fs' "/t" []))
          = [("/a/b", Some "2 1 aa"); ("/a/bc", Some "2 2 bb"); ("/x", Some "2 5 61a9960b")].
Proof.
  assert (H1 : Z.of_nat (List.length
                            (matching "/x"
                               (snd (fst (trust_file_load " " "2" one_file "/t" [])))))
               <> 0%Z -> open_write one_file "/t" = true) by reflexivity.
  assert (H2 : forallb (refreshable hash_of one_file)
                 (matching "/x" (snd (fst (trust_file_load " " "2" one_file "/t" []))))
               = true) by (vm_compute; reflexivity).
  assert (H3 : forallb fits
                 (updated " " hash_of one_file "/x"
                    (snd (fst (trust_file_load " " "2" one_file "/t" [])))) = true)
    by (vm_compute; reflexivity).
  assert (H4 : forallb (fun it : list_item_t => plain_key (fst it))
                 (snd (fst (trust_file_load " " "2" one_file "/t" []))) = true)
    by (vm_compute; reflexivity).
  split; [exact H2|].
  pose proof (update_then_load " " "2" hash_of one_file "/t" "/x" H1 H2 H3 H4) as T.
  cbv zeta in T. destruct T as (fs' & lg & Hu & Hs).
  exists fs', lg. split; [exact Hu | exact Hs].
Defined.

(** *** What a rewrite keeps and what it loses *)

Lemma delete_path_rewrites (separator SRC_FILE_DB : ascii) (fs : filesystem)
    (fpath p : string) :
  let loaded := snd (fst (trust_file_load separator SRC_FILE_DB fs fpath [])) in
  matching p loaded <> [] ->
  open_write fs fpath = true ->
  forallb fits (surviving p loaded) = true ->
  trust_file_delete_path separator SRC_FILE_DB fs fpath p
  = Done (Z.of_nat (List.length (matching p loaded)),
          store fs fpath (HEADER +++ text_of (map line_of (surviving p loaded))),
          snd (trust_file_load separator SRC_FILE_DB fs fpath []) ++ []).
Proof.
  intros loaded Hm Hw Hfit.
  rewrite trust_file_delete_path_unfold. cbv zeta. fold loaded.
  destruct (matching p loaded) as [|m ms] eqn:Em; [congruence|].
  assert (Hwrite : write_items (surviving p loaded)
                   = Done (text_of (map line_of (surviving p loaded)))).
  { apply (write_items_loaded separator SRC_FILE_DB). apply Forall_forall. intros it Hin.
    rewrite forallb_forall in Hfit. split; [|apply Hfit, Hin].
    apply surviving_In in Hin.
    apply (loaded_item_ok separator SRC_FILE_DB fs fpath). tauto. }
  unfold write_out_list. rewrite Hw, Hwrite. reflexivity.
Qed.

Lemma parsed_malformed (good : list string) (bad : string) (more : list string) :
  well_formed good = true ->
  is_comment bad = false ->
  sscanf_FILE_READ_FORMAT bad = None ->
  parsed (good ++ bad :: more) = parsed good.
Proof.
  intros Hwf Hc Hs. induction good as [|b good IH]; simpl.
  - rewrite Hc, Hs. reflexivity.
  - simpl in Hwf. apply andb_true_iff in Hwf. destruct Hwf as [Hb Hwf].
    destruct (is_comment b); [apply IH, Hwf|].
    destruct (sscanf_FILE_READ_FORMAT b); [|discriminate]. rewrite (IH Hwf). reflexivity.
Qed.

(** A rewrite loses what follows a malformed line.  In a file made of
    well-formed lines, a malformed line and anything after it, where a
    record before the malformed line has the prefix: after
    [trust_file_delete_path] the file is the header and the lines of the
    surviving records read before the malformed line, so the malformed
    line and every line after it are gone, whatever they were. *)
Theorem rewrite_drops_what_follows_a_malformed_line
    (separator SRC_FILE_DB : ascii) (fs : filesystem) (fpath p : string) (f : file)
    (good : list string) (bad rest : string) :
  let kept := merge_in [] (map (item_of separator SRC_FILE_DB) (parsed good)) in
  open_read fs fpath = Some f ->
  f_data f = text_of good +++ bad +++ rest ->
  Forall full_line good ->
  well_formed good = true ->
  full_line bad ->
  is_comment bad = false ->
  sscanf_FILE_READ_FORMAT bad = None ->
  matching p kept <> [] ->
  open_write fs fpath = true ->
  forallb fits (surviving p kept) = true ->
  exists lg,
    trust_file_delete_path separator SRC_FILE_DB fs fpath p
    = Done (Z.of_nat (List.length (matching p kept)),
            store fs fpath (HEADER +++ text_of (map line_of (surviving p kept))), lg).
Proof.
  intros kept Hopen Hdata Hgood Hwf Hbad Hc Hparse Hm Hw Hfit.
  assert (Hloaded : snd (fst (trust_file_load separator SRC_FILE_DB fs fpath [])) = kept).
  { rewrite trust_file_load_store. unfold file_records, file_buffers.
    rewrite Hopen, Hdata. rewrite (fgets_all_lines _ good _ read_cap_pos Hgood).
    destruct Hbad as (body & -> & Hb & Hl).
    rewrite fgets_all_line; [| exact read_cap_pos | exact Hb |].
    - rewrite parsed_malformed by assumption. reflexivity.
    - rewrite length_append in Hl. change (String.length nl) with 1 in Hl. lia. }
  pose proof (delete_path_rewrites separator SRC_FILE_DB fs fpath p) as H.
  cbv zeta in H. rewrite Hloaded in H. eexists. apply H; assumption.
Qed.

Lemma rewrite_drops_what_follows_a_malformed_line_witness :
  open_read broken_file "/t" = Some (readable (ls_line +++ garbage_line +++ cat_line))
  /\ sscanf_FILE_READ_FORMAT garbage_line = None
  /\ exists lg,
       trust_file_delete_path " " "2" broken_file "/t" "/bin/ls"
       = Done (1%Z, store broken_file "/t" (HEADER +++ EmptyString), lg).
Proof.
  assert (H1 : open_read broken_file "/t"
               = Some (readable (ls_line +++ garbage_line +++ cat_line))) by reflexivity.
  assert (H2 : Forall full_line [ls_line]).
  { constructor; [|constructor]. exists "/bin/ls 157984 61a9".
    split; [reflexivity|]. split; [reflexivity|]. apply Nat.leb_le. vm_compute. reflexivity. }
  assert (H4 : full_line garbage_line).
  { exists "garbage".
    split; [reflexivity|]. split; [reflexivity|]. apply Nat.leb_le. vm_compute. reflexivity. }
  assert (H6 : sscanf_FILE_READ_FORMAT garbage_line = None) by reflexivity.
  split; [exact H1|]. split; [exact H6|].
  refine (rewrite_drops_what_follows_a_malformed_line " " "2" broken_file "/t" "/bin/ls"
            _ [ls_line] garbage_line cat_line H1 eq_refl H2 eq_refl H4 eq_refl H6 _ eq_refl
            eq_refl).
  vm_compute. discriminate.
Defined.

Lemma store_frame (fs : filesystem) (dest content : string) :
  (forall q, q <> dest -> store fs dest content q = fs q)
  /\ option_map flags (store fs dest content dest) = option_map flags (fs dest).
Proof.
  unfold store. split.
  - intros q Hq. apply String.eqb_neq in Hq. rewrite Hq. reflexivity.
  - rewrite String.eqb_refl. destruct (fs dest); reflexivity.
Qed.

Lemma write_out_list_frame (fs fs' : filesystem) (l l' : list_t) (dest : string)
    (rc : Z) (lg : log) :
  write_out_list fs l dest = Done (rc, l', fs', lg) ->
  (forall q, q <> dest -> fs' q = fs q)
  /\ option_map flags (fs' dest) = option_map flags (fs dest).
Proof.
  unfold write_out_list. destruct (open_write fs dest).
  - destruct (write_items l); cbn [bind]; [|discriminate].
    intros H. injection H as _ _ <- _. apply store_frame.
  - intros H. injection H as _ _ <- _. split; reflexivity.
Qed.

(** The two mutators change nothing but the bytes of the file they are
    given: whenever [trust_file_delete_path] or [trust_file_update_path]
    returns, every other path of the file system is as it was, and the
    file itself has kept its existence and its permissions. *)
Theorem mutators_touch_only_their_file
    (separator SRC_FILE_DB : ascii) (get_hash_from_fd : string -> string)
    (fs fs' : filesystem) (fpath p : string) (count : Z) (lg : log) :
  trust_file_delete_path separator SRC_FILE_DB fs fpath p = Done (count, fs', lg)
  \/ trust_file_update_path separator SRC_FILE_DB get_hash_from_fd fs fpath p
     = Done (count, fs', lg) ->
  (forall q, q <> fpath -> fs' q = fs q)
  /\ option_map flags (fs' fpath) = option_map flags (fs fpath).
Proof.
  intros [H|H].
  - rewrite trust_file_delete_path_unfold in H. cbv zeta in H.
    destruct (matching p _).
    + injection H as _ <- _. split; reflexivity.
    + destruct (write_out_list fs _ fpath) as [[[[rc l'] fs1] lg1]|] eqn:E; [|discriminate].
      cbn [bind fst snd] in H. injection H as _ <- _.
      apply (write_out_list_frame _ _ _ _ _ _ _ E).
  - rewrite trust_file_update_path_unfold in H. cbv zeta in H.
    destruct (matching p _).
    + injection H as _ <- _. split; reflexivity.
    + destruct (write_out_list fs _ fpath) as [[[[rc l'] fs1] lg1]|] eqn:E; [|discriminate].
      cbn [bind fst snd] in H. injection H as _ <- _.
      apply (write_out_list_frame _ _ _ _ _ _ _ E).
Qed.

Lemma mutators_touch_only_their_file_witness :
  trust_file_delete_path " " "2" one_file "/t" "/a/b"
  = Done (2%Z, store one_file "/t" (HEADER +++ "/x 3 cc" +++ nl), [])
  /\ forall q, q <> "/t" -> store one_file "/t" (HEADER +++ "/x 3 cc" +++ nl) q = one_file q.
Proof.
  assert (H : trust_file_delete_path " " "2" one_file "/t" "/a/b"
              = Done (2%Z, store one_file "/t" (HEADER +++ "/x 3 cc" +++ nl), []))
    by (vm_compute; reflexivity).
  split; [exact H|].
  exact (proj1 (mutators_touch_only_their_file " " "2" hash_of one_file _ "/t" "/a/b"
                  2%Z [] (or_introl H))).
Defined.

(** *** Lines made from the file system *)

Lemma make_path_string_unreachable (separator : ascii) (get_hash_from_fd : string -> string)
    (fs : filesystem) (it : list_item_t) (count : Z) :
  reachable fs it = false ->
  fst (make_path_string separator get_hash_from_fd fs (fst it) count) = (None, count)
  /\ List.length (snd (make_path_string separator get_hash_from_fd fs (fst it) count)) = 1.
Proof.
  unfold reachable, make_path_string.
  destruct (open_read fs (fst it)) as [f|]; [|split; reflexivity].
  intros ->. split; reflexivity.
Qed.

Lemma make_path_string_line (separator : ascii) (get_hash_from_fd : string -> string)
    (fs : filesystem) (it : list_item_t) (count : Z) :
  reachable fs it = true ->
  count <> 0%Z ->
  make_path_string separator get_hash_from_fd fs (fst it) count
  = (Some (current_line get_hash_from_fd fs (fst it)),
     Z.of_nat (String.length (current_line get_hash_from_fd fs (fst it))), []).
Proof.
  unfold reachable, make_path_string, current_line.
  destruct (open_read fs (fst it)) as [f|]; [|discriminate].
  intros -> Hc. apply Z.eqb_neq in Hc. rewrite Hc. reflexivity.
Qed.

(** [make_path_string] gives the same line in its two formats: for a path
    that can be opened and whose size can be read, the trust file format
    is "<path> <size> <hash>\n" with the size and hash of the file, the
    count returned is the length of that line, and the line
    [write_out_list] writes for the other format (the internal encoding)
    is that very line; when the path is a record of the text format the
    line reads back as path, size and hash.  For a path that cannot be
    opened or whose size cannot be read the result is the null pointer,
    the count is left as it was and one error is logged. *)
Theorem make_path_string_formats_agree
    (separator : ascii) (get_hash_from_fd : string -> string) (fs : filesystem)
    (path : string) (count : Z) :
  count <> 0%Z ->
  let trust := make_path_string separator get_hash_from_fd fs path count in
  let inner := make_path_string separator get_hash_from_fd fs path 0 in
  if reachable fs (path, None) then
    fst trust = (Some (current_line get_hash_from_fd fs path),
                 Z.of_nat (String.length (current_line get_hash_from_fd fs path)))
    /\ line_of (path, fst (fst inner)) = current_line get_hash_from_fd fs path
    /\ (is_word 4096 path = true ->
        refreshable get_hash_from_fd fs (path, None) = true ->
        sscanf_FILE_READ_FORMAT (current_line get_hash_from_fd fs path)
        = Some (current_record get_hash_from_fd fs path))
  else
    fst trust = (None, count) /\ fst inner = (None, 0%Z)
    /\ List.length (snd trust) = 1.
Proof.
  intros Hc trust inner. subst trust inner.
  destruct (reachable fs (path, None)) eqn:Hr.
  - pose proof (make_path_string_line separator get_hash_from_fd fs (path, None) count Hr Hc)
      as H1. cbn [fst] in H1. rewrite H1. split; [reflexivity|]. split.
    + destruct (line_of_rederived separator get_hash_from_fd fs (path, None) Hr) as [L _].
      exact L.
    + intros Hw Href.
      destruct (refreshable_reachable get_hash_from_fd fs (path, None) Hw Href)
        as (_ & Hok & _ & Hl).
      cbn [fst] in Hl, Hok. rewrite Hl. apply sscanf_line_body; [exact Hok | reflexivity].
  - destruct (make_path_string_unreachable separator get_hash_from_fd fs (path, None)
                count Hr) as [A B].
    destruct (make_path_string_unreachable separator get_hash_from_fd fs (path, None)
                0%Z Hr) as [C _].
    cbn [fst] in *. auto.
Qed.

Lemma make_path_string_formats_agree_witness :
  1%Z <> 0%Z
  /\ fst (make_path_string " " hash_of one_file "/x" 1) = (Some ("/x 5 61a9960b" +++ nl), 14%Z)
  /\ line_of ("/x", fst (fst (make_path_string " " hash_of one_file "/x" 0)))
     = "/x 5 61a9960b" +++ nl.
Proof.
  assert (H : 1%Z <> 0%Z) by discriminate.
  split; [exact H|].
  pose proof (make_path_string_formats_agree " " hash_of one_file "/x" 1 H) as T.
  cbv zeta in T. change (reachable one_file ("/x", None)) with true in T. cbv iota in T.
  destruct T as (T1 & T2 & _). split; [exact T1 | exact T2].
Defined.

(** *** Appending *)

Section Appending.
Variable separator : ascii.
Variable get_hash_from_fd : string -> string.
Variable may_create : string -> bool.
Variable wr : nat -> option nat.
Variable fs : filesystem.
Variable fpath : string.

Local Abbreviation make_path_string := (make_path_string separator get_hash_from_fd).
Local Abbreviation append_items := (append_items separator get_hash_from_fd wr).
Local Abbreviation appended_line := (appended_line get_hash_from_fd fs).
Local Abbreviation appended_text := (appended_text get_hash_from_fd fs).
Local Abbreviation current_line := (current_line get_hash_from_fd).

Local Abbreviation same_elsewhere := (same_elsewhere fs fpath).

Lemma make_path_string_local (cur : filesystem) (path : string) (count : Z) :
  cur path = fs path -> make_path_string cur path count = make_path_string fs path count.
Proof.
  intros H. unfold TrustFile.make_path_string, open_read. rewrite H. reflexivity.
Qed.

Lemma substring_full (s : string) (m : nat) : String.length s <= m -> substring 0 m s = s.
Proof.
  revert m. induction s as [|c s IH]; intros m H.
  - destruct m; reflexivity.
  - destruct m as [|m]; [simpl in H; lia|]. simpl. rewrite IH; [reflexivity|].
    simpl in H. lia.
Qed.

Lemma write_append_frame (cur : filesystem) (bytes : string) :
  same_elsewhere cur -> same_elsewhere (write_append cur fpath bytes).
Proof.
  intros H q Hq. unfold write_append. apply String.eqb_neq in Hq. rewrite Hq.
  apply H. apply String.eqb_neq. exact Hq.
Qed.

Lemma write_append_data (cur : filesystem) (f : file) (bytes : string) :
  cur fpath = Some f ->
  write_append cur fpath bytes fpath = Some (set_data f (f_data f +++ bytes)).
Proof. intros H. unfold write_append. rewrite String.eqb_refl, H. reflexivity. Qed.

Lemma append_step (cur : filesystem) (it : list_item_t) (r : list_t) (i : nat) :
  same_elsewhere cur ->
  fst it <> fpath ->
  append_items i cur fpath (it :: r)
  = if reachable fs it then
      match wr i with
      | None => (2%Z, cur, msg LOG_ERR ("failed writing to %s" +++ nl) [fpath])
      | Some n =>
          let written :=
            substring 0 (Nat.min n (String.length (current_line fs (fst it))))
              (current_line fs (fst it)) in
          append_items (S i) (write_append cur fpath written) fpath r
      end
    else
      let '(rc, fs', lg') := append_items i cur fpath r in
      (rc, fs', snd (make_path_string fs (fst it) 1) ++ lg').
Proof.
  intros Hcur Hne. cbn [TrustFile.append_items].
  rewrite (make_path_string_local cur (fst it) 1 (Hcur _ Hne)).
  destruct (reachable fs it) eqn:Hr.
  - rewrite (make_path_string_line separator get_hash_from_fd fs it 1 Hr) by discriminate.
    destruct (wr i) as [n|]; [|reflexivity].
    rewrite Nat2Z.id. cbv zeta.
    destruct (append_items (S i) _ fpath r) as [[rc fs'] lg']. reflexivity.
  - destruct (make_path_string_unreachable separator get_hash_from_fd fs it 1 Hr) as [E _].
    destruct (make_path_string fs (fst it) 1) as [[line c] lg]. cbn [fst snd] in *.
    injection E as -> ->. reflexivity.
Qed.

Lemma append_items_complete (l : list_t) :
  forall (i : nat) (cur : filesystem) (f : file),
    same_elsewhere cur ->
    cur fpath = Some f ->
    ~ In fpath (keys l) ->
    (forall j, complete_write get_hash_from_fd wr fs l j) ->
    fst (fst (append_items i cur fpath l)) = 0%Z
    /\ same_elsewhere (snd (fst (append_items i cur fpath l)))
    /\ snd (fst (append_items i cur fpath l)) fpath
       = Some (set_data f (f_data f +++ appended_text l))
    /\ List.length (snd (append_items i cur fpath l))
       = List.length (filter (fun it => negb (reachable fs it)) l).
Proof.
  induction l as [|it r IH]; intros i cur f Hcur Hf Hnot Hwr.
  - cbn. unfold Store.appended_text. cbn. rewrite append_nil_r.
    repeat split; [exact Hcur | rewrite Hf; destruct f; reflexivity].
  - assert (Hne : fst it <> fpath) by (intros E; apply Hnot; left; exact E).
    assert (Hnot' : ~ In fpath (keys r)) by (intros E; apply Hnot; right; exact E).
    assert (Hwr' : forall j, complete_write get_hash_from_fd wr fs r j).
    { intros j. destruct (Hwr j) as (n & En & Hn). exists n. split; [exact En|].
      intros x Hx. apply Hn. right. exact Hx. }
    rewrite (append_step cur it r i Hcur Hne).
    unfold Store.appended_text. cbn [map text_of fold_right filter].
    fold (Store.appended_text get_hash_from_fd fs r).
    unfold Store.appended_line at 1.
    destruct (reachable fs it) eqn:Hr; cbn [negb].
    + destruct (Hwr i) as (n & En & Hn). rewrite En. cbv zeta.
      assert (Hlen : String.length (current_line fs (fst it)) <= n).
      { specialize (Hn it (or_introl eq_refl)). unfold Store.appended_line in Hn.
        rewrite Hr in Hn. exact Hn. }
      rewrite Nat.min_r by exact Hlen. rewrite substring_full by lia.
      destruct (IH (S i) (write_append cur fpath (current_line fs (fst it)))
                  (set_data f (f_data f +++ current_line fs (fst it)))
                  (write_append_frame cur _ Hcur) (write_append_data cur f _ Hf)
                  Hnot' Hwr') as (A & B & C & D).
      rewrite A, C, D. repeat split; [exact B|].
      cbn [f_data set_data]. rewrite append_assoc. reflexivity.
    + destruct (IH i cur f Hcur Hf Hnot' Hwr') as (A & B & C & D).
      destruct (make_path_string_unreachable separator get_hash_from_fd fs it 1 Hr)
        as [_ E1].
      destruct (append_items i cur fpath r) as [[rc fs'] lg']. cbn [fst snd] in *.
      rewrite length_app, E1, D, C. repeat split; [exact A | exact B].
Qed.

Lemma open_append_opened (fs0 : filesystem) :
  open_append may_create fs fpath = Some fs0 ->
  same_elsewhere fs0
  /\ exists f, fs0 fpath = Some f /\ f_data f = data_at fs fpath
               /\ (f_readable f = true <-> open_read fs0 fpath = Some f).
Proof.
  unfold open_append, data_at, open_read.
  destruct (fs fpath) as [f|] eqn:E.
  - destruct (f_writable f); [|discriminate]. intros H. injection H as <-.
    split; [intros q _; reflexivity|]. exists f. rewrite E.
    repeat split; destruct (f_readable f); congruence.
  - destruct (may_create fpath); [|discriminate]. intros H. injection H as <-.
    split.
    + intros q Hq. apply String.eqb_neq in Hq. rewrite Hq. reflexivity.
    + rewrite String.eqb_refl. eexists. repeat split.
Qed.

End Appending.

Lemma open_append_file (may_create : string -> bool) (fs fs0 : filesystem) (fpath : string) :
  open_append may_create fs fpath = Some fs0 ->
  exists f, fs0 fpath = Some f /\ f_data f = data_at fs fpath
            /\ (fs fpath = Some f \/ f_readable f = true).
Proof.
  unfold open_append, data_at.
  destruct (fs fpath) as [f|] eqn:E.
  - destruct (f_writable f); [|discriminate]. intros H. injection H as <-.
    exists f. rewrite E. auto.
  - destruct (may_create fpath); [|discriminate]. intros H. injection H as <-.
    rewrite String.eqb_refl. eexists. repeat split. right. reflexivity.
Qed.

(** [trust_file_append] where every [write] is complete and the file is
    not itself among the paths: it returns 0, the file holds what it held
    (nothing if it has just been created) followed by one line
    "<path> <size> <hash>\n" for every path that can be opened and whose
    size can be read, in the order of the list, with the size and the hash
    the file system has; a path that cannot is skipped with one error
    message; no other file changes.  Nothing in the file or in the list
    is looked at for duplicates. *)
Theorem append_adds_lines
    (separator : ascii) (get_hash_from_fd : string -> string)
    (may_create : string -> bool) (wr : nat -> option nat)
    (fs fs0 : filesystem) (fpath : string) (list : list_t) :
  open_append may_create fs fpath = Some fs0 ->
  ~ In fpath (keys list) ->
  (forall j, complete_write get_hash_from_fd wr fs list j) ->
  exists fs' lg,
    trust_file_append separator get_hash_from_fd may_create wr fs fpath list = (0%Z, fs', lg)
    /\ same_elsewhere fs fpath fs'
    /\ data_at fs' fpath = data_at fs fpath +++ appended_text get_hash_from_fd fs list
    /\ List.length lg = List.length (filter (fun it => negb (reachable fs it)) list).
Proof.
  intros Hopen Hnot Hwr. unfold trust_file_append. rewrite Hopen.
  destruct (open_append_opened may_create fs fpath fs0 Hopen) as [Hsame _].
  destruct (open_append_file may_create fs fs0 fpath Hopen) as (f & Hf & Hd & _).
  destruct (append_items_complete separator get_hash_from_fd wr fs fpath list 0 fs0 f
              Hsame Hf Hnot Hwr) as (A & B & C & D).
  destruct (append_items separator get_hash_from_fd wr 0 fs0 fpath list) as [[rc fs'] lg].
  cbn [fst snd] in *. subst rc. exists fs', lg.
  repeat split; [exact B | | exact D].
  unfold data_at at 1. rewrite C. cbn [f_data set_data]. rewrite Hd. reflexivity.
Qed.

Lemma append_adds_lines_witness :
  open_append (fun _ => true) one_file "/new" <> None
  /\ exists fs' lg,
       trust_file_append " " hash_of (fun _ => true) (fun _ => Some 4096) one_file "/new"
         [("/x", None); ("/gone", None)] = (0%Z, fs', lg)
       /\ data_at fs' "/new" = data_at one_file "/new" +++ ("/x 5 61a9960b" +++ nl)
       /\ List.length lg = 1.
Proof.
  split; [discriminate|].
  assert (H2 : ~ In "/new" (keys [("/x", None); ("/gone", None)]))
    by (simpl; intuition discriminate).
  assert (H3 : forall j, complete_write hash_of (fun _ => Some 4096) one_file
                           [("/x", None); ("/gone", None)] j).
  { intros j. exists 4096. split; [reflexivity|].
    intros it [<-|[<-|[]]]; apply Nat.leb_le; vm_compute; reflexivity. }
  destruct (append_adds_lines " " hash_of (fun _ => true) (fun _ => Some 4096) one_file _
              "/new" [("/x", None); ("/gone", None)] eq_refl H2 H3)
    as (fs' & lg & A & _ & C & D).
  exists fs', lg. split; [exact A|]. split; [exact C | exact D].
Defined.

Lemma parsed_app (a b : list string) :
  well_formed a = true ->
  parsed (a ++ b) = parsed a ++ parsed b /\ well_formed (a ++ b) = well_formed b.
Proof.
  induction a as [|x a IH]; intros H; [split; reflexivity|].
  cbn [well_formed forallb] in H. apply andb_true_iff in H. destruct H as [Hx H].
  destruct (IH H) as [IH1 IH2]. cbn [List.app parsed well_formed forallb].
  fold (well_formed (a ++ b)). rewrite Hx, IH2.
  destruct (is_comment x); [split; [exact IH1 | reflexivity]|].
  destruct (sscanf_FILE_READ_FORMAT x); [|discriminate].
  rewrite IH1. split; reflexivity.
Qed.

Lemma appended_records (get_hash_from_fd : string -> string) (fs : filesystem) (l : list_t) :
  forallb (loadable get_hash_from_fd fs) (appended fs l) = true ->
  appended_text get_hash_from_fd fs l
  = text_of (map (fun t => line_body t +++ nl)
               (map (fun it => current_record get_hash_from_fd fs (fst it)) (appended fs l)))
  /\ Forall (fun t => record_ok t /\ plain_key (fst (fst t)) = true
                      /\ String.length (line_body t) + 1 <= BUFFER_SIZE)
       (map (fun it => current_record get_hash_from_fd fs (fst it)) (appended fs l)).
Proof.
  unfold appended_text, appended. induction l as [|it l IH]; intros H.
  - split; [reflexivity | constructor].
  - cbn [filter map text_of fold_right] in *. unfold appended_line at 1.
    destruct (reachable fs it) eqn:Hr.
    + cbn [forallb map text_of fold_right] in *. apply andb_true_iff in H.
      destruct H as [Hl H]. destruct (IH H) as [IH1 IH2].
      unfold loadable in Hl. rewrite !andb_true_iff in Hl.
      destruct Hl as [[[Hw Hp] Href] Hlen]. apply Nat.leb_le in Hlen.
      destruct (refreshable_reachable get_hash_from_fd fs it Hw Href) as (_ & R2 & R3 & R4).
      rewrite R4 in *. split.
      * f_equal. exact IH1.
      * constructor; [|exact IH2]. rewrite R3. split; [exact R2|]. split; [exact Hp|].
        rewrite length_append in Hlen. exact Hlen.
    + exact (IH H).
Qed.

Lemma trust_file_load_data (separator tag : ascii) (fs : filesystem) (fpath : string)
    (f : file) (l : list_t) :
  fs fpath = Some f -> f_readable f = true ->
  trust_file_load separator tag fs fpath l
  = load_buffers separator tag fpath (fgets_all (BUFFER_SIZE - 1) (f_data f)) l.
Proof.
  intros Hf Hr. unfold trust_file_load, open_read. rewrite Hf, Hr. reflexivity.
Qed.

(** Appending and loading.  A readable trust file of whole, well-formed
    lines (or a file that does not exist yet), to which
    [trust_file_append] adds paths that load (words that do not begin like
    a comment, with a hash of at most 64 bytes and a line that fits the
    buffer): loading the file afterwards returns 0 and gives the store
    the file gave before with the records of the reachable paths merged
    in, in their order, each with the size and hash its file has.  A path
    the file listed already keeps the record it had: the appended line is
    dropped as a duplicate. *)
Theorem append_then_load
    (separator SRC_FILE_DB : ascii) (get_hash_from_fd : string -> string)
    (may_create : string -> bool) (wr : nat -> option nat)
    (fs fs0 : filesystem) (fpath : string) (lines : list string) (list : list_t) :
  let before := snd (fst (trust_file_load separator SRC_FILE_DB fs0 fpath [])) in
  let added :=
    map (fun it => item_of separator SRC_FILE_DB (current_record get_hash_from_fd fs (fst it)))
        (appended fs list) in
  open_append may_create fs fpath = Some fs0 ->
  (forall f, fs fpath = Some f -> f_readable f = true) ->
  data_at fs fpath = text_of lines ->
  Forall full_line lines ->
  well_formed lines = true ->
  ~ In fpath (keys list) ->
  (forall j, complete_write get_hash_from_fd wr fs list j) ->
  forallb (loadable get_hash_from_fd fs) (appended fs list) = true ->
  exists fs' lg,
    trust_file_append separator get_hash_from_fd may_create wr fs fpath list = (0%Z, fs', lg)
    /\ fst (fst (trust_file_load separator SRC_FILE_DB fs' fpath [])) = 0%Z
    /\ snd (fst (trust_file_load separator SRC_FILE_DB fs' fpath [])) = merge_in before added
    /\ (forall k, In k (keys before) ->
                  lookup k (snd (fst (trust_file_load separator SRC_FILE_DB fs' fpath [])))
                  = lookup k before).
Proof.
  intros before added Hopen Hread Hdata Hlines Hwf Hnot Hwr Hload.
  unfold trust_file_append. rewrite Hopen.
  destruct (open_append_opened may_create fs fpath fs0 Hopen) as [Hsame _].
  destruct (open_append_file may_create fs fs0 fpath Hopen) as (f & Hf & Hd & Hrd).
  assert (Hr : f_readable f = true) by (destruct Hrd as [E|E]; [apply Hread, E | exact E]).
  destruct (append_items_complete separator get_hash_from_fd wr fs fpath list 0 fs0 f
              Hsame Hf Hnot Hwr) as (A & _ & C & _).
  destruct (append_items separator get_hash_from_fd wr 0 fs0 fpath list) as [[rc fs'] lg].
  cbn [fst snd] in *. subst rc. exists fs', lg. split; [reflexivity|].
  destruct (appended_records get_hash_from_fd fs list Hload) as [Htext Hts].
  set (ts := map (fun it => current_record get_hash_from_fd fs (fst it)) (appended fs list))
    in *.
  assert (Hbefore : before = merge_in [] (map (item_of separator SRC_FILE_DB) (parsed lines))).
  { unfold before. rewrite (trust_file_load_data _ _ fs0 fpath f [] Hf Hr).
    rewrite load_buffers_store, Hd, Hdata, (full_lines_buffers lines Hlines). reflexivity. }
  assert (Hbufs : fgets_all (BUFFER_SIZE - 1)
                    (f_data (set_data f (f_data f +++ appended_text get_hash_from_fd fs list)))
                  = lines ++ flat_map line_buffers ts).
  { cbn [f_data set_data]. rewrite Hd, Hdata, Htext.
    rewrite (fgets_all_lines _ lines _ read_cap_pos Hlines).
    rewrite <- (append_nil_r (text_of _)), fgets_all_records, fgets_all_empty, app_nil_r
      by (revert Hts; apply Forall_impl; tauto).
    reflexivity. }
  assert (Hparsed : parsed (lines ++ flat_map line_buffers ts) = parsed lines ++ ts
                    /\ well_formed (lines ++ flat_map line_buffers ts) = true).
  { destruct (parsed_app lines (flat_map line_buffers ts) Hwf) as [P1 P2].
    assert (P3 : parsed (flat_map line_buffers ts ++ []) = ts ++ parsed []
                 /\ well_formed (flat_map line_buffers ts ++ []) = well_formed [])
      by (apply parsed_records; revert Hts; apply Forall_impl; tauto).
    rewrite !app_nil_r in P3. destruct P3 as [P3 P4].
    rewrite P1, P2, P3, P4. split; reflexivity. }
  destruct Hparsed as [Hp Hw].
  assert (Hstore : snd (fst (trust_file_load separator SRC_FILE_DB fs' fpath []))
                   = merge_in before added).
  { rewrite (trust_file_load_data _ _ fs' fpath _ [] C Hr).
    rewrite load_buffers_store, Hbufs, Hp, map_app, merge_in_app, <- Hbefore.
    unfold added, ts. rewrite map_map. reflexivity. }
  split; [|split; [exact Hstore|]].
  - rewrite (trust_file_load_data _ _ fs' fpath _ [] C Hr).
    rewrite load_buffers_code, Hbufs, Hw. reflexivity.
  - intros k Hk. rewrite Hstore, merge_in_lookup, lookup_app.
    destruct (lookup k before) eqn:E; [reflexivity|].
    apply lookup_None in E. contradiction.
Qed.

Lemma append_then_load_witness :
  open_append (fun _ => true) one_file "/t" = Some one_file
  /\ forallb (loadable hash_of one_file) (appended one_file [("/x", None); ("/gone", None)])
     = true
  /\ exists fs' lg,
       trust_file_append " " hash_of (fun _ => true) (fun _ => Some 4096) one_file "/t"
         [("/x", None); ("/gone", None)] = (0%Z, fs', lg)
       /\ lookup "/x" (snd (fst (trust_file_load " " "2" fs' "/t" [])))
          = lookup "/x" (snd (fst (trust_file_load " " "2" one_file "/t" []))).
Proof.
  assert (H1 : open_append (fun _ => true) one_file "/t" = Some one_file) by reflexivity.
  assert (H2 : forall f, one_file "/t" = Some f -> f_readable f = true).
  { intros f E. vm_compute in E. injection E as <-. reflexivity. }
  assert (H3 : Forall full_line ["/a/b 1 aa" +++ nl; "/a/bc 2 bb" +++ nl; "/x 3 cc" +++ nl]).
  { repeat constructor; eexists; (split; [reflexivity|]);
      (split; [reflexivity | apply Nat.leb_le; vm_compute; reflexivity]). }
  assert (H4 : ~ In "/t" (keys [("/x", None); ("/gone", None)]))
    by (simpl; intuition discriminate).
  assert (H5 : forall j, complete_write hash_of (fun _ => Some 4096) one_file
                           [("/x", None); ("/gone", None)] j).
  { intros j. exists 4096. split; [reflexivity|].
    intros it [<-|[<-|[]]]; apply Nat.leb_le; vm_compute; reflexivity. }
  assert (H6 : forallb (loadable hash_of one_file)
                 (appended one_file [("/x", None); ("/gone", None)]) = true)
    by (vm_compute; reflexivity).
  split; [exact H1|]. split; [exact H6|].
  pose proof (append_then_load " " "2" hash_of (fun _ => true) (fun _ => Some 4096)
                one_file one_file "/t"
                ["/a/b 1 aa" +++ nl; "/a/bc 2 bb" +++ nl; "/x 3 cc" +++ nl]
                [("/x", None); ("/gone", None)]
                H1 H2 eq_refl H3 eq_refl H4 H5 H6) as T.
  cbv zeta in T. destruct T as (fs' & lg & A & _ & _ & D).
  exists fs', lg. split; [exact A|]. apply D. vm_compute. auto.
Defined.

Lemma append_items_failure (separator : ascii) (get_hash_from_fd : string -> string)
    (wr : nat -> option nat) (fs : filesystem) (fpath : string) (l : list_t) :
  forall (i j : nat) (cur : filesystem) (f : file),
    same_elsewhere fs fpath cur ->
    cur fpath = Some f ->
    ~ In fpath (keys l) ->
    (forall m, m < j -> complete_write get_hash_from_fd wr fs l (i + m)) ->
    wr (i + j) = None ->
    j < List.length (appended fs l) ->
    let r := append_items separator get_hash_from_fd wr i cur fpath l in
    fst (fst r) = 2%Z
    /\ same_elsewhere fs fpath (snd (fst r))
    /\ data_at (snd (fst r)) fpath
       = f_data f +++ text_of (map (fun it => current_line get_hash_from_fd fs (fst it))
                                 (firstn j (appended fs l)))
    /\ exists lg0, snd r = lg0 ++ msg LOG_ERR ("failed writing to %s" +++ nl) [fpath].
Proof.
  unfold appended. induction l as [|it r IH]; intros i j cur f Hcur Hf Hnot Hwr Hfail Hj.
  - simpl in Hj. lia.
  - assert (Hne : fst it <> fpath) by (intros E; apply Hnot; left; exact E).
    assert (Hnot' : ~ In fpath (keys r)) by (intros E; apply Hnot; right; exact E).
    cbv zeta. rewrite (append_step separator get_hash_from_fd wr fs fpath cur it r i Hcur Hne).
    cbn [filter] in *. destruct (reachable fs it) eqn:Hr.
    + destruct j as [|j].
      * rewrite Nat.add_0_r in Hfail. rewrite Hfail. cbn [fst snd firstn map text_of fold_right].
        repeat split; [exact Hcur | | exists []; reflexivity].
        unfold data_at. rewrite Hf, append_nil_r. reflexivity.
      * destruct (Hwr 0 ltac:(lia)) as (n & En & Hn). rewrite Nat.add_0_r in En.
        rewrite En. cbv zeta.
        assert (Hlen : String.length (current_line get_hash_from_fd fs (fst it)) <= n).
        { specialize (Hn it (or_introl eq_refl)). unfold appended_line in Hn.
          rewrite Hr in Hn. exact Hn. }
        rewrite Nat.min_r by exact Hlen. rewrite substring_full by lia.
        assert (Hwr' : forall m, m < j ->
                                 complete_write get_hash_from_fd wr fs r (S i + m)).
        { intros m Hm. destruct (Hwr (S m) ltac:(lia)) as (k & Ek & Hk).
          exists k. split; [rewrite <- Ek; f_equal; lia|].
          intros x Hx. apply Hk. right. exact Hx. }
        assert (Hfail' : wr (S i + j) = None) by (rewrite <- Hfail; f_equal; lia).
        cbn [List.length] in Hj.
        destruct (IH (S i) j
                    (write_append cur fpath (current_line get_hash_from_fd fs (fst it)))
                    (set_data f (f_data f +++ current_line get_hash_from_fd fs (fst it)))
                    (write_append_frame fs fpath cur _ Hcur)
                    (write_append_data fpath cur f _ Hf) Hnot' Hwr' Hfail' ltac:(lia))
          as (A & B & C & D).
        cbv zeta in A, B, C, D. rewrite A, C. repeat split; [exact B | | exact D].
        cbn [firstn map text_of fold_right f_data set_data]. rewrite append_assoc. reflexivity.
    + assert (Hwr' : forall m, m < j -> complete_write get_hash_from_fd wr fs r (i + m)).
      { intros m Hm. destruct (Hwr m Hm) as (k & Ek & Hk).
        exists k. split; [exact Ek|]. intros x Hx. apply Hk. right. exact Hx. }
      destruct (IH i j cur f Hcur Hf Hnot' Hwr' Hfail Hj) as (A & B & C & (lg0 & D)).
      cbv zeta in A, B, C, D.
      destruct (append_items separator get_hash_from_fd wr i cur fpath r) as [[rc fs'] lg'].
      cbn [fst snd] in *. repeat split; [exact A | exact B | exact C |].
      rewrite D. eexists. rewrite app_assoc. reflexivity.
Qed.

(** A [write] that fails ends [trust_file_append] with 2 and a message,
    and undoes nothing: when the first [j] writes are complete and the
    next one fails, the file holds what it held followed by the lines of
    the first [j] paths that could be opened, and no more. *)
Theorem append_stops_at_failed_write
    (separator : ascii) (get_hash_from_fd : string -> string)
    (may_create : string -> bool) (wr : nat -> option nat)
    (fs fs0 : filesystem) (fpath : string) (list : list_t) (j : nat) :
  open_append may_create fs fpath = Some fs0 ->
  ~ In fpath (keys list) ->
  (forall m, m < j -> complete_write get_hash_from_fd wr fs list m) ->
  wr j = None ->
  j < List.length (appended fs list) ->
  exists fs' lg,
    trust_file_append separator get_hash_from_fd may_create wr fs fpath list
    = (2%Z, fs', lg ++ msg LOG_ERR ("failed writing to %s" +++ nl) [fpath])
    /\ same_elsewhere fs fpath fs'
    /\ data_at fs' fpath
       = data_at fs fpath
         +++ text_of (map (fun it => current_line get_hash_from_fd fs (fst it))
                        (firstn j (appended fs list))).
Proof.
  intros Hopen Hnot Hwr Hfail Hj. unfold trust_file_append. rewrite Hopen.
  destruct (open_append_opened may_create fs fpath fs0 Hopen) as [Hsame _].
  destruct (open_append_file may_create fs fs0 fpath Hopen) as (f & Hf & Hd & _).
  destruct (append_items_failure separator get_hash_from_fd wr fs fpath list 0 j fs0 f
              Hsame Hf Hnot Hwr Hfail Hj) as (A & B & C & (lg0 & D)).
  cbv zeta in A, B, C, D.
  destruct (append_items separator get_hash_from_fd wr 0 fs0 fpath list) as [[rc fs'] lg].
  cbn [fst snd] in *. subst rc lg. exists fs', lg0.
  repeat split; [exact B|]. rewrite C, Hd. reflexivity.
Qed.

Lemma append_stops_at_failed_write_witness :
  1 < List.length (appended one_file [("/x", None); ("/gone", None); ("/t", None)])
  /\ exists fs' lg,
       trust_file_append " " hash_of (fun _ => true)
         (fun i => if i =? 0 then Some 4096 else None) one_file "/new"
         [("/x", None); ("/gone", None); ("/t", None)]
       = (2%Z, fs', lg ++ msg LOG_ERR ("failed writing to %s" +++ nl) ["/new"])
       /\ data_at fs' "/new" = data_at one_file "/new" +++ ("/x 5 61a9960b" +++ nl).
Proof.
  assert (H1 : 1 < List.length (appended one_file [("/x", None); ("/gone", None); ("/t", None)]))
    by (apply Nat.ltb_lt; vm_compute; reflexivity).
  assert (H2 : ~ In "/new" (keys [("/x", None); ("/gone", None); ("/t", None)]))
    by (simpl; intuition discriminate).
  assert (H3 : forall m, m < 1 ->
                 complete_write hash_of (fun i => if i =? 0 then Some 4096 else None) one_file
                   [("/x", None); ("/gone", None); ("/t", None)] m).
  { intros m Hm. assert (m = 0) by lia. subst m. exists 4096. split; [reflexivity|].
    intros it [<-|[<-|[<-|[]]]]; apply Nat.leb_le; vm_compute; reflexivity. }
  split; [exact H1|].
  destruct (append_stops_at_failed_write " " hash_of (fun _ => true)
              (fun i => if i =? 0 then Some 4096 else None) one_file _ "/new"
              [("/x", None); ("/gone", None); ("/t", None)] 1 eq_refl H2 H3 eq_refl H1)
    as (fs' & lg & A & _ & C).
  exists fs', lg. split; [exact A|].
  rewrite C. vm_compute. reflexivity.
Defined.

(** *** The mutators over the whole store *)

Lemma trust_file_load_local (separator tag : ascii) (fs cur : filesystem) (fpath : string)
    (l : list_t) :
  cur fpath = fs fpath ->
  trust_file_load separator tag cur fpath l = trust_file_load separator tag fs fpath l.
Proof. intros H. unfold trust_file_load, open_read. rewrite H. reflexivity. Qed.

Lemma open_write_local (fs cur : filesystem) (fpath : string) :
  cur fpath = fs fpath -> open_write cur fpath = open_write fs fpath.
Proof. intros H. unfold open_write. rewrite H. reflexivity. Qed.

(** One file: the call returns the count, changes that file only, and
    leaves no key with the prefix to be loaded from it. *)
Lemma delete_path_done (separator tag : ascii) (fs : filesystem) (fpath p : string) :
  (matches_in separator tag fs p fpath <> [] -> open_write fs fpath = true) ->
  forallb fits (survivors_in separator tag fs p fpath) = true ->
  exists fs1 lg,
    trust_file_delete_path separator tag fs fpath p
    = Done (Z.of_nat (List.length (matches_in separator tag fs p fpath)), fs1, lg)
    /\ same_elsewhere fs fpath fs1
    /\ forall it, In it (snd (fst (trust_file_load separator tag fs1 fpath []))) ->
                  starts_with p (fst it) = false.
Proof.
  unfold matches_in, survivors_in. intros Hw Hfit.
  set (loaded := snd (fst (trust_file_load separator tag fs fpath []))) in *.
  assert (Hcase : matching p loaded = [] \/ matching p loaded <> [])
    by (destruct (matching p loaded); [left; reflexivity | right; discriminate]).
  destruct Hcase as [Em|Hne].
  - exists fs. eexists. rewrite trust_file_delete_path_unfold. cbv zeta. fold loaded.
    rewrite Em. split; [reflexivity|]. split; [intros q _; reflexivity|].
    fold loaded. apply matching_none. exact Em.
  - pose proof (delete_path_rewrites separator tag fs fpath p) as Hrw. cbv zeta in Hrw.
    fold loaded in Hrw. rewrite (Hrw Hne (Hw Hne) Hfit).
    eexists. eexists. split; [reflexivity|]. split.
    + intros q Hq. apply store_frame. exact Hq.
    + assert (Hitems : Forall (fun it =>
                (exists t, record_ok t /\ it = item_of separator tag t)
                /\ (starts_with p (fst it) = false /\ fits it = true))
                (surviving p loaded)).
      { apply Forall_forall. intros it Hin. rewrite forallb_forall in Hfit.
        pose proof (Hfit it Hin) as Hf. apply surviving_In in Hin. destruct Hin as [Hin Hp].
        split; [apply (loaded_item_ok separator tag fs fpath); exact Hin | tauto]. }
      destruct (loaded_nonempty_opens separator tag fs fpath) as [f Hf].
      { fold loaded. intros E. apply Hne. rewrite E. reflexivity. }
      apply (loaded_keys separator tag (fun k => starts_with p k = false)).
      apply (rewritten_file_buffers separator tag _ fs fpath f _ Hf Hitems).
Qed.

Lemma total_matching_cons (separator tag : ascii) (fs : filesystem) (p x : string)
    (files : list string) :
  total_matching separator tag fs p (x :: files)
  = (Z.of_nat (List.length (matches_in separator tag fs p x))
     + total_matching separator tag fs p files)%Z.
Proof. reflexivity. Qed.

Lemma total_matching_local (separator tag : ascii) (fs cur : filesystem) (p : string)
    (files : list string) :
  (forall q, In q files -> cur q = fs q) ->
  total_matching separator tag cur p files = total_matching separator tag fs p files.
Proof.
  unfold total_matching, matches_in. induction files as [|x files IH]; intros H; [reflexivity|].
  cbn [fold_right]. rewrite IH by (intros q Hq; apply H; right; exact Hq).
  rewrite (trust_file_load_local separator tag fs cur x [] (H x (or_introl eq_refl))).
  reflexivity.
Qed.

Lemma nftw_delete_path (separator tag : ascii) (fs : filesystem) (p : string) (w : walk) :
  forall (c : Z) (cur : filesystem),
    NoDup (regular_files w) ->
    (forall q, In q (regular_files w) -> cur q = fs q) ->
    (forall q, In q (regular_files w) ->
               (matches_in separator tag fs p q <> [] -> open_write fs q = true)
               /\ forallb fits (survivors_in separator tag fs p q) = true) ->
    exists fs' lg,
      nftw w (ftw_delete_path separator tag p) (Done (c, cur))
      = (Done ((c + total_matching separator tag fs p (regular_files w))%Z, fs'), lg)
      /\ (forall q, ~ In q (regular_files w) -> fs' q = cur q)
      /\ forall q it, In q (regular_files w) ->
                      In it (snd (fst (trust_file_load separator tag fs' q []))) ->
                      starts_with p (fst it) = false.
Proof.
  induction w as [|[fpath flag] w IH]; intros c cur Hu Hcur Hyp.
  - exists cur, []. cbn. rewrite Z.add_0_r. repeat split. intros q it [].
  - rewrite regular_files_cons in *.
    destruct flag;
      try (destruct (IH c cur Hu Hcur Hyp) as (fs' & lg & A & B & C);
           exists fs', lg; cbn [nftw ftw_delete_path]; rewrite A; repeat split; assumption).
    inversion Hu as [|? ? Hnotin Hu']; subst.
    assert (Hloc : cur fpath = fs fpath) by (apply Hcur; left; reflexivity).
    destruct (Hyp fpath (or_introl eq_refl)) as [Hw Hfit].
    destruct (delete_path_done separator tag cur fpath p) as (fs1 & lg1 & D1 & D2 & D3).
    { unfold matches_in. rewrite (trust_file_load_local _ _ fs cur fpath [] Hloc),
        (open_write_local fs cur fpath Hloc). exact Hw. }
    { unfold survivors_in. rewrite (trust_file_load_local _ _ fs cur fpath [] Hloc).
      exact Hfit. }
    unfold matches_in in D1. rewrite (trust_file_load_local _ _ fs cur fpath [] Hloc) in D1.
    fold (matches_in separator tag fs p fpath) in D1.
    destruct (IH (c + Z.of_nat (List.length (matches_in separator tag fs p fpath)))%Z fs1 Hu')
      as (fs' & lg & A & B & C).
    { intros q Hq. rewrite D2; [apply Hcur; right; exact Hq|].
      intros ->. contradiction. }
    { intros q Hq. apply Hyp. right. exact Hq. }
    exists fs', (lg1 ++ lg). cbn [nftw ftw_delete_path]. rewrite D1, A.
    split; [|split].
    + rewrite total_matching_cons, Z.add_assoc. reflexivity.
    + intros q Hq. rewrite B by (intros E; apply Hq; right; exact E).
      apply D2. intros ->. apply Hq. left. reflexivity.
    + intros q it [<-|Hq] Hit; [|apply (C q it Hq Hit)].
      apply D3. rewrite <- (trust_file_load_local _ _ fs1 fs' fpath [] (B fpath Hnotin)).
      exact Hit.
Qed.

Lemma file_records_loaded_keys (separator tag : ascii) (fs : filesystem) (fpath k : string) :
  In k (keys (file_records separator tag fs fpath))
  <-> In k (keys (snd (fst (trust_file_load separator tag fs fpath [])))).
Proof. rewrite trust_file_load_store, merge_in_keys. reflexivity. Qed.

(** [trust_file_delete_path_all] over the primary file and a walk that
    meets each file once, where every file with a matching record can be
    opened for writing and the surviving lines fit the buffer: the count
    returned is the number of matching records over all the files, files
    that are not trust files are not touched, and afterwards neither a
    load of any of the files nor [trust_file_load_all] over the same walk
    finds a key with the prefix. *)
Theorem delete_path_all_leaves_no_prefix
    (separator SRC_FILE_DB : ascii) (fs : filesystem) (w : walk) (p : string) (g : list_t) :
  NoDup (trust_files w) ->
  (forall q, In q (trust_files w) ->
             (matches_in separator SRC_FILE_DB fs p q <> [] -> open_write fs q = true)
             /\ forallb fits (survivors_in separator SRC_FILE_DB fs p q) = true) ->
  exists fs' lg,
    trust_file_delete_path_all separator SRC_FILE_DB fs w p
    = Done (total_matching separator SRC_FILE_DB fs p (trust_files w), fs', lg)
    /\ (forall q, ~ In q (trust_files w) -> fs' q = fs q)
    /\ (forall q it, In q (trust_files w) ->
                     In it (snd (fst (trust_file_load separator SRC_FILE_DB fs' q []))) ->
                     starts_with p (fst it) = false)
    /\ (forall k, In k (keys (fst (load_all_list separator SRC_FILE_DB fs' w g))) ->
                  starts_with p k = false).
Proof.
  unfold trust_files. intros Hu Hyp. inversion Hu as [|? ? Hnotin Hu']; subst.
  destruct (Hyp TRUST_FILE_PATH (or_introl eq_refl)) as [Hw Hfit].
  destruct (delete_path_done separator SRC_FILE_DB fs TRUST_FILE_PATH p Hw Hfit)
    as (fs1 & lg1 & D1 & D2 & D3).
  destruct (nftw_delete_path separator SRC_FILE_DB fs p w
              (Z.of_nat (List.length (matches_in separator SRC_FILE_DB fs p TRUST_FILE_PATH)))
              fs1 Hu') as (fs' & lg & A & B & C).
  { intros q Hq. apply D2. intros ->. contradiction. }
  { intros q Hq. apply Hyp. right. exact Hq. }
  assert (Hfiles : forall q it,
            In q (TRUST_FILE_PATH :: regular_files w) ->
            In it (snd (fst (trust_file_load separator SRC_FILE_DB fs' q []))) ->
            starts_with p (fst it) = false).
  { intros q it [<-|Hq] Hit; [|apply (C q it Hq Hit)].
    apply D3.
    rewrite <- (trust_file_load_local _ _ fs1 fs' TRUST_FILE_PATH [] (B _ Hnotin)).
    exact Hit. }
  exists fs', (lg1 ++ lg). unfold trust_file_delete_path_all. rewrite D1.
  cbn [bind]. rewrite A. cbn [bind fst snd].
  split; [rewrite total_matching_cons; reflexivity|]. split; [|split; [exact Hfiles|]].
  - intros q Hq. rewrite B by (intros E; apply Hq; right; exact E).
    apply D2. intros ->. apply Hq. left. reflexivity.
  - intros k Hk. apply load_all_list_keys in Hk. destruct Hk as (q & Hq & Hk).
    apply file_records_loaded_keys in Hk. unfold keys in Hk. apply in_map_iff in Hk.
    destruct Hk as (it & <- & Hit). apply (Hfiles q it Hq Hit).
Qed.

Lemma delete_path_all_leaves_no_prefix_witness :
  NoDup (trust_files disk_walk)
  /\ exists fs' lg,
       trust_file_delete_path_all " " "2" disk disk_walk "/" = Done (2%Z, fs', lg)
       /\ forall k, In k (keys (fst (load_all_list " " "2" fs' disk_walk []))) ->
                    starts_with "/" k = false.
Proof.
  assert (H1 : NoDup (trust_files disk_walk)).
  { repeat constructor; simpl; intuition discriminate. }
  assert (H2 : forall q, In q (trust_files disk_walk) ->
                 (matches_in " " "2" disk "/" q <> [] -> open_write disk q = true)
                 /\ forallb fits (survivors_in " " "2" disk "/" q) = true).
  { intros q [<-|[<-|[]]]; split; reflexivity. }
  split; [exact H1|].
  destruct (delete_path_all_leaves_no_prefix " " "2" disk disk_walk "/" [] H1 H2)
    as (fs' & lg & A & _ & _ & D).
  exists fs', lg. split; [exact A | exact D].
Defined.






(** *** What the removal of duplicates cannot do *)

Lemma list_remove_In (l : list_t) (k : string) (it : list_item_t) :
  In it (list_remove l k) -> In it l.
Proof.
  induction l as [|x l IH]; simpl; [tauto|].
  destruct (String.eqb (fst x) k); [tauto|]. intros [H|H]; [tauto | right; apply IH, H].
Qed.

Lemma list_remove_keeps (l : list_t) (k k' : string) :
  In k (keys l) -> k <> k' -> In k (keys (list_remove l k')).
Proof.
  unfold keys. induction l as [|x l IH]; simpl; [tauto|].
  intros [H|H] Hne.
  - destruct (String.eqb (fst x) k') eqn:E.
    + apply String.eqb_eq in E. congruence.
    + left. exact H.
  - destruct (String.eqb (fst x) k'); [exact H|]. right. apply IH; assumption.
Qed.

Lemma remove_all_In (ks : list string) (l : list_t) (it : list_item_t) :
  In it (remove_all l ks) -> In it l.
Proof.
  revert l. induction ks as [|k ks IH]; intros l; [tauto|].
  rewrite remove_all_cons. intros H. apply IH in H. apply (list_remove_In l k it H).
Qed.

Lemma remove_all_keeps (ks : list string) (l : list_t) (k : string) :
  In k (keys l) -> ~ In k ks -> In k (keys (remove_all l ks)).
Proof.
  revert l. induction ks as [|k' ks IH]; intros l Hin Hnot; [exact Hin|].
  rewrite remove_all_cons. apply IH.
  - apply list_remove_keeps; [exact Hin|]. intros ->. apply Hnot. left. reflexivity.
  - intros H. apply Hnot. right. exact H.
Qed.

Lemma parsed_keys_are_record_keys (bufs : list string) (k : string) :
  In k (map (fun t => fst (fst t)) (parsed bufs)) -> In k (record_keys bufs).
Proof.
  unfold record_keys. induction bufs as [|b bufs IH]; simpl; [tauto|].
  destruct (is_comment b); [exact IH|].
  destruct (sscanf_FILE_READ_FORMAT b) as [t|]; simpl; [|tauto].
  intros [H|H]; [left; exact H | right; apply IH, H].
Qed.

Lemma trust_file_rm_duplicates_parsed (fs : filesystem) (fpath : string) (l : list_t) :
  snd (fst (trust_file_rm_duplicates fs fpath l))
  = remove_all l (map (fun t => fst (fst t)) (parsed (file_buffers fs fpath))).
Proof.
  unfold trust_file_rm_duplicates, file_buffers.
  destruct (open_read fs fpath); [apply rm_buffers_store | reflexivity].
Qed.

Lemma nftw_rm_duplicates_parsed (fs : filesystem) (w : walk) (l : list_t) :
  fst (nftw w (ftw_rm_duplicates fs) l)
  = remove_all l
      (flat_map (fun fpath => map (fun t => fst (fst t)) (parsed (file_buffers fs fpath)))
         (regular_files w)).
Proof.
  revert l. induction w as [|[fpath flag] w IH]; intros l; [reflexivity|].
  cbn [nftw]. unfold ftw_rm_duplicates at 1.
  destruct (List.length l =? 0) eqn:E.
  - apply length_zero_nil in E. subst l. rewrite remove_all_nil. reflexivity.
  - rewrite regular_files_cons.
    destruct flag;
      try (specialize (IH l); destruct (nftw w (ftw_rm_duplicates fs) l); exact IH).
    pose proof (trust_file_rm_duplicates_parsed fs fpath l) as H.
    destruct (trust_file_rm_duplicates fs fpath l) as [[rc l'] lg]. cbn [fst snd] in H.
    specialize (IH l').
    destruct (nftw w (ftw_rm_duplicates fs) l') as [l'' lg']. cbn [fst snd] in *.
    cbn [flat_map]. rewrite remove_all_app, <- H. exact IH.
Qed.

(** [trust_file_rm_duplicates_all] only ever takes away candidates that
    are on disk, whatever the files hold (malformed lines included): every
    item left is an item of the candidate list, and a candidate key that
    is no longer there is the path of a record line of the primary file or
    of a regular file of the walk. *)
Theorem remove_duplicates_drops_only_keys_on_disk
    (fs : filesystem) (w : walk) (candidates g : list_t) :
  let out := fst (fst (trust_file_rm_duplicates_all fs w candidates g)) in
  (forall it, In it out -> In it candidates)
  /\ (forall k, In k (keys candidates) -> ~ In k (keys out) -> on_disk fs w k = true).
Proof.
  intros out.
  set (reached :=
         flat_map (fun fpath => map (fun t => fst (fst t)) (parsed (file_buffers fs fpath)))
           (trust_files w)).
  assert (Hout : out = merge_in [] (remove_all (merge_in [] candidates) reached)).
  { unfold out, trust_file_rm_duplicates_all, list_empty.
    rewrite !list_merge_merge_in.
    pose proof (trust_file_rm_duplicates_parsed fs TRUST_FILE_PATH (merge_in [] candidates))
      as H1.
    destruct (trust_file_rm_duplicates fs TRUST_FILE_PATH (merge_in [] candidates))
      as [[rc l2] lg1]. cbn [fst snd] in H1.
    pose proof (nftw_rm_duplicates_parsed fs w l2) as H2.
    destruct (nftw w (ftw_rm_duplicates fs) l2) as [l3 lg2]. cbn [fst snd] in *.
    rewrite H2, H1. unfold reached, trust_files. cbn [flat_map].
    rewrite remove_all_app. reflexivity. }
  split.
  - intros it Hit. rewrite Hout in Hit.
    apply merge_in_In in Hit. destruct Hit as [[]|Hit].
    apply remove_all_In in Hit. apply merge_in_In in Hit. destruct Hit as [[]|Hit].
    exact Hit.
  - intros k Hk Hnot. unfold on_disk. apply existsb_exists. exists k.
    split; [|apply String.eqb_refl].
    assert (Hreached : In k reached).
    { destruct (in_dec string_dec k reached) as [Hin|Hnin]; [exact Hin|].
      exfalso. apply Hnot. rewrite Hout. apply merge_in_keys. simpl.
      apply remove_all_keeps; [|exact Hnin]. apply merge_in_keys. exact Hk. }
    unfold reached in Hreached. apply in_flat_map in Hreached.
    destruct Hreached as (q & Hq & Hin). unfold disk_keys. apply in_flat_map.
    exists q. split; [exact Hq | apply parsed_keys_are_record_keys, Hin].
Qed.

Lemma rm_buffers_malformed (good : list string) (bad : string) (more : list string)
    (l : list_t) :
  well_formed good = true ->
  is_comment bad = false ->
  sscanf_FILE_READ_FORMAT bad = None ->
  snd (fst (rm_buffers (good ++ bad :: more) l)) = remove_all l (record_keys good)
  /\ (remove_all l (record_keys good) <> [] ->
      fst (fst (rm_buffers (good ++ bad :: more) l)) = 2%Z).
Proof.
  intros Hwf Hc Hs. split.
  - rewrite rm_buffers_store, parsed_malformed by assumption.
    rewrite parsed_keys_well_formed by exact Hwf. reflexivity.
  - revert l. induction good as [|b good IH]; intros l Hne.
    + simpl. rewrite Hc, Hs. reflexivity.
    + cbn [well_formed forallb] in Hwf. apply andb_true_iff in Hwf. destruct Hwf as [Hb Hwf].
      unfold record_keys in Hne. cbn [List.app rm_buffers flat_map] in *.
      destruct (is_comment b); [apply (IH Hwf), Hne|].
      destruct (sscanf_FILE_READ_FORMAT b) as [[[tpath sz] sha]|]; [|discriminate].
      cbn [List.app fst] in Hne. rewrite remove_all_cons in Hne.
      destruct (List.length (list_remove l tpath) =? 0) eqn:E.
      * apply length_zero_nil in E. rewrite E, remove_all_nil in Hne. congruence.
      * apply (IH Hwf), Hne.
Qed.

(** A malformed line stops [trust_file_rm_duplicates] for its file: of a
    file made of well-formed lines, a malformed line and anything after
    it, only the keys of the records before the malformed line are
    removed from the list, so a candidate listed further down stays; and
    the return code is 2 unless the list ran empty before. *)
Theorem rm_duplicates_stops_at_malformed_line
    (fs : filesystem) (fpath : string) (f : file) (good : list string)
    (bad rest : string) (l : list_t) :
  open_read fs fpath = Some f ->
  f_data f = text_of good +++ bad +++ rest ->
  Forall full_line good ->
  well_formed good = true ->
  full_line bad ->
  is_comment bad = false ->
  sscanf_FILE_READ_FORMAT bad = None ->
  snd (fst (trust_file_rm_duplicates fs fpath l)) = remove_all l (record_keys good)
  /\ (remove_all l (record_keys good) <> [] ->
      fst (fst (trust_file_rm_duplicates fs fpath l)) = 2%Z).
Proof.
  intros Hopen Hdata Hgood Hwf Hbad Hc Hparse.
  unfold trust_file_rm_duplicates. rewrite Hopen, Hdata.
  rewrite (fgets_all_lines _ good _ read_cap_pos Hgood).
  destruct Hbad as (body & -> & Hb & Hl).
  rewrite fgets_all_line; [| exact read_cap_pos | exact Hb |].
  - apply rm_buffers_malformed; assumption.
  - rewrite length_append in Hl. change (String.length nl) with 1 in Hl. lia.
Qed.

Lemma rm_duplicates_stops_at_malformed_line_witness :
  sscanf_FILE_READ_FORMAT garbage_line = None
  /\ snd (fst (trust_file_rm_duplicates broken_file "/t"
                 [("/bin/ls", None); ("/bin/cat", None)]))
     = remove_all [("/bin/ls", None); ("/bin/cat", None)] (record_keys [ls_line]).
Proof.
  assert (H1 : open_read broken_file "/t"
               = Some (readable (ls_line +++ garbage_line +++ cat_line))) by reflexivity.
  assert (H2 : Forall full_line [ls_line]).
  { constructor; [|constructor]. exists "/bin/ls 157984 61a9".
    split; [reflexivity|]. split; [reflexivity|]. apply Nat.leb_le. vm_compute. reflexivity. }
  assert (H4 : full_line garbage_line).
  { exists "garbage".
    split; [reflexivity|]. split; [reflexivity|]. apply Nat.leb_le. vm_compute. reflexivity. }
  assert (H6 : sscanf_FILE_READ_FORMAT garbage_line = None) by reflexivity.
  split; [exact H6|].
  exact (proj1 (rm_duplicates_stops_at_malformed_line broken_file "/t" _ [ls_line]
                  garbage_line cat_line [("/bin/ls", None); ("/bin/cat", None)]
                  H1 eq_refl H2 eq_refl H4 eq_refl H6)).
Defined.
